(** * chrome-post-messages: a shallow embedding of the four managers

    The development follows the TypeScript sources
    - [src/managers/types.ts]                 (ClientLayer, BaseMessage, Connections, ...)
    - [src/managers/listenerManager.ts]       (ListenerManager)
    - [src/managers/connectionManager.ts]     (ConnectionManager)
    - [src/managers/baseClientManager.ts]     (BaseClientManager)
    - [src/managers/baseBackgroundManager.ts] (BaseBackgroundManager)

    JavaScript values are modelled as follows.
    - A string is a [string]; one character stands for one UTF-16 code unit
      below 256.
    - A [number] is an IEEE-754 binary64 value, kept as an odd mantissa and a
      binary exponent.  Numbers are used as property keys of the
      connection registry, where [-0] and [+0] are the same key, and as tab
      identifiers, where both are falsy and print as ["0"], so the sign of
      zero is not kept.
    - A plain object is an association list kept in the order in which
      [Object.keys] enumerates it (array-index keys ascending, then the
      other keys in insertion order).
    - A [Map] whose entries are never enumerated is a [gmap]; a [Set] is a
      duplicate-free list in insertion order, stored in a heap of [Set]
      objects because closures keep references to it.
    - Calls into the host (logger, [postMessage], [chrome.tabs.query],
      [chrome.runtime.connect], subscriber callbacks) are recorded in a
      trace of [Effect]s.
    - A subscriber callback is an arbitrary function: it may call back
      into the manager that is notifying it (see
      [ListenerManager.Behaviour]), and the loop of [notify] runs over the
      live [Set].  Such a loop need not end, so [notify] takes a bound on
      the number of listener calls. *)

From Stdlib Require Import ZArith Ascii String List Bool Lia DecimalString DecimalPos.
From stdpp Require Import base gmap strings list.

Open Scope string_scope.
Open Scope list_scope.

(** ** JavaScript built-ins used by the managers *)

Module Js.

(** The [number] type. [Finite m e] is [m * 2^e], with [m] odd or
    [m = 0 /\ e = 0]. *)
Inductive number : Type :=
| NaN
| Infinity (negative : bool)
| Finite (m : Z) (e : Z).

#[global] Instance number_eq_dec : EqDecision number.
Proof. solve_decision. Defined.

Definition isNaN (n : number) : bool :=
  match n with NaN => true | _ => false end.

(** Strip the factors of two of a positive mantissa. *)
Fixpoint oddPart (p : positive) (e : Z) : positive * Z :=
  match p with
  | xO p' => oddPart p' (e + 1)
  | _ => (p, e)
  end.

Definition normalize (negative : bool) (q : Z) (e : Z) : number :=
  match q with
  | Zpos p => let '(m, e') := oddPart p e in
              Finite (if negative then Zneg m else Zpos m) e'
  | _ => Finite 0 0
  end.

(** The binary64 value nearest to [num / den] (ties to even), for
    [0 <= num] and [0 < den]. *)
Definition roundToDouble (negative : bool) (num den : Z) : number :=
  if (num =? 0)%Z then Finite 0 0 else
  let l := (Z.log2 num - Z.log2 den)%Z in
  let above := if (0 <=? l)%Z then (den * 2 ^ l <=? num)%Z
               else (den <=? num * 2 ^ (- l))%Z in
  let k := if above then l else (l - 1)%Z in
  let p := Z.max (k - 52) (-1074) in
  let '(a, b) := if (0 <=? p)%Z then (num, den * 2 ^ p)%Z
                 else (num * 2 ^ (- p), den)%Z in
  let q := (a / b)%Z in
  let r := (a mod b)%Z in
  let q' := if (b <? 2 * r)%Z || ((b =? 2 * r)%Z && Z.odd q)
            then (q + 1)%Z else q in
  if (1024 <=? Z.log2 q' + p)%Z && (0 <? q')%Z then Infinity negative
  else normalize negative q' p.

(** *** StringToNumber *)

Definition code (c : ascii) : Z := Z.of_N (N_of_ascii c).

(** StrWhiteSpaceChar: TAB, LF, VT, FF, CR, SP, NBSP. *)
Definition isStrWhiteSpaceChar (c : ascii) : bool :=
  let n := code c in
  ((9 <=? n) && (n <=? 13) || (n =? 32) || (n =? 160))%Z.

Definition isDecimalDigit (c : ascii) : bool :=
  ((48 <=? code c) && (code c <=? 57))%Z.

(** The value of a digit in the given radix, if it is one. *)
Definition digitValue (radix : Z) (c : ascii) : option Z :=
  let n := code c in
  let v := (if (48 <=? n) && (n <=? 57) then n - 48
            else if (97 <=? n) && (n <=? 122) then n - 87
            else if (65 <=? n) && (n <=? 90) then n - 55
            else radix)%Z in
  if (v <? radix)%Z then Some v else None.

Fixpoint digitsValue (radix acc : Z) (l : list ascii) : option Z :=
  match l with
  | [] => Some acc
  | c :: l' =>
      match digitValue radix c with
      | Some d => digitsValue radix (acc * radix + d)%Z l'
      | None => None
      end
  end.

(** One or more digits. *)
Definition parseDigits (radix : Z) (l : list ascii) : option Z :=
  match l with
  | [] => None
  | _ => digitsValue radix 0%Z l
  end.

Fixpoint dropWhile {A} (f : A -> bool) (l : list A) : list A :=
  match l with
  | [] => []
  | x :: l' => if f x then dropWhile f l' else l
  end.

Fixpoint span {A} (f : A -> bool) (l : list A) : list A * list A :=
  match l with
  | [] => ([], [])
  | x :: l' => if f x then let '(a, b) := span f l' in (x :: a, b)
               else ([], l)
  end.

Definition trimString (l : list ascii) : list ascii :=
  rev (dropWhile isStrWhiteSpaceChar (rev (dropWhile isStrWhiteSpaceChar l))).

Definition decimalValue (l : list ascii) : Z :=
  fold_left (fun acc c => acc * 10 + (code c - 48))%Z l 0%Z.

(** The mathematical value of a literal: infinite, or [mant * 10^exp10]. *)
Inductive MV : Type :=
| MVInfinity
| MVDecimal (mant : Z) (exp10 : Z).

(** ExponentPart_opt at the end of the literal. *)
Definition exponentPart (l : list ascii) : option Z :=
  match l with
  | [] => Some 0%Z
  | c :: l' =>
      if bool_decide (c = "e"%char \/ c = "E"%char) then
        match l' with
        | sign :: ds =>
            if bool_decide (sign = "+"%char) then parseDigits 10 ds
            else if bool_decide (sign = "-"%char) then Z.opp <$> parseDigits 10 ds
            else parseDigits 10 l'
        | [] => None
        end
      else None
  end.

Definition Infinity_literal : list ascii := list_ascii_of_string "Infinity".

(** StrUnsignedDecimalLiteral. *)
Definition strUnsignedDecimalLiteral (l : list ascii) : option MV :=
  if decide (l = Infinity_literal) then Some MVInfinity else
  let '(ip, r) := span isDecimalDigit l in
  match r with
  | c :: r' =>
      if bool_decide (c = "."%char) then
        let '(fp, r'') := span isDecimalDigit r' in
        match ip, fp with
        | [], [] => None
        | _, _ =>
            (fun e => MVDecimal (decimalValue (ip ++ fp))
                                (e - Z.of_nat (length fp))%Z) <$> exponentPart r''
        end
      else
        match ip with
        | [] => None
        | _ => (fun e => MVDecimal (decimalValue ip) e) <$> exponentPart r
        end
  | [] =>
      match ip with
      | [] => None
      | _ => Some (MVDecimal (decimalValue ip) 0)
      end
  end.

(** StrDecimalLiteral: an optional sign, then the unsigned literal. *)
Definition strDecimalLiteral (l : list ascii) : option (bool * MV) :=
  match l with
  | c :: r =>
      if bool_decide (c = "+"%char) then pair false <$> strUnsignedDecimalLiteral r
      else if bool_decide (c = "-"%char) then pair true <$> strUnsignedDecimalLiteral r
      else pair false <$> strUnsignedDecimalLiteral l
  | [] => None
  end.

(** NonDecimalIntegerLiteral: [0x], [0o] and [0b] literals. *)
Definition radixOfPrefix (c : ascii) : option Z :=
  if bool_decide (c = "x"%char \/ c = "X"%char) then Some 16%Z
  else if bool_decide (c = "o"%char \/ c = "O"%char) then Some 8%Z
  else if bool_decide (c = "b"%char \/ c = "B"%char) then Some 2%Z
  else None.

(** StrNumericLiteral *)
Definition strNumericLiteral (l : list ascii) : option (bool * MV) :=
  match l with
  | c :: x :: ds =>
      if bool_decide (c = "0"%char) then
        match radixOfPrefix x with
        | Some radix => (fun n => (false, MVDecimal n 0)) <$> parseDigits radix ds
        | None => strDecimalLiteral l
        end
      else strDecimalLiteral l
  | _ => strDecimalLiteral l
  end.

Definition numberOfMV (negative : bool) (v : MV) : number :=
  match v with
  | MVInfinity => Infinity negative
  | MVDecimal m e =>
      if (0 <=? e)%Z then roundToDouble negative (m * 10 ^ e) 1
      else roundToDouble negative m (10 ^ (- e))
  end.

(** StringToNumber: the empty or all-blank string is [0]; a string that
    is not a StringNumericLiteral is [NaN]. *)
Definition StringToNumber (s : string) : number :=
  match trimString (list_ascii_of_string s) with
  | [] => Finite 0 0
  | l =>
      match strNumericLiteral l with
      | Some (negative, v) => numberOfMV negative v
      | None => NaN
      end
  end.

(** [Number(value)] for a value that is a string or [undefined]. *)
Definition Number (value : option string) : number :=
  match value with
  | Some s => StringToNumber s
  | None => NaN
  end.

(** [String.prototype.split] with a one-character separator. *)
Fixpoint split (sep : ascii) (s : string) : list string :=
  match s with
  | EmptyString => [""]
  | String c s' =>
      if decide (c = sep) then "" :: split sep s'
      else match split sep s' with
           | h :: t => String c h :: t
           | [] => [String c ""]
           end
  end.

(** [Array.prototype.join] with a one-character separator. *)
Fixpoint join (sep : ascii) (l : list string) : string :=
  match l with
  | [] => ""
  | [s] => s
  | s :: l' => s +:+ String sep (join sep l')
  end.

(** The integer that a number is, when it is one. *)
Definition integerValue (n : number) : option Z :=
  match n with
  | Finite m e => if (0 <=? e)%Z then Some (m * 2 ^ e)%Z else None
  | _ => None
  end.

(** The decimal form of an integer: an optional minus sign and the
    digits without leading zeros. *)
Definition integerToString (z : Z) : string :=
  NilZero.string_of_int (Z.to_int z).

(** The array index named by a numeric property key, if any: an integer
    in [0, 2^32 - 2]. *)
Definition arrayIndex (n : number) : option Z :=
  match n with
  | Finite m e =>
      if (0 <=? e)%Z && (0 <=? m)%Z && (m * 2 ^ e <? 2 ^ 32 - 1)%Z
      then Some (m * 2 ^ e)%Z else None
  | _ => None
  end.

(** The number with the given integer value (exact below [2^53]). *)
Definition ofZ (z : Z) : number :=
  roundToDouble (z <? 0)%Z (Z.abs z) 1.

(** The integer that a number is, when it is one of magnitude below
    [2^53]. *)
Definition safeInteger (x : number) : option Z :=
  match integerValue x with
  | Some z => if (Z.abs z <? 2 ^ 53)%Z then Some z else None
  | None => None
  end.

(** [!x] for a number: [0] and [NaN] are the falsy numbers. *)
Definition isFalsy (x : number) : bool :=
  match x with
  | NaN => true
  | Infinity _ => false
  | Finite m _ => (m =? 0)%Z
  end.

(** *** Number::toString in radix 10

    For a positive finite [x] the conversion takes integers [n], [k] and
    [s] with [10^(k-1) <= s < 10^k] such that [s * 10^(n-k)] reads back as
    [x] and [k] is as small as possible, and writes the [k] digits of [s]
    in positional form when [-5 <= n <= 21] and in exponent form
    otherwise. *)

(** The least [n], from the given one on, with [num / den < 10^n]. *)
Fixpoint decimalExponent (fuel : nat) (n : Z) (num den : Z) : Z :=
  match fuel with
  | O => n
  | S fuel' =>
      if (if (0 <=? n)%Z then (num <? 10 ^ n * den)%Z
          else (num * 10 ^ (- n) <? den)%Z)
      then n else decimalExponent fuel' (n + 1) num den
  end.

(** The double that [s * 10^j] reads as. *)
Definition scaled (s j : Z) : number :=
  if (0 <=? j)%Z then roundToDouble false (s * 10 ^ j) 1
  else roundToDouble false s (10 ^ (- j)).

(** The digits [s] for the least [k], from the given one on, such that a
    [k]-digit [s] with [s * 10^(n-k)] reading back as [x] exists; of two
    such [s] the one nearer to [num / den]. *)
Fixpoint shortestDigits (fuel : nat) (k n : Z) (num den : Z) (x : number) : Z :=
  let '(a, b) := if (0 <=? k - n)%Z then (num * 10 ^ (k - n), den)%Z
                 else (num, den * 10 ^ (n - k))%Z in
  let lo := (a / b)%Z in
  let okLo := bool_decide (scaled lo (n - k) = x) in
  let okHi := bool_decide (scaled (lo + 1) (n - k) = x) && (lo + 1 <? 10 ^ k)%Z in
  match fuel with
  | O => lo
  | S fuel' =>
      if okLo && okHi
      then if (2 * a <? (2 * lo + 1) * b)%Z || ((2 * a =? (2 * lo + 1) * b)%Z && Z.even lo)
           then lo else (lo + 1)%Z
      else if okLo then lo
      else if okHi then (lo + 1)%Z
      else shortestDigits fuel' (k + 1) n num den x
  end.

Fixpoint zeros (n : nat) : string :=
  match n with
  | O => ""
  | S n' => String "0" (zeros n')
  end.

(** The text for the digits of [s] and the exponent [n]. *)
Definition renderDigits (n : Z) (digits : string) : string :=
  let k := Z.of_nat (String.length digits) in
  if ((-5 <=? n) && (n <=? 21))%Z then
    if (k <=? n)%Z then digits +:+ zeros (Z.to_nat (n - k))
    else if (0 <? n)%Z
    then substring 0 (Z.to_nat n) digits +:+ "." +:+
         substring (Z.to_nat n) (Z.to_nat (k - n)) digits
    else "0." +:+ zeros (Z.to_nat (- n)) +:+ digits
  else
    let e := (n - 1)%Z in
    let exponent := (if (e <? 0)%Z then "-" else "+") +:+ integerToString (Z.abs e) in
    if (k =? 1)%Z then digits +:+ "e" +:+ exponent
    else substring 0 1 digits +:+ "." +:+ substring 1 (Z.to_nat (k - 1)) digits
         +:+ "e" +:+ exponent.

(** Number::toString of a positive finite number that is not an integer
    below [2^53].  A double lies between [10^-324] and [10^309] and is
    determined by 17 significant digits, which bounds the two searches.
    When [10^n0] itself reads back as the number (the number is the double
    just below a power of ten), the digits are ["1"] with the exponent
    [n0 + 1]. *)
Definition positiveToString (num den : Z) : string :=
  let x := roundToDouble false num den in
  let n0 := decimalExponent 640 (-324) num den in
  if bool_decide (scaled 1 n0 = x) then renderDigits (n0 + 1) "1"
  else renderDigits n0 (integerToString (shortestDigits 17 1 n0 num den x)).

(** Number::toString: the conversion that a template literal applies to
    a number.  For an integer of magnitude below [2^53] the shortest
    digits that read back as the number are the decimal digits of the
    integer itself (any number with fewer significant digits is at least
    [1] away, more than half the distance between neighbouring doubles
    there), and an integer below [2^53] has at most 16 digits, so the
    positional form is used. *)
Definition numberToString (x : number) : string :=
  match x with
  | NaN => "NaN"
  | Infinity negative => if negative then "-Infinity" else "Infinity"
  | Finite m e =>
      match safeInteger x with
      | Some z => integerToString z
      | None =>
          (if (m <? 0)%Z then "-" else "") +:+
          (if (0 <=? e)%Z then positiveToString (Z.abs m * 2 ^ e) 1
           else positiveToString (Z.abs m) (2 ^ (- e)))
      end
  end.

End Js.

(** ** Types ([src/managers/types.ts], [src/logger/types.ts]) *)

Definition TabId : Type := Js.number.

(** [enum ClientLayer]; [layerValue] gives the string value of a member. *)
Inductive ClientLayer : Type := DevTools | Popup | Options.

#[global] Instance ClientLayer_eq_dec : EqDecision ClientLayer.
Proof. solve_decision. Defined.

Definition layerValue (l : ClientLayer) : string :=
  match l with
  | DevTools => "devtools"
  | Popup => "popup"
  | Options => "options"
  end.

(** [Object.values(ClientLayer)]. *)
Definition ClientLayer_values : list ClientLayer := [DevTools; Popup; Options].

(** The member of the enum with the given string value:
    [Object.values(ClientLayer).includes(s)] holds iff this is [Some]. *)
Definition layerOfValue (s : string) : option ClientLayer :=
  find (fun l => bool_decide (layerValue l = s)) ClientLayer_values.

(** A payload is never inspected; it is kept as an uninterpreted text. *)
Definition unknown : Type := string.

Record BaseMessage : Type := mkMessage { type : string; data : unknown }.

#[global] Instance BaseMessage_eq_dec : EqDecision BaseMessage.
Proof. solve_decision. Defined.

(** A [chrome.runtime.Port]: an object identity and its [name]. *)
Record Port : Type := mkPort { portId : nat; name : string }.

#[global] Instance Port_eq_dec : EqDecision Port.
Proof. solve_decision. Defined.

Record ConnectionOptions : Type := mkOptions { layer : ClientLayer; tabId : TabId }.

#[global] Instance ConnectionOptions_eq_dec : EqDecision ConnectionOptions.
Proof. solve_decision. Defined.

(** The [details] argument of a logger call, one constructor per shape
    that the managers pass. *)
Inductive LogDetails : Type :=
| NoDetails
| UnlistenedDetails (portName : option string) (messageType : string)
| ErrorDetails (error : unknown)
| PortDetails (port : Port)
| ConnectionDetails (options : ConnectionOptions)
| PortNameDetails (portName : string)
| TabIdDetails (tabId : Js.number).

#[global] Instance LogDetails_eq_dec : EqDecision LogDetails.
Proof. solve_decision. Defined.

(** What a manager does to its environment, in program order. *)
Inductive Effect : Type :=
| LoggerInfo (text : string) (details : LogDetails)
| LoggerWarn (text : string) (details : LogDetails)
| LoggerError (text : string) (details : LogDetails)
| ListenerCall (listener : nat) (message : BaseMessage) (senderPort : option Port)
| PostMessage (port : Port) (message : BaseMessage)
| TabsQuery
| RuntimeConnect (port : Port).

#[global] Instance Effect_eq_dec : EqDecision Effect.
Proof. solve_decision. Defined.

(** ** Plain objects as ordered property lists *)

Section JsObject.
Context {K V : Type} `{EqDecision K}.
(** The array index that a key denotes, if it denotes one. *)
Variable index : K -> option Z.

(** [o[k]] *)
Fixpoint objGet (k : K) (o : list (K * V)) : option V :=
  match o with
  | [] => None
  | (k', v) :: o' => if decide (k = k') then Some v else objGet k o'
  end.

(** [o[k] = v] for a property that exists: its place is kept. *)
Fixpoint objReplace (k : K) (v : V) (o : list (K * V)) : list (K * V) :=
  match o with
  | [] => []
  | (k', v') :: o' =>
      if decide (k = k') then (k, v) :: o' else (k', v') :: objReplace k v o'
  end.

(** A new array-index property goes before the first property that is
    not an array index or has a larger index. *)
Fixpoint objInsertIndex (i : Z) (k : K) (v : V) (o : list (K * V)) : list (K * V) :=
  match o with
  | [] => [(k, v)]
  | (k', v') :: o' =>
      match index k' with
      | Some j => if (j <? i)%Z then (k', v') :: objInsertIndex i k v o'
                  else (k, v) :: o
      | None => (k, v) :: o
      end
  end.

(** [o[k] = v] *)
Definition objSet (k : K) (v : V) (o : list (K * V)) : list (K * V) :=
  match objGet k o with
  | Some _ => objReplace k v o
  | None =>
      match index k with
      | Some i => objInsertIndex i k v o
      | None => o ++ [(k, v)]
      end
  end.

(** [delete o[k]] *)
Fixpoint objDelete (k : K) (o : list (K * V)) : list (K * V) :=
  match o with
  | [] => []
  | (k', v) :: o' =>
      if decide (k = k') then objDelete k o' else (k', v) :: objDelete k o'
  end.

(** [Object.keys(o)] *)
Definition objKeys (o : list (K * V)) : list K := map fst o.
End JsObject.

(** ** ConnectionManager ([src/managers/connectionManager.ts]) *)

Module ConnectionManager.

(** [Record<ClientLayer, chrome.runtime.Port | undefined>]: a slot can be
    missing, present with the value [undefined] ([None]), or hold a port. *)
Definition LayerRecord : Type := list (ClientLayer * option Port).

(** [Connections = Record<TabId, Record<ClientLayer, Port | undefined>>] *)
Definition Connections : Type := list (TabId * LayerRecord).

Definition noIndex (l : ClientLayer) : option Z := None.

(** [private connections: Connections = {}] *)
Definition empty : Connections := [].

(** The record that [addConnection] creates for a tab it has not seen. *)
Definition newLayerRecord : LayerRecord :=
  [(DevTools, None); (Popup, None); (Options, None)].

(** [addConnection(options, port)]: the record of the tab is created when
    [connections[tabId]] is missing, then its [layer] slot is assigned. *)
Definition addConnection (options : ConnectionOptions) (port : Port)
    (connections : Connections) : Connections :=
  let tabConnections :=
    match objGet (tabId options) connections with
    | Some r => r
    | None => newLayerRecord
    end in
  objSet Js.arrayIndex (tabId options)
    (objSet noIndex (layer options) (Some port) tabConnections) connections.

(** [removeConnection({ layer, tabId })] *)
Definition removeConnection (options : ConnectionOptions)
    (connections : Connections) : Connections :=
  match objGet (tabId options) connections with
  | Some tabConnections =>
      let tabConnections' := objDelete (layer options) tabConnections in
      if (length (objKeys tabConnections') =? 0)%nat
      then objDelete (tabId options) connections
      else objReplace (tabId options) tabConnections' connections
  | None => connections
  end.

(** [getConnection({ layer, tabId })]: [connections[tabId]?.[layer]] *)
Definition getConnection (options : ConnectionOptions)
    (connections : Connections) : option Port :=
  match objGet (tabId options) connections with
  | Some tabConnections =>
      match objGet (layer options) tabConnections with
      | Some slot => slot
      | None => None
      end
  | None => None
  end.

(** [getAllConnections()]: the registry itself. *)
Definition getAllConnections (connections : Connections) : Connections :=
  connections.

End ConnectionManager.

(** ** Running code that may throw *)

(** How a statement ends: normally with a value, or by throwing. *)
Inductive Completion (A : Type) : Type :=
| Normal (value : A)
| Throw (error : unknown).
Arguments Normal {A} value.
Arguments Throw {A} error.

(** A computation: the effects it performed and how it ended. *)
Definition Run (A : Type) : Type := list Effect * Completion A.

(** A call into the host that returns: the logger and [postMessage] are
    taken never to throw. *)
Definition emit (e : Effect) : Run unit := ([e], Normal tt).

(** [try { body } catch (error) { handler(error) }] *)
Definition tryCatch {A} (body : Run A) (handler : unknown -> Run A) : Run A :=
  match body with
  | (t, Throw e) => let '(t', c) := handler e in (t ++ t', c)
  | (t, Normal a) => (t, Normal a)
  end.

(** ** ListenerManager ([src/managers/listenerManager.ts]) *)

Module ListenerManager.

(** A [BaseMessageListener] is a function object; it is named by its
    identity. *)
Definition BaseMessageListener : Type := nat.

(** [sets] is the heap of [Set] objects allocated by [subscribe], each in
    insertion order; [listeners] is the [Map] from a message type to the
    reference of its [Set]. *)
Record t : Type := mk {
  sets : list (list BaseMessageListener);
  listeners : gmap string nat
}.

(** [private listeners: Listeners = new Map()] *)
Definition new : t := {| sets := []; listeners := ∅ |}.

(** [Set.prototype.add] and [Set.prototype.delete] *)
Definition setAdd (l : BaseMessageListener) (s : list BaseMessageListener) :=
  if decide (l ∈ s) then s else s ++ [l].
Definition setDelete (l : BaseMessageListener) (s : list BaseMessageListener) :=
  filter (fun x => x ≠ l) s.

(** The closure returned by [subscribe]: it has captured the [Set]
    object [listeners], the [type] and the [listener]. *)
Record Unsubscribe : Type := mkUnsubscribe {
  capturedSet : nat;
  capturedType : string;
  capturedListener : BaseMessageListener
}.

(** The members of the [Set] object behind a reference. *)
Definition deref (r : nat) (lm : t) : list BaseMessageListener :=
  default [] (sets lm !! r).

(** [subscribe(type, listener)] *)
Definition subscribe (ty : string) (listener : BaseMessageListener) (lm : t)
    : t * Unsubscribe :=
  let '(r, lm1) :=
    match listeners lm !! ty with
    | Some r => (r, lm)
    | None =>
        let r := length (sets lm) in
        (r, {| sets := sets lm ++ [[]]; listeners := <[ty := r]> (listeners lm) |})
    end in
  ({| sets := alter (setAdd listener) r (sets lm1); listeners := listeners lm1 |},
   {| capturedSet := r; capturedType := ty; capturedListener := listener |}).

(** Calling the closure returned by [subscribe]. *)
Definition unsubscribe (u : Unsubscribe) (lm : t) : t :=
  let sets' := alter (setDelete (capturedListener u)) (capturedSet u) (sets lm) in
  if (length (default [] (sets' !! capturedSet u)) =? 0)%nat
  then {| sets := sets'; listeners := delete (capturedType u) (listeners lm) |}
  else {| sets := sets'; listeners := listeners lm |}.

(** [clear()]: the [Map] is emptied; the [Set] objects are not touched. *)
Definition clear (lm : t) : t :=
  {| sets := sets lm; listeners := ∅ |}.

(** *** Listeners that call back into the manager

    A listener is an arbitrary function.  While it runs it can call
    [subscribe], closures that [subscribe] has returned and [clear] on the
    manager that is notifying it; then it returns (the returned value is
    ignored) or throws.  What else it does is its own business and is not
    part of the trace of the manager. *)
Inductive Action : Type :=
| CallSubscribe (ty : string) (listener : BaseMessageListener)
| CallUnsubscribe (u : Unsubscribe)
| CallClear.

(** [behaviour k listener message senderPort] says what the call
    [listener(message, senderPort)] does when it is call number [k] (from
    0) of a dispatch: the calls it makes on the manager, in order, and how
    it ends. *)
Definition Behaviour : Type :=
  nat -> BaseMessageListener -> BaseMessage -> option Port ->
  list Action * Completion unit.

(** One call made by a listener while [for (const listener of
    typeListeners)] iterates the [Set] object [r].  The iteration is over
    the live [Set]: [pending] lists the members that the iterator has not
    reached yet.  A member deleted before its turn is not reached, a
    member added is reached at the end (also one that was deleted before
    and had been called already), and [clear] empties the [Map] and leaves
    the [Set] that is being iterated as it is. *)
Definition perform (r : nat) (a : Action) (st : t * list BaseMessageListener)
    : t * list BaseMessageListener :=
  let '(lm, pending) := st in
  match a with
  | CallSubscribe ty listener =>
      let '(lm', u) := subscribe ty listener lm in
      (lm', if decide (capturedSet u = r /\ listener ∉ deref r lm)
            then pending ++ [listener] else pending)
  | CallUnsubscribe u =>
      (unsubscribe u lm,
       if decide (capturedSet u = r) then setDelete (capturedListener u) pending
       else pending)
  | CallClear => (clear lm, pending)
  end.

Definition performAll (r : nat) (script : list Action)
    (st : t * list BaseMessageListener) : t * list BaseMessageListener :=
  fold_left (fun st a => perform r a st) script st.

(** [listener(message, senderPort)]: the call as the trace shows it and
    how it ends. *)
Definition callListener (behaviour : Behaviour) (k : nat)
    (listener : BaseMessageListener) (message : BaseMessage)
    (senderPort : option Port) : Run unit :=
  ([ListenerCall listener message senderPort],
   snd (behaviour k listener message senderPort)).

(** How [notify] ends: what it did, the manager afterwards, and whether
    the loop came to its end.  A listener that keeps adding listeners
    makes the loop of the program run for ever; [returned] is [false]
    when the loop was stopped after the given number of listener calls. *)
Record Outcome : Type := mkOutcome {
  effects : list Effect;
  final : t;
  returned : bool
}.

(** The loop [for (const listener of typeListeners) { try {...} catch
    {...} }] from call number [k] on, with at most [fuel] listener
    calls. *)
Fixpoint dispatch (fuel : nat) (behaviour : Behaviour) (message : BaseMessage)
    (senderPort : option Port) (r k : nat) (pending : list BaseMessageListener)
    (lm : t) {struct fuel} : Outcome :=
  match pending, fuel with
  | [], _ => {| effects := []; final := lm; returned := true |}
  | _ :: _, O => {| effects := []; final := lm; returned := false |}
  | listener :: rest, S fuel' =>
      let called :=
        tryCatch (callListener behaviour k listener message senderPort)
          (fun error => emit (LoggerError "Listener error:" (ErrorDetails error))) in
      let '(lm', rest') :=
        performAll r (fst (behaviour k listener message senderPort)) (lm, rest) in
      let next := dispatch fuel' behaviour message senderPort r (S k) rest' lm' in
      {| effects := fst called ++ effects next;
         final := final next; returned := returned next |}
  end.

(** [notify(message, senderPort?)] with at most [fuel] listener calls. *)
Definition notify (fuel : nat) (behaviour : Behaviour) (message : BaseMessage)
    (senderPort : option Port) (lm : t) : Outcome :=
  match listeners lm !! type message with
  | None =>
      {| effects := [LoggerWarn "Not listened port event"
                       (UnlistenedDetails (name <$> senderPort) (type message))];
         final := lm; returned := true |}
  | Some r => dispatch fuel behaviour message senderPort r 0 (deref r lm) lm
  end.

(** The registry as an observer sees it: the subscribers of each type. *)
Definition registry (lm : t) : gmap string (list BaseMessageListener) :=
  (fun r => deref r lm) <$> listeners lm.

(** The subscribers of a type, in registration order. *)
Definition subscribers (ty : string) (lm : t) : list BaseMessageListener :=
  default [] (registry lm !! ty).

End ListenerManager.

(** ** BaseClientManager ([src/managers/baseClientManager.ts]) *)

Module BaseClientManager.

(** The part of a [chrome.tabs.Tab] that the manager reads: [id?: number]. *)
Record Tab : Type := mkTab { id : option Js.number }.

Record t : Type := mk {
  layer : ClientLayer;
  port : option Port;
  listenerManager : ListenerManager.t;
  pendingMessages : list BaseMessage
}.

(** [constructor(layer, logger)] *)
Definition new (ly : ClientLayer) : t :=
  {| layer := ly; port := None;
     listenerManager := ListenerManager.new; pendingMessages := [] |}.

(** [subscribe(type, listener)] *)
Definition subscribe (ty : string) (listener : ListenerManager.BaseMessageListener)
    (c : t) : t * ListenerManager.Unsubscribe :=
  let '(lm, u) := ListenerManager.subscribe ty listener (listenerManager c) in
  ({| layer := layer c; port := port c; listenerManager := lm;
      pendingMessages := pendingMessages c |}, u).

(** Calling a closure returned by [subscribe]. *)
Definition unsubscribe (u : ListenerManager.Unsubscribe) (c : t) : t :=
  {| layer := layer c; port := port c;
     listenerManager := ListenerManager.unsubscribe u (listenerManager c);
     pendingMessages := pendingMessages c |}.

(** [initPort()], up to the call of [chrome.tabs.query]; the callback
    passed to it is [tabsQueryCallback]. *)
Definition initPort (c : t) : list Effect :=
  match port c with
  | Some _ => []
  | None => [TabsQuery]
  end.

(** [sendMessage(message)] *)
Definition sendMessage (message : BaseMessage) (c : t) : t * list Effect :=
  match port c with
  | None =>
      let c' := {| layer := layer c; port := port c;
                   listenerManager := listenerManager c;
                   pendingMessages := pendingMessages c ++ [message] |} in
      (c', initPort c')
  | Some p => (c, [PostMessage p message])
  end.

(** [flushPendingMessages()] *)
Definition flushPendingMessages (c : t) : t * list Effect :=
  match port c with
  | None => (c, [])
  | Some p =>
      ({| layer := layer c; port := port c;
          listenerManager := listenerManager c; pendingMessages := [] |},
       map (PostMessage p) (pendingMessages c))
  end.

(** [tabs[0]?.id], and [None] when [!tabId] holds: no first tab, no
    [id], or an [id] that is [0] or [NaN]. *)
Definition usableTabId (tabs : list Tab) : option Js.number :=
  match tabs with
  | [] => None
  | tab :: _ =>
      match id tab with
      | Some x => if Js.isFalsy x then None else Some x
      | None => None
      end
  end.

(** The name given to [chrome.runtime.connect]: the template literal
    [`${this.layer}:${tabId}`]. *)
Definition channelName (ly : ClientLayer) (tabId : Js.number) : string :=
  layerValue ly +:+ ":" +:+ Js.numberToString tabId.

(** The callback that [initPort] passes to [chrome.tabs.query].
    [fresh] is the identity of the port that [chrome.runtime.connect]
    returns when it is called. *)
Definition tabsQueryCallback (tabs : list Tab) (fresh : nat) (c : t)
    : t * list Effect :=
  match usableTabId tabs with
  | None =>
      (c, [LoggerError ("No tabs found for " +:+ layerValue (layer c) +:+ " manager")
             NoDetails])
  | Some tabId =>
      let p := {| portId := fresh; name := channelName (layer c) tabId |} in
      let c1 := {| layer := layer c; port := Some p;
                   listenerManager := listenerManager c;
                   pendingMessages := pendingMessages c |} in
      let '(c2, posts) := flushPendingMessages c1 in
      (c2, [RuntimeConnect p;
            LoggerInfo ("Manager for " +:+ layerValue (layer c) +:+ " initialized")
              (TabIdDetails tabId)] ++ posts)
  end.

(** [handleIncomingMessage(message)] *)
Definition handleIncomingMessage (fuel : nat) (behaviour : ListenerManager.Behaviour)
    (message : BaseMessage) (c : t) : t * list Effect :=
  match port c with
  | None => (c, [])
  | Some p =>
      let notified :=
        ListenerManager.notify fuel behaviour message (Some p) (listenerManager c) in
      ({| layer := layer c; port := port c;
          listenerManager := ListenerManager.final notified;
          pendingMessages := pendingMessages c |},
       ListenerManager.effects notified)
  end.

(** [handlePortDisconnect({ name })] *)
Definition handlePortDisconnect (disconnected : Port) (c : t) : t * list Effect :=
  ({| layer := layer c; port := None;
      listenerManager := ListenerManager.clear (listenerManager c);
      pendingMessages := pendingMessages c |},
   [LoggerInfo "Port disconnected" (PortNameDetails (name disconnected))]).

(** *** The manager in its host

    [queries] counts the calls of [chrome.tabs.query] whose callback has
    not run yet; [channels] lists the ports that [chrome.runtime.connect]
    has returned and that have not disconnected (each carries the two
    listeners added by the callback); [nextPort] is the identity of the
    next port. *)
Record World : Type := mkWorld {
  manager : t;
  queries : nat;
  channels : list Port;
  nextPort : nat
}.

Definition start (ly : ClientLayer) : World :=
  {| manager := new ly; queries := 0; channels := []; nextPort := 0 |}.

Inductive Event : Type :=
| SendMessage (message : BaseMessage)
| Subscribe (ty : string) (listener : ListenerManager.BaseMessageListener)
| Unsubscribe (u : ListenerManager.Unsubscribe)
| TabsResult (tabs : list Tab)
| IncomingMessage (p : Port) (message : BaseMessage)
| Disconnect (p : Port).

Definition isTabsQuery (e : Effect) : bool :=
  match e with TabsQuery => true | _ => false end.

Definition connectedPorts (t : list Effect) : list Port :=
  omap (fun e => match e with RuntimeConnect p => Some p | _ => None end) t.

(** One event.  The host only runs a callback for an outstanding query
    and only delivers port events of a live channel; other events leave
    the world as it is.  A dispatch to listeners makes at most [fuel]
    listener calls: one that needs more (the program itself would not
    return from it) is cut off there. *)
Definition step (fuel : nat) (behaviour : ListenerManager.Behaviour) (ev : Event)
    (w : World) : World * list Effect :=
  match ev with
  | SendMessage message =>
      let '(c, t) := sendMessage message (manager w) in
      ({| manager := c; queries := queries w + length (filter isTabsQuery t);
          channels := channels w; nextPort := nextPort w |}, t)
  | Subscribe ty listener =>
      ({| manager := fst (subscribe ty listener (manager w)); queries := queries w;
          channels := channels w; nextPort := nextPort w |}, [])
  | Unsubscribe u =>
      ({| manager := unsubscribe u (manager w); queries := queries w;
          channels := channels w; nextPort := nextPort w |}, [])
  | TabsResult tabs =>
      match queries w with
      | O => (w, [])
      | S n =>
          let '(c, t) := tabsQueryCallback tabs (nextPort w) (manager w) in
          ({| manager := c; queries := n;
              channels := channels w ++ connectedPorts t;
              nextPort := nextPort w + length (connectedPorts t) |}, t)
      end
  | IncomingMessage p message =>
      if decide (p ∈ channels w)
      then let '(c, t) := handleIncomingMessage fuel behaviour message (manager w) in
           ({| manager := c; queries := queries w;
               channels := channels w; nextPort := nextPort w |}, t)
      else (w, [])
  | Disconnect p =>
      if decide (p ∈ channels w)
      then let '(c, t) := handlePortDisconnect p (manager w) in
           ({| manager := c; queries := queries w;
               channels := filter (fun q => q ≠ p) (channels w);
               nextPort := nextPort w |}, t)
      else (w, [])
  end.

(** A sequence of events; [behaviour i] is the behaviour of the
    listeners during event number [i]. *)
Fixpoint run (fuel : nat) (behaviour : nat -> ListenerManager.Behaviour)
    (evs : list Event) (w : World) : World * list Effect :=
  match evs with
  | [] => (w, [])
  | ev :: evs' =>
      let '(w1, t1) := step fuel (behaviour 0) ev w in
      let '(w2, t2) := run fuel (fun i => behaviour (S i)) evs' w1 in
      (w2, t1 ++ t2)
  end.

End BaseClientManager.

(** ** BaseBackgroundManager ([src/managers/baseBackgroundManager.ts]) *)

Module BaseBackgroundManager.

(** The manager with the listeners it has added to ports: [onMessage]
    lists the ports whose messages are passed to [notify]; [onDisconnect]
    pairs a port with the [connectionDetails] captured by the closure
    added to its [onDisconnect] event. *)
Record t : Type := mk {
  connectionManager : ConnectionManager.Connections;
  listenerManager : ListenerManager.t;
  onMessage : list Port;
  onDisconnect : list (Port * ConnectionOptions)
}.

(** [constructor(logger)] *)
Definition new : t :=
  {| connectionManager := ConnectionManager.empty;
     listenerManager := ListenerManager.new;
     onMessage := []; onDisconnect := [] |}.

(** [subscribe(type, listener)] *)
Definition subscribe (ty : string) (listener : ListenerManager.BaseMessageListener)
    (h : t) : t * ListenerManager.Unsubscribe :=
  let '(lm, u) := ListenerManager.subscribe ty listener (listenerManager h) in
  ({| connectionManager := connectionManager h; listenerManager := lm;
      onMessage := onMessage h; onDisconnect := onDisconnect h |}, u).

(** The posts on the chosen layers of one tab record. *)
Definition sendToLayers (layersRecord : ConnectionManager.LayerRecord)
    (targetLayers : list ClientLayer) (message : BaseMessage) : list Effect :=
  flat_map (fun ly =>
    match objGet ly layersRecord with
    | Some (Some port) => [PostMessage port message]
    | _ => []
    end) targetLayers.

(** [sendMessage({ tabId, layer }, message)].  The keys of the registry
    are the string forms of numbers, and [Number] reads each of them back
    as the number that names the same key, so [tabIds] is the list of
    keys itself. *)
Definition sendMessage (tabId : option TabId) (layer : option ClientLayer)
    (message : BaseMessage) (h : t) : list Effect :=
  let allConnections := ConnectionManager.getAllConnections (connectionManager h) in
  let tabIds :=
    match tabId with
    | Some tid => [tid]
    | None => objKeys allConnections
    end in
  flat_map (fun tid =>
    match objGet tid allConnections with
    | None => []
    | Some layersRecord =>
        let targetLayers :=
          match layer with
          | Some ly => [ly]
          | None => objKeys layersRecord
          end in
        sendToLayers layersRecord targetLayers message
    end) tabIds.

(** [extractPortDetails(port)] *)
Definition extractPortDetails (port : Port) : option ConnectionOptions :=
  let parts := Js.split ":" (name port) in
  let layer := hd "" parts in
  let tabId := nth_error parts 1 in
  let numericTabId := Js.Number tabId in
  match layerOfValue layer with
  | Some ly =>
      if Js.isNaN numericTabId then None
      else Some {| layer := ly; tabId := numericTabId |}
  | None => None
  end.

(** [handleConnection(port)] *)
Definition handleConnection (port : Port) (h : t) : t * list Effect :=
  match extractPortDetails port with
  | None =>
      (h, [LoggerError "Invalid port data or format, expected {layer}:{tabId}"
             (PortDetails port)])
  | Some connectionDetails =>
      ({| connectionManager :=
            ConnectionManager.addConnection connectionDetails port (connectionManager h);
          listenerManager := listenerManager h;
          onMessage := onMessage h ++ [port];
          onDisconnect := onDisconnect h ++ [(port, connectionDetails)] |},
       [LoggerInfo "Port connected" (ConnectionDetails connectionDetails)])
  end.

(** [handlePortDisconnect(connectionOptions)] *)
Definition handlePortDisconnect (connectionOptions : ConnectionOptions) (h : t)
    : t * list Effect :=
  ({| connectionManager :=
        ConnectionManager.removeConnection connectionOptions (connectionManager h);
      listenerManager := listenerManager h;
      onMessage := onMessage h; onDisconnect := onDisconnect h |},
   [LoggerInfo "Port disconnected" (ConnectionDetails connectionOptions)]).

(** *** Events delivered by the host *)

(** [chrome.runtime.onConnect] fires with [port]. *)
Definition connect (port : Port) (h : t) : t * list Effect :=
  handleConnection port h.

(** One listener added to the [onMessage] event of a port:
    [(msg) => { this.listenerManager.notify(msg, port); }]. *)
Definition onMessageListener (fuel : nat) (behaviour : ListenerManager.Behaviour)
    (port : Port) (msg : BaseMessage) (h : t) : t * list Effect :=
  let notified :=
    ListenerManager.notify fuel behaviour msg (Some port) (listenerManager h) in
  ({| connectionManager := connectionManager h;
      listenerManager := ListenerManager.final notified;
      onMessage := onMessage h; onDisconnect := onDisconnect h |},
   ListenerManager.effects notified).

(** A message arrives on [port]: every listener added to its
    [onMessage] event runs, in the order of addition ([attached] lists
    the ports of the listeners). *)
Fixpoint messageAll (fuel : nat) (behaviour : ListenerManager.Behaviour)
    (port : Port) (msg : BaseMessage) (attached : list Port) (h : t)
    : t * list Effect :=
  match attached with
  | [] => (h, [])
  | p :: attached' =>
      if decide (p = port)
      then let '(h1, t1) := onMessageListener fuel behaviour port msg h in
           let '(h2, t2) := messageAll fuel behaviour port msg attached' h1 in
           (h2, t1 ++ t2)
      else messageAll fuel behaviour port msg attached' h
  end.

Definition message (fuel : nat) (behaviour : ListenerManager.Behaviour) (port : Port)
    (msg : BaseMessage) (h : t) : t * list Effect :=
  messageAll fuel behaviour port msg (onMessage h) h.

(** [port] disconnects: every listener added to its [onDisconnect]
    event runs, in the order of addition. *)
Fixpoint disconnectAll (port : Port) (handlers : list (Port * ConnectionOptions))
    (h : t) : t * list Effect :=
  match handlers with
  | [] => (h, [])
  | (p, details) :: handlers' =>
      if decide (p = port)
      then let '(h1, t1) := handlePortDisconnect details h in
           let '(h2, t2) := disconnectAll port handlers' h1 in
           (h2, t1 ++ t2)
      else disconnectAll port handlers' h
  end.

Definition disconnect (port : Port) (h : t) : t * list Effect :=
  disconnectAll port (onDisconnect h) h.

End BaseBackgroundManager.

(** ** Specification-side definitions *)

(** The handle in a slot of a tab record: [layersRecord[ly]]. *)
Definition slot (r : ConnectionManager.LayerRecord) (ly : ClientLayer) : option Port :=
  match objGet ly r with Some s => s | None => None end.

(** A plain object has each key once. *)
Definition wfObject {K V : Type} (o : list (K * V)) : Prop := NoDup (objKeys o).

(** The registry is an object whose values are objects. *)
Definition wfConnections (cs : ConnectionManager.Connections) : Prop :=
  wfObject cs /\ Forall (fun entry => wfObject (snd entry)) cs.

(** Does the selector [{ tabId?, layer? }] of [sendMessage] address the
    pair [(tid, ly)]? *)
Definition selects (tabId : option TabId) (layer : option ClientLayer)
    (tid : TabId) (ly : ClientLayer) : bool :=
  bool_decide (tabId = None \/ tabId = Some tid) &&
  bool_decide (layer = None \/ layer = Some ly).

(** The handles that a selector addresses: for every target of the
    registry and every role, the handle that [getConnection] finds under
    that pair, when the selector addresses the pair. *)
Definition addressed (tabId : option TabId) (layer : option ClientLayer)
    (cs : ConnectionManager.Connections) : list Port :=
  omap (fun pair =>
          if selects tabId layer (fst pair) (snd pair)
          then ConnectionManager.getConnection
                 {| layer := snd pair; tabId := fst pair |} cs
          else None)
       (list_prod (objKeys cs) ClientLayer_values).

(** The decimal string form of a non-negative integer: digits only, at
    least one, and no leading zero except for ["0"] itself. *)
Definition isDecimalForm (s : string) : bool :=
  match list_ascii_of_string s with
  | [] => false
  | [c] => Js.isDecimalDigit c
  | c :: rest =>
      Js.isDecimalDigit c && negb (bool_decide (c = "0"%char)) &&
      forallb Js.isDecimalDigit rest
  end.

(** The channel name of the wire contract as the specification words it:
    exactly two colon-separated segments, a recognized role token and the
    decimal string form of a non-negative integer. *)
Definition isWireName (s : string) : bool :=
  match Js.split ":" s with
  | [role; target] =>
      bool_decide (role ∈ map layerValue ClientLayer_values) && isDecimalForm target
  | _ => false
  end.

(** The names that the hub accepts: the first segment is a recognized role
    token, a second segment exists and [Number] does not read it as [NaN];
    further segments are not looked at. *)
Definition isAcceptedName (s : string) : bool :=
  match Js.split ":" s with
  | role :: target :: _ =>
      bool_decide (role ∈ map layerValue ClientLayer_values) &&
      negb (Js.isNaN (Js.StringToNumber target))
  | _ => false
  end.

(** Does the name have a second colon-separated segment that is empty
    or blank (white space only)?  [Number] reads such a segment as 0. *)
Definition hasBlankTarget (s : string) : bool :=
  match Js.split ":" s with
  | _ :: target :: _ =>
      bool_decide (Js.trimString (list_ascii_of_string target) = [])
  | _ => false
  end.

(** The states of a [ListenerManager] that its operations can produce,
    together with the closures that [subscribe] has returned so far. *)
Inductive Reachable : ListenerManager.t -> list ListenerManager.Unsubscribe -> Prop :=
| Reachable_new : Reachable ListenerManager.new []
| Reachable_subscribe lm us ty listener :
    Reachable lm us ->
    Reachable (fst (ListenerManager.subscribe ty listener lm))
              (snd (ListenerManager.subscribe ty listener lm) :: us)
| Reachable_unsubscribe lm us u :
    Reachable lm us -> u ∈ us ->
    Reachable (ListenerManager.unsubscribe u lm) us
| Reachable_clear lm us :
    Reachable lm us -> Reachable (ListenerManager.clear lm) us.

(** What holds of every reachable [ListenerManager]: a type is mapped to
    an allocated, non-empty [Set]; every closure refers to an allocated
    [Set]; the [Set] of a closure can only be the one registered under
    the type of that closure; two types never share a [Set]. *)
Definition listenersInvariant (lm : ListenerManager.t)
    (us : list ListenerManager.Unsubscribe) : Prop :=
  (forall ty r, ListenerManager.listeners lm !! ty = Some r ->
     exists s, ListenerManager.sets lm !! r = Some s /\ s <> []) /\
  (forall u, u ∈ us ->
     ListenerManager.capturedSet u < length (ListenerManager.sets lm)) /\
  (forall u ty, u ∈ us ->
     ListenerManager.listeners lm !! ty = Some (ListenerManager.capturedSet u) ->
     ty = ListenerManager.capturedType u) /\
  (forall ty1 ty2 r,
     ListenerManager.listeners lm !! ty1 = Some r ->
     ListenerManager.listeners lm !! ty2 = Some r -> ty1 = ty2).

(** The calls of subscribers in a trace. *)
Definition listenerCalls (t : list Effect) : list Effect :=
  List.filter (fun e => match e with ListenerCall _ _ _ => true | _ => false end) t.



(** The posts in a trace. *)
Definition posts (t : list Effect) : list (Port * BaseMessage) :=
  omap (fun e => match e with PostMessage p m => Some (p, m) | _ => None end) t.

(** What call number [k] contributes to the trace of [notify]: the call
    of the listener and, when the call throws, the logged error. *)
Definition notified (behaviour : ListenerManager.Behaviour) (message : BaseMessage)
    (senderPort : option Port) (k : nat)
    (listener : ListenerManager.BaseMessageListener) : list Effect :=
  ListenerCall listener message senderPort ::
  match snd (behaviour k listener message senderPort) with
  | Throw error => [LoggerError "Listener error:" (ErrorDetails error)]
  | Normal _ => []
  end.

(** No listener of the list calls back into the manager (subscribes,
    calls a closure returned by [subscribe], or clears) when it is called
    with [(message, senderPort)]. *)
Definition quiet (behaviour : ListenerManager.Behaviour) (message : BaseMessage)
    (senderPort : option Port) (ls : list ListenerManager.BaseMessageListener)
    : Prop :=
  forall k listener, listener ∈ ls -> fst (behaviour k listener message senderPort) = [].

(** Does a call made by a listener subscribe [listener]?  Does it
    subscribe or unsubscribe [listener]? *)
Definition subscribes (listener : ListenerManager.BaseMessageListener)
    (a : ListenerManager.Action) : Prop :=
  match a with
  | ListenerManager.CallSubscribe _ l => l = listener
  | _ => False
  end.

Definition touches (listener : ListenerManager.BaseMessageListener)
    (a : ListenerManager.Action) : Prop :=
  match a with
  | ListenerManager.CallSubscribe _ l => l = listener
  | ListenerManager.CallUnsubscribe u => ListenerManager.capturedListener u = listener
  | ListenerManager.CallClear => False
  end.

(** While the listeners are notified of [(message, senderPort)], none of
    them subscribes [listener]; none of them subscribes or unsubscribes
    [listener]. *)
Definition neverSubscribed (behaviour : ListenerManager.Behaviour)
    (message : BaseMessage) (senderPort : option Port)
    (listener : ListenerManager.BaseMessageListener) : Prop :=
  forall k l a, a ∈ fst (behaviour k l message senderPort) -> ~ subscribes listener a.

Definition untouched (behaviour : ListenerManager.Behaviour)
    (message : BaseMessage) (senderPort : option Port)
    (listener : ListenerManager.BaseMessageListener) : Prop :=
  forall k l a, a ∈ fst (behaviour k l message senderPort) -> ~ touches listener a.

(** A behaviour under which every call returns without calling back. *)
Definition returns : ListenerManager.Behaviour :=
  fun _ _ _ _ => ([], Normal tt).

(** Client events that can happen while no channel handle exists and that
    leave it absent: calls of the public operations and a target-id
    resolution without a usable target id. *)
Definition beforeChannel (ev : BaseClientManager.Event) : bool :=
  match ev with
  | BaseClientManager.SendMessage _ => true
  | BaseClientManager.Subscribe _ _ => true
  | BaseClientManager.Unsubscribe _ => true
  | BaseClientManager.TabsResult tabs =>
      match BaseClientManager.usableTabId tabs with None => true | Some _ => false end
  | _ => false
  end.

(** The messages passed to [sendMessage] by a list of events. *)
Definition sent (evs : list BaseClientManager.Event) : list BaseMessage :=
  omap (fun ev => match ev with
                  | BaseClientManager.SendMessage m => Some m
                  | _ => None
                  end) evs.

(** The registries that the operations of a [ConnectionManager] can
    produce. *)
Inductive ReachableConnections : ConnectionManager.Connections -> Prop :=
| ReachableConnections_empty : ReachableConnections ConnectionManager.empty
| ReachableConnections_add options port cs :
    ReachableConnections cs ->
    ReachableConnections (ConnectionManager.addConnection options port cs)
| ReachableConnections_remove options cs :
    ReachableConnections cs ->
    ReachableConnections (ConnectionManager.removeConnection options cs).

(** How often a trace calls [listener] with [(message, senderPort)]. *)
Definition deliveries (listener : ListenerManager.BaseMessageListener)
    (message : BaseMessage) (senderPort : option Port) (t : list Effect) : nat :=
  length (filter (fun e => e = ListenerCall listener message senderPort) t).

(** Is the [Set] that a closure has captured the one that is registered
    under the type of the closure? *)
Definition current (u : ListenerManager.Unsubscribe) (lm : ListenerManager.t) : Prop :=
  ListenerManager.listeners lm !! ListenerManager.capturedType u
  = Some (ListenerManager.capturedSet u).

(** What holds of a client in its host after every event: while it holds
    a channel handle its queue is empty, and the handle it holds is a
    channel that has not disconnected. *)
Definition clientInvariant (w : BaseClientManager.World) : Prop :=
  (BaseClientManager.port (BaseClientManager.manager w) = None \/
   BaseClientManager.pendingMessages (BaseClientManager.manager w) = []) /\
  (forall p, BaseClientManager.port (BaseClientManager.manager w) = Some p ->
             p ∈ BaseClientManager.channels w).

(** The hubs that connections, disconnections, subscriptions and
    incoming messages (whose listeners may call back) can produce. *)
Inductive HubReachable : BaseBackgroundManager.t -> Prop :=
| HubReachable_new : HubReachable BaseBackgroundManager.new
| HubReachable_subscribe ty listener h :
    HubReachable h ->
    HubReachable (fst (BaseBackgroundManager.subscribe ty listener h))
| HubReachable_unsubscribe u h :
    HubReachable h ->
    HubReachable
      {| BaseBackgroundManager.connectionManager :=
           BaseBackgroundManager.connectionManager h;
         BaseBackgroundManager.listenerManager :=
           ListenerManager.unsubscribe u (BaseBackgroundManager.listenerManager h);
         BaseBackgroundManager.onMessage := BaseBackgroundManager.onMessage h;
         BaseBackgroundManager.onDisconnect := BaseBackgroundManager.onDisconnect h |}
| HubReachable_connect port h :
    HubReachable h -> HubReachable (fst (BaseBackgroundManager.connect port h))
| HubReachable_disconnect port h :
    HubReachable h -> HubReachable (fst (BaseBackgroundManager.disconnect port h))
| HubReachable_message fuel behaviour port msg h :
    HubReachable h ->
    HubReachable (fst (BaseBackgroundManager.message fuel behaviour port msg h)).

(** What holds of every reachable hub: the registry is a well-formed
    object, and a port found under a (target, role) pair has a name that
    parses to that pair and carries the message listener and the
    disconnect listener for that pair. *)
Definition hubInvariant (h : BaseBackgroundManager.t) : Prop :=
  wfConnections (BaseBackgroundManager.connectionManager h) /\
  forall options port,
    ConnectionManager.getConnection options (BaseBackgroundManager.connectionManager h)
    = Some port ->
    BaseBackgroundManager.extractPortDetails port = Some options /\
    port ∈ BaseBackgroundManager.onMessage h /\
    (port, options) ∈ BaseBackgroundManager.onDisconnect h.

(** * Properties *)

(** ** JavaScript built-ins *)

Example Number_42 : Js.Number (Some "42") = Js.Finite 21 1.
Proof. vm_compute. reflexivity. Qed.

Example Number_empty : Js.Number (Some "") = Js.Finite 0 0.
Proof. reflexivity. Qed.

Example Number_signed_fraction : Js.Number (Some " -1.5e0 ") = Js.Finite (-3) (-1).
Proof. vm_compute. reflexivity. Qed.

Example Number_hex : Js.Number (Some "0x1A") = Js.Finite 13 1.
Proof. vm_compute. reflexivity. Qed.

Example Number_abc : Js.Number (Some "abc") = Js.NaN.
Proof. vm_compute. reflexivity. Qed.

Example Number_undefined : Js.Number None = Js.NaN.
Proof. reflexivity. Qed.

Example Number_ties_to_even : Js.Number (Some "9007199254740993") = Js.Finite 1 53.
Proof. vm_compute. reflexivity. Qed.

Example Number_tenth : Js.Number (Some "0.1") = Js.Finite 3602879701896397 (-55).
Proof. vm_compute. reflexivity. Qed.

Example Number_overflow : Js.Number (Some "1e309") = Js.Infinity false.
Proof. vm_compute. reflexivity. Qed.

Example split_three : Js.split ":" "popup:42:x" = ["popup"; "42"; "x"].
Proof. reflexivity. Qed.

Example split_empty : Js.split ":" "" = [""].
Proof. reflexivity. Qed.

Example numberToString_integer : Js.numberToString (Js.ofZ 42) = "42".
Proof. vm_compute. reflexivity. Qed.

Example numberToString_exponent :
  Js.numberToString (Js.StringToNumber "1000000000000000000000") = "1e+21".
Proof. vm_compute. reflexivity. Qed.

Example numberToString_shortest :
  Js.numberToString (Js.StringToNumber "1152921504606846976") = "1152921504606847000".
Proof. vm_compute. reflexivity. Qed.

Example numberToString_fraction :
  Js.numberToString (Js.StringToNumber "0.1") = "0.1" /\
  Js.numberToString (Js.StringToNumber "-4.35") = "-4.35" /\
  Js.numberToString (Js.StringToNumber "1e-7") = "1e-7" /\
  Js.numberToString (Js.StringToNumber "0.000001") = "0.000001".
Proof. vm_compute. repeat split. Qed.

(** The digit search gives the decimal form on integers below [2^53]. *)
Example positiveToString_integers :
  Js.positiveToString 7 1 = Js.integerToString 7 /\
  Js.positiveToString 1000000 1 = Js.integerToString 1000000 /\
  Js.positiveToString 4294967295 1 = Js.integerToString 4294967295 /\
  Js.positiveToString 9007199254740991 1 = Js.integerToString 9007199254740991.
Proof. vm_compute. repeat split. Qed.

Example integerToString_negative : Js.integerToString (-42) = "-42".
Proof. reflexivity. Qed.

(** ** Ordered objects *)

Section JsObjectFacts.
Context {K V : Type} `{EqDecision K}.
Implicit Types (k : K) (v : V) (o : list (K * V)).

Lemma objGet_None k o : objGet k o = None <-> k ∉ objKeys o.
Proof.
  induction o as [|[k' v'] o IH]; simpl.
  - split; [intros _; apply not_elem_of_nil | done].
  - destruct (decide (k = k')) as [->|Hne].
    + split; [done | intros Hn; exfalso; apply Hn; left].
    + rewrite IH. rewrite not_elem_of_cons. tauto.
Qed.

Lemma objGet_Some_elem k v o : objGet k o = Some v -> k ∈ objKeys o.
Proof.
  intros Hg. destruct (decide (k ∈ objKeys o)) as [|Hn]; [done|].
  apply objGet_None in Hn. congruence.
Qed.

Lemma objGet_Some_In k v o : objGet k o = Some v -> (k, v) ∈ o.
Proof.
  induction o as [|[k' v'] o IH]; simpl; [done|].
  destruct (decide (k = k')) as [->|Hne].
  - intros [= ->]. left.
  - intros Hg. right. auto.
Qed.

Lemma objGet_objReplace_eq k v o :
  objGet k (objReplace k v o) = (fun _ => v) <$> objGet k o.
Proof.
  induction o as [|[k' v'] o IH]; simpl; [done|].
  destruct (decide (k = k')) as [->|Hne]; simpl.
  - by rewrite decide_True.
  - by rewrite decide_False.
Qed.

Lemma objGet_objReplace_ne k k' v o :
  k <> k' -> objGet k' (objReplace k v o) = objGet k' o.
Proof.
  intros Hne. induction o as [|[k0 v0] o IH]; simpl; [done|].
  destruct (decide (k = k0)) as [->|Hne0]; simpl.
  - rewrite !decide_False; [done | congruence | congruence].
  - destruct (decide (k' = k0)); [done | apply IH].
Qed.

Lemma objKeys_objReplace k v o : objKeys (objReplace k v o) = objKeys o.
Proof.
  unfold objKeys. induction o as [|[k' v'] o IH]; simpl; [done|].
  destruct (decide (k = k')) as [->|Hne]; simpl; [done|].
  by rewrite IH.
Qed.

Lemma objGet_app k o o' :
  objGet k (o ++ o') = match objGet k o with Some v => Some v | None => objGet k o' end.
Proof.
  induction o as [|[k0 v0] o IH]; simpl; [done|].
  destruct (decide (k = k0)); [done | apply IH].
Qed.

Lemma objGet_objDelete_eq k o : objGet k (objDelete k o) = None.
Proof.
  induction o as [|[k' v'] o IH]; simpl; [done|].
  destruct (decide (k = k')) as [->|Hne]; simpl; [done|].
  by rewrite decide_False.
Qed.

Lemma objGet_objDelete_ne k k' o :
  k <> k' -> objGet k' (objDelete k o) = objGet k' o.
Proof.
  intros Hne. induction o as [|[k0 v0] o IH]; simpl; [done|].
  destruct (decide (k = k0)) as [->|Hne0]; simpl.
  - rewrite decide_False; [done | congruence].
  - destruct (decide (k' = k0)); [done | apply IH].
Qed.

Lemma objDelete_absent k o : objGet k o = None -> objDelete k o = o.
Proof.
  induction o as [|[k' v'] o IH]; simpl; [done|].
  destruct (decide (k = k')) as [->|Hne]; [done|].
  intros Hg. by rewrite IH.
Qed.

Lemma elem_objKeys_objDelete k k' o :
  k' ∈ objKeys (objDelete k o) <-> k' <> k /\ k' ∈ objKeys o.
Proof.
  induction o as [|[k0 v0] o IH]; simpl.
  - split; [intros Hin; by apply elem_of_nil in Hin | intros [_ Hin]; done].
  - destruct (decide (k = k0)) as [->|Hne]; simpl.
    + rewrite IH, elem_of_cons. intuition congruence.
    + rewrite !elem_of_cons, IH. intuition congruence.
Qed.

Lemma wfObject_objDelete k o : wfObject o -> wfObject (objDelete k o).
Proof.
  unfold wfObject. induction o as [|[k0 v0] o IH]; simpl; [done|].
  rewrite NoDup_cons. intros [Hn Hnd].
  destruct (decide (k = k0)) as [->|Hne]; simpl; [auto|].
  rewrite NoDup_cons. split; [|auto].
  rewrite elem_objKeys_objDelete. tauto.
Qed.

Lemma wfObject_objReplace k v o : wfObject o -> wfObject (objReplace k v o).
Proof. unfold wfObject. by rewrite objKeys_objReplace. Qed.

Variable index : K -> option Z.

Lemma objGet_objInsertIndex i k k' v o :
  objGet k o = None ->
  objGet k' (objInsertIndex index i k v o) =
  if decide (k' = k) then Some v else objGet k' o.
Proof.
  induction o as [|[k0 v0] o IH]; simpl; [done|].
  destruct (decide (k = k0)) as [->|Hne]; [done|]. intros Hg.
  destruct (index k0) as [j|]; [destruct (j <? i)%Z|]; simpl; try done.
  rewrite IH by done. destruct (decide (k' = k0)) as [->|]; [|done].
  by rewrite decide_False.
Qed.

Lemma objGet_objSet_eq k v o : objGet k (objSet index k v o) = Some v.
Proof.
  unfold objSet. destruct (objGet k o) as [v0|] eqn:Hg.
  - by rewrite objGet_objReplace_eq, Hg.
  - destruct (index k) as [i|].
    + rewrite objGet_objInsertIndex by done. by rewrite decide_True.
    + rewrite objGet_app, Hg. simpl. by rewrite decide_True.
Qed.

Lemma objGet_objSet_ne k k' v o :
  k <> k' -> objGet k' (objSet index k v o) = objGet k' o.
Proof.
  intros Hne. unfold objSet. destruct (objGet k o) as [v0|] eqn:Hg.
  - by apply objGet_objReplace_ne.
  - destruct (index k) as [i|].
    + rewrite objGet_objInsertIndex by done. rewrite decide_False; [done | congruence].
    + rewrite objGet_app. destruct (objGet k' o); [done|].
      simpl. rewrite decide_False; [done | congruence].
Qed.

Lemma elem_objKeys_objInsertIndex i k k' v o :
  k' ∈ objKeys (objInsertIndex index i k v o) <-> k' = k \/ k' ∈ objKeys o.
Proof.
  induction o as [|[k0 v0] o IH]; simpl.
  - rewrite list_elem_of_singleton. rewrite elem_of_nil. tauto.
  - destruct (index k0) as [j|]; [destruct (j <? i)%Z|]; simpl;
      rewrite ?elem_of_cons, ?IH; simpl; rewrite ?elem_of_cons; tauto.
Qed.

Lemma wfObject_objInsertIndex i k v o :
  k ∉ objKeys o -> wfObject o -> wfObject (objInsertIndex index i k v o).
Proof.
  unfold wfObject. induction o as [|[k0 v0] o IH]; simpl.
  - intros _ _. apply NoDup_singleton.
  - rewrite not_elem_of_cons, NoDup_cons. intros [Hne Hn] [Hn0 Hnd].
    destruct (index k0) as [j|]; [destruct (j <? i)%Z|]; simpl.
    + rewrite NoDup_cons. split; [|auto].
      rewrite elem_objKeys_objInsertIndex. intros [?|?]; congruence.
    + rewrite !NoDup_cons, not_elem_of_cons. auto.
    + rewrite !NoDup_cons, not_elem_of_cons. auto.
Qed.

Lemma wfObject_objSet k v o : wfObject o -> wfObject (objSet index k v o).
Proof.
  intros Hwf. unfold objSet. destruct (objGet k o) as [v0|] eqn:Hg.
  - by apply wfObject_objReplace.
  - apply objGet_None in Hg. destruct (index k) as [i|].
    + by apply wfObject_objInsertIndex.
    + unfold wfObject, objKeys in *. rewrite map_app. simpl.
      apply NoDup_app. split; [done|]. split; [|apply NoDup_singleton].
      intros x Hx Hx'. apply list_elem_of_singleton in Hx'. by subst.
Qed.
End JsObjectFacts.

Section JsObjectEntries.
Context {K V : Type} `{EqDecision K}.
Implicit Types (k : K) (v : V) (o : list (K * V)) (e : K * V).

Lemma elem_objReplace e k v o : e ∈ objReplace k v o -> e = (k, v) \/ e ∈ o.
Proof.
  induction o as [|[k0 v0] o IH]; simpl; [auto|].
  destruct (decide (k = k0)) as [->|Hne]; rewrite !elem_of_cons; intuition.
Qed.

Lemma elem_objDelete e k o : e ∈ objDelete k o -> e ∈ o.
Proof.
  induction o as [|[k0 v0] o IH]; simpl; [auto|].
  destruct (decide (k = k0)) as [->|Hne]; rewrite !elem_of_cons; intuition.
Qed.

Variable index : K -> option Z.

Lemma elem_objInsertIndex e i k v o :
  e ∈ objInsertIndex index i k v o -> e = (k, v) \/ e ∈ o.
Proof.
  induction o as [|[k0 v0] o IH]; simpl.
  - rewrite list_elem_of_singleton. auto.
  - destruct (index k0) as [j|]; [destruct (j <? i)%Z|];
      rewrite !elem_of_cons; intuition.
Qed.

Lemma elem_objSet e k v o : e ∈ objSet index k v o -> e = (k, v) \/ e ∈ o.
Proof.
  unfold objSet. destruct (objGet k o); [apply elem_objReplace|].
  destruct (index k); [apply elem_objInsertIndex|].
  rewrite elem_of_app, list_elem_of_singleton. tauto.
Qed.
End JsObjectEntries.

(** ** ConnectionManager *)

Section ConnectionManagerFacts.
Import ConnectionManager.
Implicit Types (cs : Connections) (options : ConnectionOptions) (port : Port).

Lemma wfConnections_empty : wfConnections empty.
Proof. split; [apply NoDup_nil_2 | apply Forall_nil_2]. Qed.

Lemma wfObject_newLayerRecord : wfObject newLayerRecord.
Proof.
  unfold wfObject. simpl. repeat (apply NoDup_cons; split); try apply NoDup_nil_2;
    rewrite ?not_elem_of_cons; repeat split; try done; apply not_elem_of_nil.
Qed.

Lemma wfConnections_lookup cs tid r :
  wfConnections cs -> objGet tid cs = Some r -> wfObject r.
Proof.
  intros [_ Hall] Hg. apply objGet_Some_In in Hg.
  rewrite Forall_forall in Hall. apply (Hall _ Hg).
Qed.

(** The representation invariant is kept by the two writers. *)
Lemma wfConnections_addConnection options port cs :
  wfConnections cs -> wfConnections (addConnection options port cs).
Proof.
  intros Hwf. pose proof Hwf as [Hk Hall]. unfold addConnection. split.
  - by apply wfObject_objSet.
  - apply Forall_forall. intros e He. apply elem_objSet in He as [->|He].
    + simpl. apply wfObject_objSet.
      destruct (objGet (tabId options) cs) as [r|] eqn:Hg.
      * exact (wfConnections_lookup cs _ r Hwf Hg).
      * apply wfObject_newLayerRecord.
    + rewrite Forall_forall in Hall. by apply Hall.
Qed.

Lemma wfConnections_removeConnection options cs :
  wfConnections cs -> wfConnections (removeConnection options cs).
Proof.
  intros Hwf. pose proof Hwf as [Hk Hall]. unfold removeConnection.
  destruct (objGet (tabId options) cs) as [r|] eqn:Hg; [|done].
  rewrite Forall_forall in Hall.
  destruct (length _ =? 0)%nat.
  - split; [by apply wfObject_objDelete|].
    apply Forall_forall. intros e He. apply elem_objDelete in He. by apply Hall.
  - split; [by apply wfObject_objReplace|].
    apply Forall_forall. intros e He. apply elem_objReplace in He as [->|He].
    + simpl. apply wfObject_objDelete. exact (wfConnections_lookup cs _ r Hwf Hg).
    + by apply Hall.
Qed.

Lemma getConnection_addConnection_eq options port cs :
  getConnection options (addConnection options port cs) = Some port.
Proof.
  unfold getConnection, addConnection.
  rewrite objGet_objSet_eq. by rewrite objGet_objSet_eq.
Qed.

Lemma getConnection_addConnection_ne options options' port cs :
  options <> options' ->
  getConnection options' (addConnection options port cs) = getConnection options' cs.
Proof.
  intros Hne. unfold getConnection, addConnection.
  destruct (decide (tabId options = tabId options')) as [Ht|Ht].
  - rewrite <- Ht, objGet_objSet_eq.
    assert (layer options <> layer options') as Hl.
    { intros Hl. apply Hne. destruct options, options'. simpl in *. congruence. }
    rewrite objGet_objSet_ne by done.
    destruct (objGet (tabId options) cs) as [r|]; [done|].
    by destruct (layer options').
  - by rewrite objGet_objSet_ne.
Qed.

Lemma getConnection_removeConnection_eq options cs :
  getConnection options (removeConnection options cs) = None.
Proof.
  unfold getConnection, removeConnection.
  destruct (objGet (tabId options) cs) as [r|] eqn:Hg; [|by rewrite Hg].
  destruct (length _ =? 0)%nat.
  - by rewrite objGet_objDelete_eq.
  - rewrite objGet_objReplace_eq, Hg. simpl. by rewrite objGet_objDelete_eq.
Qed.

Lemma getConnection_removeConnection_ne options options' cs :
  options <> options' ->
  getConnection options' (removeConnection options cs) = getConnection options' cs.
Proof.
  intros Hne. unfold getConnection, removeConnection.
  destruct (objGet (tabId options) cs) as [r|] eqn:Hg; [|done].
  destruct (decide (tabId options = tabId options')) as [Ht|Ht].
  - assert (layer options <> layer options') as Hl.
    { intros Hl. apply Hne. destruct options, options'. simpl in *. congruence. }
    rewrite <- Ht, Hg.
    destruct (length _ =? 0)%nat eqn:Hlen.
    + rewrite objGet_objDelete_eq.
      apply Nat.eqb_eq, nil_length_inv in Hlen.
      assert (objGet (layer options') (objDelete (layer options) r) = None) as Hn.
      { apply objGet_None. rewrite Hlen. apply not_elem_of_nil. }
      rewrite objGet_objDelete_ne in Hn by done. by rewrite Hn.
    + rewrite objGet_objReplace_eq, Hg. simpl. by rewrite objGet_objDelete_ne.
  - destruct (length _ =? 0)%nat.
    + by rewrite objGet_objDelete_ne.
    + by rewrite objGet_objReplace_ne.
Qed.

(** Removing under a target that has no record changes nothing. *)
Lemma removeConnection_absent_target options cs :
  objGet (tabId options) cs = None -> removeConnection options cs = cs.
Proof. intros Hg. unfold removeConnection. by rewrite Hg. Qed.
End ConnectionManagerFacts.

(** C4 (the code departs from the claim).  The claim: after
    [addConnection] for (5, popup) and (5, devtools) and [removeConnection]
    of both pairs, [getAllConnections()] has no key [5].  On the code the
    record of target 5 is created with all three role slots, so after the
    two removals it still has the slot [options] (holding [undefined]), its
    key count is 1, and the per-target record stays in the registry. *)
Theorem C4_record_survives_removing_both (p1 p2 : Port) :
  let five := Js.ofZ 5 in
  ConnectionManager.getAllConnections
    (ConnectionManager.removeConnection {| layer := DevTools; tabId := five |}
       (ConnectionManager.removeConnection {| layer := Popup; tabId := five |}
          (ConnectionManager.addConnection {| layer := DevTools; tabId := five |} p2
             (ConnectionManager.addConnection {| layer := Popup; tabId := five |} p1
                ConnectionManager.empty))))
  = [(five, [(Options, None)])].
Proof. reflexivity. Qed.

(** ** BaseBackgroundManager: addressing *)

Section Addressing.
Import ConnectionManager BaseBackgroundManager.

Lemma flat_map_Permutation_ext {A B} (f g : A -> list B) (l : list A) :
  (forall x, x ∈ l -> f x ≡ₚ g x) -> flat_map f l ≡ₚ flat_map g l.
Proof.
  induction l as [|a l IH]; simpl; intros Hfg; [done|].
  apply Permutation_app.
  - apply Hfg. left.
  - apply IH. intros x Hx. apply Hfg. by right.
Qed.

Lemma flat_map_filter {A B} (P : A -> Prop) `{forall x, Decision (P x)}
    (g : A -> list B) (l : list A) :
  flat_map g (filter P l) = flat_map (fun x => if decide (P x) then g x else []) l.
Proof.
  induction l as [|a l IH]; simpl; [done|].
  rewrite filter_cons. destruct (decide (P a)); simpl; by rewrite IH.
Qed.

Lemma flat_map_single {A B} `{EqDecision A} (t : A) (g : A -> list B) (l : list A) :
  NoDup l ->
  flat_map (fun x => if decide (x = t) then g x else []) l =
  if decide (t ∈ l) then g t else [].
Proof.
  induction l as [|a l IH]; simpl; [done|].
  rewrite NoDup_cons. intros [Hn Hnd]. rewrite IH by done.
  destruct (decide (a = t)) as [->|Hne].
  - rewrite (decide_True (P := t ∈ t :: l)) by left.
    rewrite (decide_False (P := t ∈ l)) by done. apply app_nil_r.
  - simpl. destruct (decide (t ∈ l)) as [Hin|Hnin].
    + rewrite decide_True; [done | by right].
    + rewrite decide_False; [done|]. rewrite not_elem_of_cons. split; congruence.
Qed.

Lemma omap_map {A B C} (f : B -> option C) (g : A -> B) (l : list A) :
  omap f (map g l) = omap (fun x => f (g x)) l.
Proof. induction l as [|a l IH]; csimpl; [done|]. by rewrite IH. Qed.

Lemma omap_list_prod {A B C} (f : A * B -> option C) (l1 : list A) (l2 : list B) :
  omap f (list_prod l1 l2) = flat_map (fun a => omap (fun b => f (a, b)) l2) l1.
Proof.
  induction l1 as [|a l1 IH]; simpl; [done|].
  by rewrite omap_app, omap_map, IH.
Qed.

Lemma map_flat_map {A B C} (f : B -> C) (g : A -> list B) (l : list A) :
  map f (flat_map g l) = flat_map (fun a => map f (g a)) l.
Proof. induction l as [|a l IH]; simpl; [done|]. by rewrite map_app, IH. Qed.

(** A duplicate-free list of layers is the enumeration of the layers,
    restricted to its members, up to order. *)
Lemma layers_Permutation (ks : list ClientLayer) :
  NoDup ks -> ks ≡ₚ filter (fun ly => ly ∈ ks) ClientLayer_values.
Proof.
  intros Hnd. apply NoDup_Permutation; [done | |].
  - apply NoDup_filter. unfold ClientLayer_values.
    repeat (apply NoDup_cons; split); try apply NoDup_nil_2;
      rewrite ?not_elem_of_cons; repeat split; try done; apply not_elem_of_nil.
  - intros ly. rewrite list_elem_of_filter. split; [|tauto].
    intros Hin. split; [done|]. unfold ClientLayer_values.
    destruct ly; rewrite !elem_of_cons; tauto.
Qed.

(** One tab record: the posts of the inner loop are the handles of the
    slots that the [layer] part of the selector addresses. *)
Lemma sendToLayers_addressed (r : LayerRecord) (layer : option ClientLayer)
    (message : BaseMessage) :
  wfObject r ->
  sendToLayers r (match layer with Some ly => [ly] | None => objKeys r end) message
  ≡ₚ map (fun p => PostMessage p message)
       (omap (fun ly => if bool_decide (layer = None \/ layer = Some ly)
                        then slot r ly else None) ClientLayer_values).
Proof.
  intros Hwf. unfold sendToLayers, slot. destruct layer as [ly0|].
  - simpl. destruct ly0; simpl;
      repeat (rewrite bool_decide_true by (right; done) ||
              rewrite bool_decide_false by (intros [|]; congruence));
      simpl; destruct (objGet _ r) as [[p|]|]; simpl; done.
  - rewrite (layers_Permutation (objKeys r)) at 1 by done.
    rewrite flat_map_filter. unfold ClientLayer_values. simpl.
    assert (forall ly,
      (if decide (ly ∈ objKeys r)
       then match objGet ly r with
            | Some (Some port) => [PostMessage port message]
            | _ => []
            end
       else []) =
      match (match objGet ly r with Some s => s | None => None end) with
      | Some p => [PostMessage p message]
      | None => []
      end) as Heq.
    { intros ly. destruct (decide (ly ∈ objKeys r)) as [Hin|Hnin].
      - by destruct (objGet ly r) as [[p|]|].
      - apply objGet_None in Hnin. by rewrite Hnin. }
    rewrite !Heq, app_nil_r.
    destruct (objGet DevTools r) as [[?|]|], (objGet Popup r) as [[?|]|],
      (objGet Options r) as [[?|]|]; simpl; done.
Qed.
End Addressing.

Section SendMessage.
Import ConnectionManager BaseBackgroundManager.

(** The handles addressed under one target that is not selected: none. *)
Lemma addressed_other_tab cs (t tid : TabId) layer :
  tid <> t ->
  omap (fun ly => if selects (Some t) layer tid ly
                  then getConnection {| layer := ly; tabId := tid |} cs
                  else None) ClientLayer_values = [].
Proof.
  intros Hne. unfold selects.
  rewrite bool_decide_false by (intros [|]; congruence). reflexivity.
Qed.

(** The handles addressed under one selected target that has a record. *)
Lemma addressed_tab cs tabId layer tid r :
  tabId = None \/ tabId = Some tid ->
  objGet tid cs = Some r ->
  omap (fun ly => if selects tabId layer tid ly
                  then getConnection {| layer := ly; tabId := tid |} cs
                  else None) ClientLayer_values
  = omap (fun ly => if bool_decide (layer = None \/ layer = Some ly)
                    then slot r ly else None) ClientLayer_values.
Proof.
  intros Hsel Hg. unfold selects, getConnection, slot. simpl.
  rewrite bool_decide_true by done. by rewrite Hg.
Qed.

(** The posts for one target that has a record. *)
Lemma sendMessage_tab cs tabId layer message tid r :
  wfConnections cs ->
  tabId = None \/ tabId = Some tid ->
  objGet tid cs = Some r ->
  sendToLayers r (match layer with Some ly => [ly] | None => objKeys r end) message
  ≡ₚ map (fun p => PostMessage p message)
       (omap (fun ly => if selects tabId layer tid ly
                        then getConnection {| layer := ly; tabId := tid |} cs
                        else None) ClientLayer_values).
Proof.
  intros Hwf Hsel Hg. rewrite (addressed_tab cs tabId layer tid r) by done.
  apply sendToLayers_addressed. by eapply wfConnections_lookup.
Qed.
(** The posts of [sendMessage] are, up to order, one post on every
    addressed handle. *)
Lemma sendMessage_addressed h tabId layer message :
  wfConnections (connectionManager h) ->
  sendMessage tabId layer message h
  ≡ₚ map (fun p => PostMessage p message) (addressed tabId layer (connectionManager h)).
Proof.
  intros Hwf. unfold sendMessage, addressed, getAllConnections.
  set (cs := connectionManager h) in *.
  rewrite omap_list_prod, map_flat_map. cbn [fst snd].
  destruct tabId as [t|].
  - cbn [flat_map]. rewrite app_nil_r.
    rewrite (flat_map_ext _
      (fun tid => if decide (tid = t)
                  then map (fun p => PostMessage p message)
                         (omap (fun ly => if selects (Some t) layer tid ly
                                 then getConnection {| layer := ly; tabId := tid |} cs
                                 else None) ClientLayer_values)
                  else [])).
    2:{ intros tid. destruct (decide (tid = t)) as [->|Hne]; [done|].
        by rewrite addressed_other_tab. }
    rewrite flat_map_single by apply Hwf.
    destruct (decide (t ∈ objKeys cs)) as [Hin|Hnin].
    + destruct (objGet t cs) as [r|] eqn:Hg.
      * apply sendMessage_tab; auto.
      * apply objGet_None in Hg. contradiction.
    + apply objGet_None in Hnin. by rewrite Hnin.
  - apply flat_map_Permutation_ext. intros tid Hin.
    destruct (objGet tid cs) as [r|] eqn:Hg.
    + apply sendMessage_tab; auto.
    + apply objGet_None in Hg. contradiction.
Qed.

(** The addressed handles in each of the four modes. *)
Lemma addressed_full cs :
  addressed None None cs
  = omap (fun pair => getConnection {| layer := snd pair; tabId := fst pair |} cs)
      (list_prod (objKeys cs) ClientLayer_values).
Proof. reflexivity. Qed.

Lemma addressed_role cs ly :
  addressed None (Some ly) cs
  = omap (fun tid => getConnection {| layer := ly; tabId := tid |} cs) (objKeys cs).
Proof.
  unfold addressed. rewrite omap_list_prod. cbn [fst snd].
  induction (objKeys cs) as [|tid tids IH]; [done|].
  cbn [flat_map]. rewrite IH. csimpl.
  destruct ly; unfold selects; simpl;
    destruct (getConnection _ cs); done.
Qed.

Lemma addressed_target cs t :
  wfObject cs ->
  addressed (Some t) None cs
  = omap (fun ly => getConnection {| layer := ly; tabId := t |} cs) ClientLayer_values.
Proof.
  intros Hwf. unfold addressed. rewrite omap_list_prod. cbn [fst snd].
  rewrite (flat_map_ext _
    (fun tid => if decide (tid = t)
                then omap (fun ly => getConnection {| layer := ly; tabId := tid |} cs)
                       ClientLayer_values
                else [])).
  2:{ intros tid. destruct (decide (tid = t)) as [->|Hne].
      - unfold selects. rewrite bool_decide_true by (right; done). done.
      - by apply addressed_other_tab. }
  rewrite flat_map_single by done.
  destruct (decide (t ∈ objKeys cs)) as [Hin|Hnin]; [done|].
  apply objGet_None in Hnin. unfold getConnection. simpl. by rewrite Hnin.
Qed.

Lemma addressed_exact cs t ly :
  wfObject cs ->
  addressed (Some t) (Some ly) cs
  = option_list (getConnection {| layer := ly; tabId := t |} cs).
Proof.
  intros Hwf. unfold addressed. rewrite omap_list_prod. cbn [fst snd].
  rewrite (flat_map_ext _
    (fun tid => if decide (tid = t)
                then option_list (getConnection {| layer := ly; tabId := tid |} cs)
                else [])).
  2:{ intros tid. destruct (decide (tid = t)) as [->|Hne].
      - unfold selects. rewrite bool_decide_true by (right; done).
        destruct ly; simpl; destruct (getConnection _ cs); done.
      - by apply addressed_other_tab. }
  rewrite flat_map_single by done.
  destruct (decide (t ∈ objKeys cs)) as [Hin|Hnin]; [done|].
  apply objGet_None in Hnin. unfold getConnection. simpl. by rewrite Hnin.
Qed.

(** The registry stays well formed under the events of the hub. *)
Lemma wfConnections_handleConnection port h :
  wfConnections (connectionManager h) ->
  wfConnections (connectionManager (fst (handleConnection port h))).
Proof.
  intros Hwf. unfold handleConnection.
  destruct (extractPortDetails port); [|done].
  simpl. by apply wfConnections_addConnection.
Qed.

Lemma wfConnections_disconnectAll port handlers h :
  wfConnections (connectionManager h) ->
  wfConnections (connectionManager (fst (disconnectAll port handlers h))).
Proof.
  revert h. induction handlers as [|[p d] handlers IH]; intros h Hwf; [done|].
  simpl. destruct (decide (p = port)) as [->|Hne]; [|by apply IH].
  specialize (IH (fst (handlePortDisconnect d h))).
  unfold handlePortDisconnect in *. simpl in *.
  destruct (disconnectAll port handlers _) as [h2 t2]. simpl in *.
  apply IH. by apply wfConnections_removeConnection.
Qed.
End SendMessage.

(** C1.  For every registry state and every message, [sendMessage] posts
    the message, up to the order of the posts, exactly once on the handle
    that [getConnection] finds under each addressed (target, role) pair,
    and does nothing else: with the empty selector the pairs are all the
    targets of the registry with all roles; with only [tabId] they are the
    roles of that target; with only [layer] they are the targets of the
    registry with that role; with both it is the one pair.  A target
    without a record and a slot without a handle contribute nothing. *)
Theorem C1_sendMessage_addressing
    (h : BaseBackgroundManager.t) (message : BaseMessage) :
  wfConnections (BaseBackgroundManager.connectionManager h) ->
  BaseBackgroundManager.sendMessage None None message h
    ≡ₚ map (fun p => PostMessage p message)
         (omap (fun pair =>
                  ConnectionManager.getConnection
                    {| layer := snd pair; tabId := fst pair |}
                    (BaseBackgroundManager.connectionManager h))
            (list_prod (objKeys (BaseBackgroundManager.connectionManager h))
               ClientLayer_values)) /\
  (forall t,
     BaseBackgroundManager.sendMessage (Some t) None message h
     ≡ₚ map (fun p => PostMessage p message)
          (omap (fun ly =>
                   ConnectionManager.getConnection {| layer := ly; tabId := t |}
                     (BaseBackgroundManager.connectionManager h))
             ClientLayer_values)) /\
  (forall ly,
     BaseBackgroundManager.sendMessage None (Some ly) message h
     ≡ₚ map (fun p => PostMessage p message)
          (omap (fun tid =>
                   ConnectionManager.getConnection {| layer := ly; tabId := tid |}
                     (BaseBackgroundManager.connectionManager h))
             (objKeys (BaseBackgroundManager.connectionManager h)))) /\
  (forall t ly,
     BaseBackgroundManager.sendMessage (Some t) (Some ly) message h
     = map (fun p => PostMessage p message)
         (option_list
            (ConnectionManager.getConnection {| layer := ly; tabId := t |}
               (BaseBackgroundManager.connectionManager h)))).
Proof.
  intros Hwf. pose proof Hwf as [Hkeys _]. repeat split.
  - rewrite <- addressed_full. by apply sendMessage_addressed.
  - intros t. rewrite <- addressed_target by done. by apply sendMessage_addressed.
  - intros ly. rewrite <- addressed_role. by apply sendMessage_addressed.
  - intros t ly. unfold BaseBackgroundManager.sendMessage,
      ConnectionManager.getAllConnections, ConnectionManager.getConnection,
      BaseBackgroundManager.sendToLayers.
    simpl. destruct (objGet t _) as [r|]; [|done]. simpl.
    by destruct (objGet ly r) as [[p|]|].
Qed.

(** ** Numbers *)

Section DoubleFacts.
Import Js.
Local Open Scope Z_scope.

Lemma oddPart_spec p e :
  Zpos p = Zpos (fst (oddPart p e)) * 2 ^ (snd (oddPart p e) - e) /\
  e <= snd (oddPart p e) /\
  Z.odd (Zpos (fst (oddPart p e))) = true.
Proof.
  revert e. induction p as [p IH|p IH|]; intros e; simpl.
  - rewrite Z.sub_diag. simpl. split; [lia|]. split; [lia|done].
  - destruct (IH (e + 1)) as (Hv & Hle & Hodd).
    split; [|split; [lia|done]].
    replace (snd (oddPart p (e + 1)) - e) with (Z.succ (snd (oddPart p (e + 1)) - (e + 1))) by lia.
    rewrite Z.pow_succ_r by lia. lia.
  - rewrite Z.sub_diag. simpl. split; [lia|]. split; [lia|done].
Qed.

(** Integers below [2^53] are numbers, exactly. *)
Lemma integerValue_ofZ z : 0 <= z < 2 ^ 53 -> integerValue (ofZ z) = Some z.
Proof.
  intros [Hz0 Hz53]. unfold ofZ, roundToDouble.
  destruct (Z.abs z =? 0) eqn:Hzero.
  { apply Z.eqb_eq in Hzero. simpl. f_equal. lia. }
  apply Z.eqb_neq in Hzero.
  assert (0 < z) as Hpos by lia.
  rewrite Z.abs_eq by lia.
  replace (z <? 0) with false by (symmetry; apply Z.ltb_ge; lia).
  change (Z.log2 1) with 0. rewrite Z.sub_0_r.
  pose proof (Z.log2_spec z Hpos) as [Hlo Hhi].
  pose proof (Z.log2_nonneg z) as Hl0.
  assert (Z.log2 z < 53) as Hl53 by (apply Z.log2_lt_pow2; lia).
  set (l := Z.log2 z) in *.
  replace (0 <=? l) with true by (symmetry; apply Z.leb_le; lia).
  replace (1 * 2 ^ l <=? z) with true by (symmetry; apply Z.leb_le; lia).
  replace (Z.max (l - 52) (-1074)) with (l - 52) by lia.
  set (p := l - 52) in *.
  assert (let '(a, b) := if 0 <=? p then (z, 1 * 2 ^ p) else (z * 2 ^ (- p), 1) in
          a = z * 2 ^ (- p) /\ b = 1) as Hab.
  { destruct (0 <=? p) eqn:Hp0.
    - apply Z.leb_le in Hp0. assert (p = 0) as -> by lia. simpl. lia.
    - done. }
  destruct (if 0 <=? p then (z, 1 * 2 ^ p) else (z * 2 ^ (- p), 1)) as [a b].
  destruct Hab as [-> ->].
  rewrite Z.div_1_r, Z.mod_1_r. simpl (2 * 0). 
  replace (1 <? 0) with false by done. replace (1 =? 0) with false by done. simpl orb.
  cbv iota.
  assert (0 < 2 ^ (- p)) as Hpow by (apply Z.pow_pos_nonneg; lia).
  assert (Z.log2 (z * 2 ^ (- p)) = l - p) as Hlog.
  { rewrite Z.log2_mul_pow2 by lia. lia. }
  rewrite Hlog.
  replace (1024 <=? l - p + p) with false by (symmetry; apply Z.leb_gt; lia).
  simpl andb. cbv iota.
  unfold normalize.
  destruct (z * 2 ^ (- p)) as [|q|q] eqn:Hq; [lia| |lia].
  pose proof (oddPart_spec q p) as (Hv & Hle & Hodd).
  destruct (oddPart q p) as [m e'] eqn:Ho. cbn [fst snd] in Hv, Hle, Hodd.
  unfold integerValue.
  assert (0 <= e') as He'.
  { destruct (Z.le_gt_cases 0 e') as [|Hneg]; [done|]. exfalso.
    assert (2 ^ (- p) = 2 ^ (e' - p) * 2 ^ (- e')) as Hsplit
      by (rewrite <- Z.pow_add_r by lia; f_equal; lia).
    assert (0 < 2 ^ (e' - p)) as Hpos' by (apply Z.pow_pos_nonneg; lia).
    assert (z * 2 ^ (- e') = Z.pos m) as Hm.
    { apply (Z.mul_cancel_r _ _ (2 ^ (e' - p))); [lia|]. rewrite <- Hv, <- Hq, Hsplit. ring. }
    assert (2 ^ (- e') = 2 * 2 ^ (- e' - 1)) as Hev.
    { rewrite <- Z.pow_succ_r by lia. f_equal. lia. }
    rewrite Hev in Hm. rewrite <- Hm in Hodd.
    replace (z * (2 * 2 ^ (- e' - 1))) with (2 * (z * 2 ^ (- e' - 1))) in Hodd by ring.
    rewrite Z.odd_mul in Hodd. done. }
  replace (0 <=? e') with true by (symmetry; apply Z.leb_le; lia).
  f_equal.
  assert (2 ^ (e' - p) = 2 ^ e' * 2 ^ (- p)) as Hsplit
    by (rewrite <- Z.pow_add_r by lia; f_equal; lia).
  apply (Z.mul_cancel_r _ _ (2 ^ (- p))); [lia|].
  rewrite Hq, Hv, Hsplit. ring.
Qed.
End DoubleFacts.

(** ** Channel names *)

Section ChannelNames.
Import Js.

Lemma roundToDouble_not_NaN negative num den :
  isNaN (roundToDouble negative num den) = false.
Proof.
  unfold roundToDouble, normalize.
  repeat (case_match; try done).
Qed.

Lemma numberOfMV_not_NaN negative v : isNaN (numberOfMV negative v) = false.
Proof.
  destruct v as [|m e]; simpl; [done|].
  destruct (0 <=? e)%Z; apply roundToDouble_not_NaN.
Qed.

Lemma digit_not_whitespace c : isDecimalDigit c = true -> isStrWhiteSpaceChar c = false.
Proof.
  unfold isDecimalDigit, isStrWhiteSpaceChar. intros Hd.
  apply andb_true_iff in Hd as [H1 H2].
  apply Z.leb_le in H1. apply Z.leb_le in H2.
  repeat (apply orb_false_iff; split);
    [apply andb_false_iff; right; apply Z.leb_gt | apply Z.eqb_neq ..]; lia.
Qed.

Lemma dropWhile_head {A} (f : A -> bool) c l :
  f c = false -> dropWhile f (c :: l) = c :: l.
Proof. intros Hf. simpl. by rewrite Hf. Qed.

Lemma span_all {A} (f : A -> bool) l : forallb f l = true -> span f l = (l, []).
Proof.
  induction l as [|c l IH]; simpl; [done|].
  intros Hall. apply andb_true_iff in Hall as [Hc Hl].
  by rewrite Hc, IH.
Qed.

Lemma trimString_digits l :
  forallb isDecimalDigit l = true -> trimString l = l.
Proof.
  intros Hall. unfold trimString.
  assert (forall l', forallb isDecimalDigit l' = true ->
                     dropWhile isStrWhiteSpaceChar l' = l') as Hdrop.
  { intros [|c l'] Hl'; [done|]. simpl in Hl'.
    apply andb_true_iff in Hl' as [Hc _].
    by apply dropWhile_head, digit_not_whitespace. }
  rewrite (Hdrop l) by done.
  rewrite Hdrop; [apply rev_involutive|].
  apply forallb_forall. intros c Hc. apply in_rev in Hc.
  revert c Hc. by apply forallb_forall.
Qed.

(** A non-empty string of decimal digits is a StringNumericLiteral. *)
Lemma strNumericLiteral_digits l :
  l <> [] -> forallb isDecimalDigit l = true ->
  strNumericLiteral l = Some (false, MVDecimal (decimalValue l) 0).
Proof.
  intros Hne Hall.
  assert (strUnsignedDecimalLiteral l = Some (MVDecimal (decimalValue l) 0)) as Hu.
  { unfold strUnsignedDecimalLiteral.
    destruct (decide (l = Infinity_literal)) as [->|_]; [done|].
    rewrite span_all by done. by destruct l. }
  assert (strDecimalLiteral l = Some (false, MVDecimal (decimalValue l) 0)) as Hd.
  { unfold strDecimalLiteral. destruct l as [|c r]; [done|].
    simpl in Hall. apply andb_true_iff in Hall as [Hc _].
    rewrite !bool_decide_false by (intros ->; done).
    by rewrite Hu. }
  unfold strNumericLiteral. destruct l as [|c [|x ds]]; try done.
  destruct (bool_decide (c = "0"%char)); [|done].
  simpl in Hall. apply andb_true_iff in Hall as [_ Hall].
  apply andb_true_iff in Hall as [Hx _].
  unfold radixOfPrefix.
  rewrite !bool_decide_false by (intros [->| ->]; done). done.
Qed.

Lemma StringToNumber_digits s :
  forallb isDecimalDigit (list_ascii_of_string s) = true ->
  isNaN (StringToNumber s) = false.
Proof.
  intros Hall. unfold StringToNumber.
  rewrite trimString_digits by done.
  destruct (list_ascii_of_string s) as [|c l] eqn:Hs; [done|].
  rewrite strNumericLiteral_digits by done.
  apply numberOfMV_not_NaN.
Qed.

Lemma decimalValue_nonneg l :
  forallb isDecimalDigit l = true -> (0 <= decimalValue l)%Z.
Proof.
  unfold decimalValue.
  assert (forall acc, (0 <= acc)%Z -> forallb isDecimalDigit l = true ->
            (0 <= fold_left (fun a c => a * 10 + (code c - 48)) l acc)%Z) as Hgen.
  { induction l as [|c l IH]; intros acc Hacc Hall; [done|].
    simpl in *. apply andb_true_iff in Hall as [Hc Hl].
    apply IH; [|done]. unfold isDecimalDigit in Hc.
    apply andb_true_iff in Hc as [Hc _]. apply Z.leb_le in Hc. lia. }
  intros Hall. by apply Hgen.
Qed.

(** A string of decimal digits is read as the number of its value. *)
Lemma StringToNumber_digits_value s :
  forallb isDecimalDigit (list_ascii_of_string s) = true ->
  StringToNumber s = ofZ (decimalValue (list_ascii_of_string s)).
Proof.
  intros Hall. unfold StringToNumber.
  rewrite trimString_digits by done.
  destruct (list_ascii_of_string s) as [|c l] eqn:Hs; [done|].
  rewrite strNumericLiteral_digits by done.
  pose proof (decimalValue_nonneg (c :: l) Hall) as Hv.
  unfold numberOfMV, ofZ. simpl (0 <=? 0)%Z. cbv iota.
  rewrite Z.pow_0_r, Z.mul_1_r, Z.abs_eq by done.
  by replace (decimalValue (c :: l) <? 0)%Z with false
    by (symmetry; apply Z.ltb_ge; lia).
Qed.

Lemma split_nonempty sep s : split sep s <> [].
Proof.
  destruct s as [|c s]; simpl; [done|].
  destruct (decide (c = sep)); [done|]. by destruct (split sep s).
Qed.

(** Joining the segments of a string gives the string back. *)
Lemma join_split sep s : join sep (split sep s) = s.
Proof.
  induction s as [|c s IH]; [done|].
  simpl. destruct (decide (c = sep)) as [->|Hne].
  - pose proof (split_nonempty sep s) as Hne.
    destruct (split sep s) as [|h t] eqn:Hsp; [done|].
    change (join sep ("" :: h :: t)) with ("" +:+ String sep (join sep (h :: t))).
    by rewrite IH.
  - destruct (split sep s) as [|h t] eqn:Hsp.
    + by apply split_nonempty in Hsp.
    + rewrite <- IH. by destruct t.
Qed.

Lemma isDecimalForm_digits s :
  isDecimalForm s = true ->
  s <> "" /\ forallb isDecimalDigit (list_ascii_of_string s) = true.
Proof.
  unfold isDecimalForm. destruct s as [|c s]; [done|]. simpl.
  intros Hf. split; [done|].
  destruct (list_ascii_of_string s) as [|c' r] eqn:Hs.
  - simpl. by rewrite Hf.
  - apply andb_true_iff in Hf as [Hf Hr].
    apply andb_true_iff in Hf as [Hc _]. by rewrite Hc.
Qed.

(** A string without the separator is its own single segment. *)
Lemma split_no_separator sep s :
  (forall c, In c (list_ascii_of_string s) -> c <> sep) -> split sep s = [s].
Proof.
  induction s as [|c s IH]; simpl; [done|]. intros Hno.
  rewrite decide_False by (apply Hno; by left).
  rewrite IH; [done|]. intros c' Hc'. apply Hno. by right.
Qed.

Lemma layerOfValue_Some s ly : layerOfValue s = Some ly <-> s = layerValue ly.
Proof.
  unfold layerOfValue, ClientLayer_values. simpl. split.
  - repeat case_bool_decide; intros [= <-]; done.
  - intros ->. by destruct ly.
Qed.

Lemma layerOfValue_None s :
  layerOfValue s = None <-> s ∉ map layerValue ClientLayer_values.
Proof.
  unfold layerOfValue, ClientLayer_values. simpl.
  rewrite !not_elem_of_cons. split.
  - repeat case_bool_decide; try done. intros _.
    repeat split; try congruence. apply not_elem_of_nil.
  - intros (H1 & H2 & H3 & _).
    rewrite !bool_decide_false by congruence. done.
Qed.
End ChannelNames.

Section HandleConnection.
Import BaseBackgroundManager.

(** [extractPortDetails] succeeds exactly on the accepted names. *)
Lemma extractPortDetails_accepted port :
  isAcceptedName (name port) = true <-> is_Some (extractPortDetails port).
Proof.
  unfold isAcceptedName, extractPortDetails.
  destruct (Js.split ":" (name port)) as [|role [|target rest]]; simpl.
  - split; [done|]. intros [d Hd]. done.
  - split; [done|]. intros [d Hd]. by destruct (layerOfValue role).
  - destruct (layerOfValue role) as [ly|] eqn:Hly.
    + apply layerOfValue_Some in Hly as ->.
      rewrite bool_decide_true by (destruct ly; set_solver). simpl.
      destruct (Js.isNaN (Js.StringToNumber target)); simpl.
      * split; [done | intros [d Hd]; done].
      * split; [eauto | done].
    + apply layerOfValue_None in Hly.
      rewrite bool_decide_false by done. simpl.
      split; [done | intros [d Hd]; done].
Qed.

(** Every name of the wire contract is accepted. *)
Lemma isWireName_accepted s : isWireName s = true -> isAcceptedName s = true.
Proof.
  unfold isWireName, isAcceptedName.
  destruct (Js.split ":" s) as [|role [|target [|? ?]]]; try done.
  intros Hw. apply andb_true_iff in Hw as [Hrole Hdec].
  rewrite Hrole. simpl.
  apply isDecimalForm_digits in Hdec as [Hne Hall].
  by rewrite StringToNumber_digits.
Qed.

(** The numeric part of a name of the wire contract is not blank. *)
Lemma isWireName_not_blank s : isWireName s = true -> hasBlankTarget s = false.
Proof.
  unfold isWireName, hasBlankTarget.
  destruct (Js.split ":" s) as [|role [|target [|? ?]]]; try done.
  intros Hw. apply andb_true_iff in Hw as [_ Hdec].
  apply isDecimalForm_digits in Hdec as [Hne Hall].
  rewrite trimString_digits by done.
  apply bool_decide_eq_false. intros Hnil. apply Hne.
  destruct target; [done | discriminate].
Qed.

(** A name of the wire contract is the role token, a colon and the
    decimal form, and it parses to that role and to the number of that
    decimal form. *)
Lemma isWireName_details port :
  isWireName (name port) = true ->
  exists ly target,
    name port = layerValue ly +:+ ":" +:+ target /\
    isDecimalForm target = true /\
    extractPortDetails port
    = Some {| layer := ly;
              tabId := Js.ofZ (Js.decimalValue (list_ascii_of_string target)) |}.
Proof.
  unfold isWireName, extractPortDetails.
  pose proof (join_split ":" (name port)) as Hjoin.
  destruct (Js.split ":" (name port)) as [|role [|target [|? ?]]]; try done.
  intros Hw. apply andb_true_iff in Hw as [Hrole Hdec].
  apply bool_decide_eq_true in Hrole.
  assert (exists ly, role = layerValue ly) as [ly ->].
  { simpl in Hrole. rewrite !elem_of_cons in Hrole.
    destruct Hrole as [->|[->|[->|Hnil]]];
      [by exists DevTools | by exists Popup | by exists Options |].
    by apply elem_of_nil in Hnil. }
  exists ly, target. split; [by rewrite <- Hjoin|]. split; [done|].
  simpl. assert (layerOfValue (layerValue ly) = Some ly) as ->
    by (by apply layerOfValue_Some).
  apply isDecimalForm_digits in Hdec as [_ Hall].
  rewrite (StringToNumber_digits_value target Hall).
  unfold Js.ofZ. by rewrite roundToDouble_not_NaN.
Qed.
End HandleConnection.

Section Registration.
Import BaseBackgroundManager.

(** Messages on a port that carries no listener of the manager are not
    observed. *)
Lemma message_unattached fuel behaviour port msg h :
  port ∉ onMessage h -> message fuel behaviour port msg h = (h, []).
Proof.
  unfold message. generalize (onMessage h) as attached.
  induction attached as [|p l IH]; simpl; [done|].
  rewrite not_elem_of_cons. intros [Hne Hn].
  rewrite decide_False by congruence. by apply IH.
Qed.

Lemma handleConnection_rejected port h :
  extractPortDetails port = None ->
  handleConnection port h =
    (h, [LoggerError "Invalid port data or format, expected {layer}:{tabId}"
           (PortDetails port)]).
Proof. intros He. unfold handleConnection. by rewrite He. Qed.

Lemma handleConnection_registered port details h :
  extractPortDetails port = Some details ->
  handleConnection port h =
    ({| connectionManager :=
          ConnectionManager.addConnection details port (connectionManager h);
        listenerManager := listenerManager h;
        onMessage := onMessage h ++ [port];
        onDisconnect := onDisconnect h ++ [(port, details)] |},
     [LoggerInfo "Port connected" (ConnectionDetails details)]).
Proof. intros He. unfold handleConnection. by rewrite He. Qed.
End Registration.

(** ** The channel names of clients *)

Section WireContract.
Import Js BaseBackgroundManager.

Lemma of_uint_acc_decimalValue d acc :
  Zpos (Pos.of_uint_acc d acc)
  = fold_left (fun a c => a * 10 + (code c - 48))%Z
      (list_ascii_of_string (NilEmpty.string_of_uint d)) (Zpos acc).
Proof.
  revert acc. induction d as [|d IH|d IH|d IH|d IH|d IH|d IH|d IH|d IH|d IH|d IH];
    intros acc; simpl; [done | rewrite IH; f_equal; unfold code; simpl; lia ..].
Qed.

Lemma of_uint_decimalValue d :
  Z.of_N (Pos.of_uint d)
  = decimalValue (list_ascii_of_string (NilEmpty.string_of_uint d)).
Proof.
  unfold decimalValue.
  induction d as [|d IH|d IH|d IH|d IH|d IH|d IH|d IH|d IH|d IH|d IH];
    simpl; [done | exact IH | rewrite of_uint_acc_decimalValue; done ..].
Qed.

Lemma string_of_uint_digits d :
  forallb isDecimalDigit (list_ascii_of_string (NilEmpty.string_of_uint d)) = true.
Proof. induction d; simpl; done. Qed.

Lemma split_append sep a b :
  (forall c, In c (list_ascii_of_string a) -> c <> sep) ->
  split sep (a +:+ String sep b) = a :: split sep b.
Proof.
  induction a as [|c a IH]; simpl; intros Hno.
  - by rewrite decide_True.
  - rewrite decide_False by (apply Hno; by left).
    rewrite IH; [done|]. intros c' Hc'. apply Hno. by right.
Qed.

Lemma integerToString_positive p :
  integerToString (Zpos p) = NilEmpty.string_of_uint (Pos.to_uint p).
Proof.
  unfold integerToString. simpl. unfold NilZero.string_of_uint.
  pose proof (DecimalPos.Unsigned.to_uint_nonnil p) as Hnn.
  by destruct (Pos.to_uint p).
Qed.

(** A template literal prints an integer below [2^53] in its decimal
    form. *)
Lemma numberToString_ofZ z :
  (0 <= z < 2 ^ 53)%Z -> numberToString (ofZ z) = integerToString z.
Proof.
  intros Hz. pose proof (integerValue_ofZ z Hz) as Hv.
  destruct (ofZ z) as [|negative|m e] eqn:Hx; [done..|].
  unfold numberToString, safeInteger. rewrite Hv.
  destruct (Z.ltb_spec (Z.abs z) (2 ^ 53)) as [_|Hge]; [done | lia].
Qed.

(** The channel that a client opens for a tab identifier between 1 and
    [2^53 - 1] is registered by the hub under the layer of the client and
    that identifier. *)
Lemma extractPortDetails_channelName i ly z :
  (0 < z < 2 ^ 53)%Z ->
  extractPortDetails {| portId := i; name := BaseClientManager.channelName ly (ofZ z) |}
  = Some {| layer := ly; tabId := ofZ z |}.
Proof.
  intros Hz. unfold extractPortDetails, BaseClientManager.channelName. simpl name.
  rewrite numberToString_ofZ by lia.
  destruct z as [|p|p]; [lia| |lia].
  rewrite integerToString_positive.
  set (digits := NilEmpty.string_of_uint (Pos.to_uint p)).
  pose proof (string_of_uint_digits (Pos.to_uint p)) as Hdigits. fold digits in Hdigits.
  assert (split ":" (layerValue ly +:+ ":" +:+ digits) = [layerValue ly; digits]) as ->.
  { change (":" +:+ digits) with (String ":" digits).
    rewrite split_append.
    - rewrite split_no_separator; [done|].
      intros c Hc ->. rewrite forallb_forall in Hdigits. by apply Hdigits in Hc.
    - intros c Hc ->. destruct ly; simpl in Hc; intuition discriminate. }
  simpl. assert (layerOfValue (layerValue ly) = Some ly) as ->
    by (by apply layerOfValue_Some).
  rewrite (StringToNumber_digits_value digits Hdigits).
  unfold digits. rewrite <- of_uint_decimalValue, DecimalPos.Unsigned.of_to.
  simpl Z.of_N. unfold ofZ. by rewrite roundToDouble_not_NaN.
Qed.
End WireContract.

(** C2 (as the code has it).  Leave aside the names whose second
    colon-separated segment is empty or blank (which [Number] reads as 0).
    An incoming connection is then registered if and only if the first
    segment of its channel name is a recognized role token and a second
    segment exists that [Number] does not read as [NaN]; segments after
    the second are not looked at.  Every name of the wire contract (role,
    colon, decimal string form of a non-negative integer) is such a name;
    it parses to that role and to the double nearest to that integer,
    which is the integer itself when it is below [2^53].  For an accepted
    name the port is stored under the parsed (target, role), gets the
    message and the disconnect listener, and the connection is logged.
    For a name that is not accepted one error is logged and the manager is
    left as it was: the port is not registered, and when it carried no
    listener its messages are not observed. *)
Theorem C2_registered_iff_accepted (h : BaseBackgroundManager.t) (port : Port) :
  (isWireName (name port) = true ->
   isAcceptedName (name port) = true /\
   hasBlankTarget (name port) = false /\
   exists ly target,
     name port = layerValue ly +:+ ":" +:+ target /\
     BaseBackgroundManager.extractPortDetails port
     = Some {| layer := ly;
               tabId := Js.ofZ (Js.decimalValue (list_ascii_of_string target)) |} /\
     ((Js.decimalValue (list_ascii_of_string target) < 2 ^ 53)%Z ->
      Js.integerValue (Js.ofZ (Js.decimalValue (list_ascii_of_string target)))
      = Some (Js.decimalValue (list_ascii_of_string target)))) /\
  (isAcceptedName (name port) = true -> hasBlankTarget (name port) = false ->
   exists details,
     BaseBackgroundManager.extractPortDetails port = Some details /\
     BaseBackgroundManager.handleConnection port h =
       ({| BaseBackgroundManager.connectionManager :=
             ConnectionManager.addConnection details port
               (BaseBackgroundManager.connectionManager h);
           BaseBackgroundManager.listenerManager :=
             BaseBackgroundManager.listenerManager h;
           BaseBackgroundManager.onMessage :=
             BaseBackgroundManager.onMessage h ++ [port];
           BaseBackgroundManager.onDisconnect :=
             BaseBackgroundManager.onDisconnect h ++ [(port, details)] |},
        [LoggerInfo "Port connected" (ConnectionDetails details)]) /\
     ConnectionManager.getConnection details
       (BaseBackgroundManager.connectionManager
          (fst (BaseBackgroundManager.handleConnection port h))) = Some port) /\
  (isAcceptedName (name port) = false ->
   BaseBackgroundManager.handleConnection port h =
     (h, [LoggerError "Invalid port data or format, expected {layer}:{tabId}"
            (PortDetails port)]) /\
   (port ∉ BaseBackgroundManager.onMessage h ->
    forall fuel behaviour msg,
      BaseBackgroundManager.message fuel behaviour port msg
        (fst (BaseBackgroundManager.handleConnection port h)) = (h, []))).
Proof.
  split; [|split].
  - intros Hw. split; [by apply isWireName_accepted|].
    split; [by apply isWireName_not_blank|].
    destruct (isWireName_details port Hw) as (ly & target & Hn & Hdec & Hd).
    exists ly, target. split; [done|]. split; [done|].
    intros Hlt. apply integerValue_ofZ. split; [|done].
    apply decimalValue_nonneg. by apply isDecimalForm_digits in Hdec as [_ Hall].
  - intros Hacc _. apply extractPortDetails_accepted in Hacc as [details Hd].
    exists details. split; [done|].
    rewrite (handleConnection_registered port details h Hd). split; [done|].
    simpl. apply getConnection_addConnection_eq.
  - intros Hacc.
    assert (BaseBackgroundManager.extractPortDetails port = None) as Hd.
    { destruct (BaseBackgroundManager.extractPortDetails port) eqn:He; [|done].
      assert (isAcceptedName (name port) = true) as Ht
        by (apply extractPortDetails_accepted; eauto).
      congruence. }
    rewrite (handleConnection_rejected port h Hd). split; [done|].
    intros Hn fuel behaviour msg. simpl. by apply message_unattached.
Qed.

(** C2 as stated fails: names that are not of the wire contract's form are
    registered.  A negative and a fractional numeral are read as such, and
    segments after the second are ignored. *)
Lemma C2_counterexample :
  (isWireName "popup:-5" = false /\
   ConnectionManager.getConnection {| layer := Popup; tabId := Js.Finite (-5) 0 |}
     (BaseBackgroundManager.connectionManager
        (fst (BaseBackgroundManager.handleConnection
                {| portId := 2; name := "popup:-5" |} BaseBackgroundManager.new)))
   = Some {| portId := 2; name := "popup:-5" |}) /\
  (isWireName "popup:1.5" = false /\
   ConnectionManager.getConnection {| layer := Popup; tabId := Js.Finite 3 (-1) |}
     (BaseBackgroundManager.connectionManager
        (fst (BaseBackgroundManager.handleConnection
                {| portId := 3; name := "popup:1.5" |} BaseBackgroundManager.new)))
   = Some {| portId := 3; name := "popup:1.5" |}) /\
  (isWireName "popup:42:x" = false /\
   ConnectionManager.getConnection {| layer := Popup; tabId := Js.Finite 21 1 |}
     (BaseBackgroundManager.connectionManager
        (fst (BaseBackgroundManager.handleConnection
                {| portId := 4; name := "popup:42:x" |} BaseBackgroundManager.new)))
   = Some {| portId := 4; name := "popup:42:x" |}).
Proof. vm_compute. repeat split. Qed.

(** Above [2^53] two names of the wire contract can denote the same
    number: the port of the second takes the place of the first. *)
Example wire_names_collide_above_2_53 :
  BaseBackgroundManager.extractPortDetails
    {| portId := 1; name := "popup:9007199254740992" |}
  = BaseBackgroundManager.extractPortDetails
      {| portId := 2; name := "popup:9007199254740993" |}.
Proof. vm_compute. reflexivity. Qed.

(** The examples of the specification: ["popup:42"] registers under
    (42, popup); ["bogus:42"] and ["popup:abc"] are rejected. *)
Example handleConnection_popup_42 :
  BaseBackgroundManager.extractPortDetails {| portId := 1; name := "popup:42" |}
  = Some {| layer := Popup; tabId := Js.ofZ 42 |}.
Proof. vm_compute. reflexivity. Qed.

Example handleConnection_bogus :
  BaseBackgroundManager.extractPortDetails {| portId := 1; name := "bogus:42" |} = None /\
  BaseBackgroundManager.extractPortDetails {| portId := 1; name := "popup:abc" |} = None /\
  BaseBackgroundManager.extractPortDetails {| portId := 1; name := "popup" |} = None.
Proof. vm_compute. repeat split. Qed.

(** ** ListenerManager *)

Section ListenerManagerFacts.
Import ListenerManager.
Implicit Types (lm : t) (u : Unsubscribe) (us : list Unsubscribe)
  (ty : string) (listener : BaseMessageListener).

Lemma setAdd_nonempty listener (s : list BaseMessageListener) : setAdd listener s <> [].
Proof.
  unfold setAdd. destruct (decide (listener ∈ s)) as [Hin|_].
  - intros ->. by apply elem_of_nil in Hin.
  - by destruct s.
Qed.

(** [subscribe] when the type has a [Set] already. *)
Lemma subscribe_existing ty listener lm r :
  listeners lm !! ty = Some r ->
  subscribe ty listener lm =
    ({| sets := alter (setAdd listener) r (sets lm); listeners := listeners lm |},
     {| capturedSet := r; capturedType := ty; capturedListener := listener |}).
Proof. intros Hl. unfold subscribe. by rewrite Hl. Qed.

(** [subscribe] when the type has none: a new [Set] is allocated. *)
Lemma subscribe_fresh ty listener lm :
  listeners lm !! ty = None ->
  subscribe ty listener lm =
    ({| sets := sets lm ++ [[listener]];
        listeners := <[ty := length (sets lm)]> (listeners lm) |},
     {| capturedSet := length (sets lm); capturedType := ty;
        capturedListener := listener |}).
Proof.
  intros Hl. unfold subscribe. rewrite Hl. simpl. f_equal. f_equal.
  rewrite <- (Nat.add_0_r (length (sets lm))) at 1.
  by rewrite alter_app_r.
Qed.

Lemma invariant_new : listenersInvariant new [].
Proof.
  repeat split; simpl.
  - intros ty r Hl. by rewrite lookup_empty in Hl.
  - intros u Hu. by apply elem_of_nil in Hu.
  - intros u ty Hu. by apply elem_of_nil in Hu.
  - intros ty1 ty2 r Hl. by rewrite lookup_empty in Hl.
Qed.

Lemma invariant_subscribe ty listener lm us :
  listenersInvariant lm us ->
  listenersInvariant (fst (subscribe ty listener lm))
                     (snd (subscribe ty listener lm) :: us).
Proof.
  intros (Ha & Hb & Hc & Hd).
  destruct (listeners lm !! ty) as [r|] eqn:Hty.
  - rewrite (subscribe_existing ty listener lm r Hty). simpl.
    repeat split; simpl.
    + intros ty' r' Hl. destruct (Ha _ _ Hl) as (s & Hs & Hne).
      destruct (decide (r = r')) as [->|Hr].
      * exists (setAdd listener s). rewrite list_lookup_alter_eq, Hs.
        split; [done | apply setAdd_nonempty].
      * exists s. by rewrite list_lookup_alter_ne.
    + intros u Hu. rewrite length_alter.
      apply elem_of_cons in Hu as [->|Hu]; [|by apply Hb].
      simpl. destruct (Ha _ _ Hty) as (s & Hs & _).
      by apply lookup_lt_Some in Hs.
    + intros u ty' Hu Hl. apply elem_of_cons in Hu as [->|Hu]; [|by apply Hc].
      simpl in *. by apply (Hd ty' ty r).
    + done.
  - rewrite (subscribe_fresh ty listener lm Hty). simpl.
    assert (forall ty' r', listeners lm !! ty' = Some r' -> r' < length (sets lm))
      as Hlt.
    { intros ty' r' Hl. destruct (Ha _ _ Hl) as (s & Hs & _).
      by apply lookup_lt_Some in Hs. }
    repeat split; simpl.
    + intros ty' r' Hl. apply lookup_insert_Some in Hl as [[<- <-]|[Hne Hl]].
      * exists [listener]. split; [|done].
        rewrite lookup_app_r by done. by rewrite Nat.sub_diag.
      * destruct (Ha _ _ Hl) as (s & Hs & Hnes). exists s. split; [|done].
        by apply lookup_app_l_Some.
    + intros u Hu. rewrite length_app. simpl.
      apply elem_of_cons in Hu as [->|Hu]; simpl; [lia|].
      specialize (Hb u Hu). lia.
    + intros u ty' Hu Hl. apply lookup_insert_Some in Hl as [[<- Heq]|[Hne Hl]].
      * apply elem_of_cons in Hu as [->|Hu]; [done|].
        specialize (Hb u Hu). lia.
      * apply elem_of_cons in Hu as [->|Hu]; [|by apply Hc].
        simpl in Hl. apply Hlt in Hl. lia.
    + intros ty1 ty2 r Hl1 Hl2.
      apply lookup_insert_Some in Hl1 as [[<- <-]|[Hne1 Hl1]];
        apply lookup_insert_Some in Hl2 as [[<- Heq]|[Hne2 Hl2]]; try done.
      * apply Hlt in Hl2. lia.
      * apply Hlt in Hl1. lia.
      * by apply (Hd ty1 ty2 r).
Qed.

Lemma invariant_unsubscribe u lm us :
  u ∈ us -> listenersInvariant lm us -> listenersInvariant (unsubscribe u lm) us.
Proof.
  intros Hu (Ha & Hb & Hc & Hd). unfold unsubscribe.
  destruct (length _ =? 0)%nat eqn:Hlen.
  - apply Nat.eqb_eq in Hlen. repeat split; simpl.
    + intros ty r Hl. apply lookup_delete_Some in Hl as [Hne Hl].
      destruct (Ha _ _ Hl) as (s & Hs & Hnes). exists s. split; [|done].
      rewrite list_lookup_alter_ne; [done|].
      intros <-. apply Hne. symmetry. by apply Hc.
    + intros u' Hu'. rewrite length_alter. by apply Hb.
    + intros u' ty Hu' Hl. apply lookup_delete_Some in Hl as [_ Hl]. by apply Hc.
    + intros ty1 ty2 r Hl1 Hl2.
      apply lookup_delete_Some in Hl1 as [_ Hl1].
      apply lookup_delete_Some in Hl2 as [_ Hl2]. by apply (Hd ty1 ty2 r).
  - apply Nat.eqb_neq in Hlen. repeat split; simpl.
    + intros ty r Hl. destruct (Ha _ _ Hl) as (s & Hs & Hnes).
      destruct (decide (capturedSet u = r)) as [<-|Hr].
      * rewrite list_lookup_alter_eq, Hs in Hlen. simpl in Hlen.
        exists (setDelete (capturedListener u) s).
        rewrite list_lookup_alter_eq, Hs. split; [done|].
        intros Hnil. rewrite Hnil in Hlen. done.
      * exists s. by rewrite list_lookup_alter_ne.
    + intros u' Hu'. rewrite length_alter. by apply Hb.
    + done.
    + done.
Qed.

Lemma invariant_clear lm us : listenersInvariant lm us -> listenersInvariant (clear lm) us.
Proof.
  intros (Ha & Hb & Hc & Hd). repeat split; simpl.
  - intros ty r Hl. by rewrite lookup_empty in Hl.
  - done.
  - intros u ty _ Hl. by rewrite lookup_empty in Hl.
  - intros ty1 ty2 r Hl. by rewrite lookup_empty in Hl.
Qed.

(** Every reachable manager satisfies the invariant. *)
Lemma Reachable_invariant lm us : Reachable lm us -> listenersInvariant lm us.
Proof.
  induction 1.
  - apply invariant_new.
  - by apply invariant_subscribe.
  - by apply invariant_unsubscribe.
  - by apply invariant_clear.
Qed.

Lemma subscribers_lookup ty lm :
  subscribers ty lm =
  match listeners lm !! ty with Some r => deref r lm | None => [] end.
Proof.
  unfold subscribers, registry. rewrite lookup_fmap.
  by destruct (listeners lm !! ty).
Qed.

(** In a reachable manager a type without subscribers has no entry. *)
Lemma no_subscribers_no_entry ty lm us :
  listenersInvariant lm us -> subscribers ty lm = [] -> listeners lm !! ty = None.
Proof.
  intros (Ha & _) Hs. rewrite subscribers_lookup in Hs.
  destruct (listeners lm !! ty) as [r|] eqn:Hl; [|done].
  destruct (Ha _ _ Hl) as (s & Hr & Hne).
  unfold deref in Hs. rewrite Hr in Hs. simpl in Hs. congruence.
Qed.

(** Registration order: a new subscriber goes to the end of the
    subscribers of its type, a known one keeps its place, and the other
    types are not touched. *)
Lemma subscribers_subscribe ty listener lm us :
  listenersInvariant lm us ->
  subscribers ty (fst (subscribe ty listener lm)) = setAdd listener (subscribers ty lm).
Proof.
  intros (Ha & _). rewrite !subscribers_lookup.
  destruct (listeners lm !! ty) as [r|] eqn:Hty.
  - rewrite (subscribe_existing ty listener lm r Hty). simpl. rewrite Hty.
    destruct (Ha _ _ Hty) as (s & Hs & _). unfold deref. simpl.
    by rewrite list_lookup_alter_eq, Hs.
  - rewrite (subscribe_fresh ty listener lm Hty). simpl.
    rewrite lookup_insert_eq. unfold deref. simpl.
    rewrite lookup_app_r by done. by rewrite Nat.sub_diag.
Qed.

Lemma subscribers_subscribe_other ty ty' listener lm us :
  listenersInvariant lm us -> ty <> ty' ->
  subscribers ty' (fst (subscribe ty listener lm)) = subscribers ty' lm.
Proof.
  intros (Ha & _ & _ & Hd) Hne. rewrite !subscribers_lookup.
  destruct (listeners lm !! ty) as [r|] eqn:Hty.
  - rewrite (subscribe_existing ty listener lm r Hty). simpl.
    destruct (listeners lm !! ty') as [r'|] eqn:Hty'; [|done].
    unfold deref. simpl. rewrite list_lookup_alter_ne; [done|].
    intros <-. apply Hne. by apply (Hd ty ty' r).
  - rewrite (subscribe_fresh ty listener lm Hty). simpl.
    rewrite lookup_insert_ne by done.
    destruct (listeners lm !! ty') as [r'|] eqn:Hty'; [|done].
    destruct (Ha _ _ Hty') as (s & Hs & _). unfold deref. simpl.
    by rewrite (lookup_app_l_Some _ _ _ _ Hs), Hs.
Qed.

(** Calling the same closure twice in a row: the second call changes
    nothing. *)
Lemma unsubscribe_twice u lm : unsubscribe u (unsubscribe u lm) = unsubscribe u lm.
Proof.
  assert (forall s : list BaseMessageListener,
            setDelete (capturedListener u) (setDelete (capturedListener u) s)
            = setDelete (capturedListener u) s) as Hidem.
  { intros s. unfold setDelete. induction s as [|x s IH]; [done|].
    rewrite (filter_cons _ x s). destruct (decide (x ≠ capturedListener u)).
    - rewrite filter_cons. rewrite decide_True by done. by rewrite IH.
    - done. }
  unfold unsubscribe.
  destruct (length (default [] (alter _ _ (sets lm) !! _)) =? 0)%nat eqn:Hlen; simpl.
  - rewrite list_alter_alter_eq.
    rewrite (list_alter_ext _ (setDelete (capturedListener u)) _ (sets lm)
               (capturedSet u)) by (intros; try apply Hidem; done).
    rewrite Hlen. f_equal. apply delete_delete_eq.
  - rewrite list_alter_alter_eq.
    rewrite (list_alter_ext _ (setDelete (capturedListener u)) _ (sets lm)
               (capturedSet u)) by (intros; try apply Hidem; done).
    by rewrite Hlen.
Qed.

(** What one listener call adds to the trace. *)
Lemma called_notified behaviour k listener message senderPort :
  fst (tryCatch (callListener behaviour k listener message senderPort)
         (fun error => emit (LoggerError "Listener error:" (ErrorDetails error))))
  = notified behaviour message senderPort k listener.
Proof.
  unfold callListener, tryCatch, notified.
  by destruct (snd (behaviour k listener message senderPort)).
Qed.

(** The loop of [notify] among listeners that do not call back: every
    member of the [Set] is called, in order; a throw is caught and
    logged; the loop comes to its end and the manager is as before. *)
Lemma dispatch_quiet fuel behaviour message senderPort r k
    (pending : list BaseMessageListener) lm :
  length pending <= fuel ->
  (forall j listener, listener ∈ pending ->
     fst (behaviour j listener message senderPort) = []) ->
  dispatch fuel behaviour message senderPort r k pending lm
  = {| effects := concat (imap (fun i => notified behaviour message senderPort (k + i))
                            pending);
       final := lm; returned := true |}.
Proof.
  revert k pending. induction fuel as [|fuel IH]; intros k pending Hlen Hq.
  - destruct pending; [done | simpl in Hlen; lia].
  - destruct pending as [|listener rest]; [done|].
    cbn [dispatch]. rewrite called_notified.
    rewrite (Hq k listener) by left. cbn [performAll fold_left].
    rewrite IH.
    + cbn [effects final returned concat imap]. rewrite Nat.add_0_r.
      do 3 f_equal. apply imap_ext. intros i x _. simpl. f_equal. lia.
    + simpl in Hlen. lia.
    + intros j l Hl. apply Hq. by right.
Qed.




(** [notify] among subscribers that do not call back. *)
Lemma notify_quiet fuel behaviour message senderPort lm :
  subscribers (type message) lm <> [] ->
  quiet behaviour message senderPort (subscribers (type message) lm) ->
  length (subscribers (type message) lm) <= fuel ->
  notify fuel behaviour message senderPort lm
  = {| effects := concat (imap (notified behaviour message senderPort)
                            (subscribers (type message) lm));
       final := lm; returned := true |}.
Proof.
  rewrite subscribers_lookup. unfold notify.
  destruct (listeners lm !! type message) as [r|]; [|done].
  intros _ Hq Hlen. by rewrite dispatch_quiet.
Qed.
End ListenerManagerFacts.

(** C3 (the code departs from the claim).  The claim: a second or later
    call of the closure returned by [subscribe(type, listener)] leaves the
    registry unchanged, whatever happened in between.  On the code the
    closure keeps the [Set] object it was created with.  After listener 1
    has been unsubscribed from ["t"] (first call, the type entry is
    removed) and listener 2 has been subscribed to ["t"] (a new [Set]),
    the second call of the first closure finds its own, detached [Set]
    empty and deletes the entry of ["t"], which now holds listener 2. *)
Theorem C3_second_unsubscribe_evicts_new_subscriber :
  let first := ListenerManager.subscribe "t" 1 ListenerManager.new in
  let afterFirstCall := ListenerManager.unsubscribe (snd first) (fst first) in
  let second := ListenerManager.subscribe "t" 2 afterFirstCall in
  let afterSecondCall := ListenerManager.unsubscribe (snd first) (fst second) in
  Reachable (fst second) [snd second; snd first] /\
  ListenerManager.registry afterFirstCall = ∅ /\
  ListenerManager.registry (fst second) = {[ "t" := [2] ]} /\
  ListenerManager.registry afterSecondCall = ∅ /\
  ListenerManager.subscribers "t" afterSecondCall = [].
Proof.
  intros first afterFirstCall second afterSecondCall. split.
  - apply Reachable_subscribe. apply Reachable_unsubscribe; [|left].
    apply Reachable_subscribe. apply Reachable_new.
  - vm_compute. repeat split.
Qed.

(** The loop over the live [Set]: with listeners 1 and 2 subscribed, a
    listener 1 that unsubscribes and subscribes itself again on its first
    call is called a second time, after listener 2; when every call does
    so the loop does not end. *)
Example notify_revisits_readded_listener :
  let first := ListenerManager.subscribe "t" 1 ListenerManager.new in
  let second := ListenerManager.subscribe "t" 2 (fst first) in
  let again :=
    [ListenerManager.CallUnsubscribe (snd first); ListenerManager.CallSubscribe "t" 1] in
  let once : ListenerManager.Behaviour :=
    fun k _ _ _ => match k with 0 => (again, Normal tt) | _ => ([], Normal tt) end in
  let always : ListenerManager.Behaviour := fun _ _ _ _ => (again, Normal tt) in
  let message := mkMessage "t" "d" in
  ListenerManager.effects (ListenerManager.notify 10 once message None (fst second))
    = [ListenerCall 1 message None; ListenerCall 2 message None;
       ListenerCall 1 message None] /\
  ListenerManager.returned (ListenerManager.notify 10 once message None (fst second))
    = true /\
  ListenerManager.returned (ListenerManager.notify 10 always message None (fst second))
    = false.
Proof. vm_compute. repeat split. Qed.



(** C8.  When the type of a message has no subscriber, [notify] logs
    exactly one warning, which carries the name of the sender when there
    is one, calls no subscriber and returns; it has no write to the
    registry: the manager afterwards is the manager before. *)
Theorem C8_notify_without_subscribers
    (fuel : nat) (behaviour : ListenerManager.Behaviour) (message : BaseMessage)
    (senderPort : option Port) (lm : ListenerManager.t)
    (us : list ListenerManager.Unsubscribe) :
  Reachable lm us ->
  ListenerManager.subscribers (type message) lm = [] ->
  ListenerManager.notify fuel behaviour message senderPort lm
    = {| ListenerManager.effects :=
           [LoggerWarn "Not listened port event"
              (UnlistenedDetails (name <$> senderPort) (type message))];
         ListenerManager.final := lm;
         ListenerManager.returned := true |} /\
  listenerCalls
    (ListenerManager.effects (ListenerManager.notify fuel behaviour message senderPort lm))
  = [].
Proof.
  intros Hreach Hnone.
  apply Reachable_invariant in Hreach.
  pose proof (no_subscribers_no_entry _ _ _ Hreach Hnone) as Hentry.
  unfold ListenerManager.notify. rewrite Hentry. done.
Qed.

(** ** BaseClientManager *)

Section ClientFacts.
Import BaseClientManager.
Implicit Types (c : t) (w : World) (m : BaseMessage).

Lemma sendMessage_unconnected m c :
  port c = None ->
  sendMessage m c =
    ({| layer := layer c; port := None; listenerManager := listenerManager c;
        pendingMessages := pendingMessages c ++ [m] |}, [TabsQuery]).
Proof. intros Hp. unfold sendMessage, initPort. by rewrite Hp. Qed.

Lemma sendMessage_connected m c p :
  port c = Some p -> sendMessage m c = (c, [PostMessage p m]).
Proof. intros Hp. unfold sendMessage. by rewrite Hp. Qed.

Lemma posts_map_PostMessage p (ms : list BaseMessage) :
  posts (map (PostMessage p) ms) = map (pair p) ms.
Proof. unfold posts. induction ms as [|m ms IH]; csimpl; [done|]. by rewrite IH. Qed.

(** A resolution that yields a usable target id opens one channel and
    drains the queue on it, in order. *)
Lemma tabsQueryCallback_usable tabs fresh c z :
  usableTabId tabs = Some z ->
  tabsQueryCallback tabs fresh c =
    let p := {| portId := fresh; name := channelName (layer c) z |} in
    ({| layer := layer c; port := Some p; listenerManager := listenerManager c;
        pendingMessages := [] |},
     [RuntimeConnect p;
      LoggerInfo ("Manager for " +:+ layerValue (layer c) +:+ " initialized")
        (TabIdDetails z)] ++ map (PostMessage p) (pendingMessages c)).
Proof. intros Hz. unfold tabsQueryCallback. by rewrite Hz. Qed.

Lemma tabsQueryCallback_unusable tabs fresh c :
  usableTabId tabs = None ->
  tabsQueryCallback tabs fresh c =
    (c, [LoggerError ("No tabs found for " +:+ layerValue (layer c) +:+ " manager")
           NoDetails]).
Proof. intros Hz. unfold tabsQueryCallback. by rewrite Hz. Qed.

(** While no channel handle exists, the public operations and failed
    resolutions keep it absent, post nothing, and the queue grows by the
    messages sent, in order. *)
Lemma run_beforeChannel fuel behaviour evs w :
  port (manager w) = None ->
  forallb beforeChannel evs = true ->
  port (manager (fst (run fuel behaviour evs w))) = None /\
  layer (manager (fst (run fuel behaviour evs w))) = layer (manager w) /\
  pendingMessages (manager (fst (run fuel behaviour evs w)))
    = pendingMessages (manager w) ++ sent evs /\
  posts (snd (run fuel behaviour evs w)) = [].
Proof.
  revert behaviour w. induction evs as [|ev evs IH]; intros behaviour w Hp Hall.
  - simpl. by rewrite app_nil_r.
  - simpl in Hall. apply andb_true_iff in Hall as [Hev Hall].
    assert (exists w1 t1,
      step fuel (behaviour 0) ev w = (w1, t1) /\ port (manager w1) = None /\
      layer (manager w1) = layer (manager w) /\
      pendingMessages (manager w1)
        = pendingMessages (manager w) ++ sent [ev] /\
      posts t1 = []) as (w1 & t1 & Hstep & Hp1 & Hl1 & Hq1 & Ht1).
    { destruct ev as [m|ty listener|u|tabs|p m|p]; simpl in Hev; try done.
      - simpl. rewrite (sendMessage_unconnected m _ Hp). eauto 10.
      - simpl. unfold subscribe.
        destruct (ListenerManager.subscribe _ _ _). simpl.
        do 2 eexists. split; [done|]. simpl. by rewrite app_nil_r.
      - simpl. do 2 eexists. split; [done|]. simpl. by rewrite app_nil_r.
      - simpl. destruct (queries w) as [|n].
        + do 2 eexists. split; [done|]. by rewrite app_nil_r.
        + destruct (usableTabId tabs) eqn:Hu; [done|].
          rewrite (tabsQueryCallback_unusable _ _ _ Hu). simpl.
          do 2 eexists. split; [done|]. simpl. by rewrite app_nil_r. }
    cbn [run]. rewrite Hstep.
    destruct (IH (fun i => behaviour (S i)) w1 Hp1 Hall) as (Hp2 & Hl2 & Hq2 & Ht2).
    destruct (run fuel (fun i => behaviour (S i)) evs w1) as [w2 t2]. simpl in *.
    repeat split; [done | congruence | |].
    + rewrite Hq2, Hq1. rewrite <- app_assoc. f_equal.
      by destruct ev.
    + unfold posts in *. by rewrite omap_app, Ht1, Ht2.
Qed.

(** On [port = null] every [sendMessage] calls [chrome.tabs.query]. *)
Lemma step_sendMessage_unconnected fuel behaviour m w :
  port (manager w) = None ->
  queries (fst (step fuel behaviour (SendMessage m) w)) = S (queries w) /\
  snd (step fuel behaviour (SendMessage m) w) = [TabsQuery].
Proof.
  intros Hp. simpl. rewrite (sendMessage_unconnected m _ Hp). simpl.
  split; [lia | done].
Qed.
End ClientFacts.

(** C5 (the code departs from the claim).  The claim: while one channel
    establishment is in flight, further [sendMessage] calls never start a
    second one.  On the code [initPort] only tests [this.port], which is
    still absent while [chrome.tabs.query] is outstanding, so every such
    [sendMessage] calls [chrome.tabs.query] again.  After two calls two
    resolutions are outstanding, and when both complete
    [chrome.runtime.connect] is called twice: two channels are open and
    the manager has kept the second one only. *)
Theorem C5_second_establishment_started
    (fuel : nat) (behaviour : nat -> ListenerManager.Behaviour) (m1 m2 : BaseMessage) :
  let sends :=
    BaseClientManager.run fuel behaviour
      [BaseClientManager.SendMessage m1; BaseClientManager.SendMessage m2]
      (BaseClientManager.start Popup) in
  let tabs := [BaseClientManager.mkTab (Some (Js.ofZ 7))] in
  let resolved :=
    BaseClientManager.run fuel behaviour
      [BaseClientManager.TabsResult tabs; BaseClientManager.TabsResult tabs]
      (fst sends) in
  snd sends = [TabsQuery; TabsQuery] /\
  BaseClientManager.queries (fst sends) = 2 /\
  BaseClientManager.connectedPorts (snd resolved)
    = [ {| portId := 0; name := "popup:7" |}; {| portId := 1; name := "popup:7" |} ] /\
  BaseClientManager.channels (fst resolved)
    = [ {| portId := 0; name := "popup:7" |}; {| portId := 1; name := "popup:7" |} ] /\
  BaseClientManager.port (BaseClientManager.manager (fst resolved))
    = Some {| portId := 1; name := "popup:7" |}.
Proof. vm_compute. repeat split. Qed.

(** C7.  Start from a manager without a channel handle and let any
    sequence of public calls and failed resolutions happen, [n] of them
    calls of [sendMessage]: nothing is posted meanwhile.  When a
    resolution then yields a usable target id, the callback opens the
    channel and posts exactly the queued messages on it (the [n] messages
    when the queue was empty at the start), in the order of the calls, and
    leaves the queue empty.  Flushing again or a later callback posts none
    of them again, and a [sendMessage] after that posts its message at
    once on the current handle and queues nothing. *)
Theorem C7_queue_flushed_once_in_order
    (fuel : nat) (behaviour : nat -> ListenerManager.Behaviour)
    (next : ListenerManager.Behaviour) (w : BaseClientManager.World)
    (evs : list BaseClientManager.Event) (tabs : list BaseClientManager.Tab)
    (z : Js.number) :
  BaseClientManager.port (BaseClientManager.manager w) = None ->
  forallb beforeChannel evs = true ->
  BaseClientManager.usableTabId tabs = Some z ->
  let w1 := fst (BaseClientManager.run fuel behaviour evs w) in
  let c1 := BaseClientManager.manager w1 in
  let established :=
    BaseClientManager.tabsQueryCallback tabs (BaseClientManager.nextPort w1) c1 in
  let p := {| portId := BaseClientManager.nextPort w1;
              name := BaseClientManager.channelName
                        (BaseClientManager.layer (BaseClientManager.manager w)) z |} in
  posts (snd (BaseClientManager.run fuel behaviour evs w)) = [] /\
  posts (snd established)
    = map (pair p)
        (BaseClientManager.pendingMessages (BaseClientManager.manager w) ++ sent evs) /\
  (BaseClientManager.queries w1 <> 0 ->
   snd (BaseClientManager.step fuel next (BaseClientManager.TabsResult tabs) w1)
     = snd established) /\
  BaseClientManager.port (fst established) = Some p /\
  BaseClientManager.pendingMessages (fst established) = [] /\
  BaseClientManager.flushPendingMessages (fst established) = (fst established, []) /\
  (forall tabs' fresh',
     posts (snd (BaseClientManager.tabsQueryCallback tabs' fresh' (fst established)))
     = []) /\
  (forall m,
     BaseClientManager.sendMessage m (fst established)
     = (fst established, [PostMessage p m])).
Proof.
  intros Hp Hall Hz w1 c1 established p.
  destruct (run_beforeChannel fuel behaviour evs w Hp Hall) as (Hp1 & Hl1 & Hq1 & Ht1).
  fold w1 in Hp1, Hl1, Hq1. fold c1 in Hp1, Hl1, Hq1.
  subst established.
  rewrite (tabsQueryCallback_usable tabs _ c1 z Hz). cbn zeta.
  rewrite Hl1. fold p. cbn [fst snd].
  repeat split.
  - done.
  - unfold posts. rewrite omap_app. csimpl. fold (posts (map (PostMessage p)
      (BaseClientManager.pendingMessages c1))).
    by rewrite posts_map_PostMessage, Hq1.
  - intros Hq. simpl. destruct (BaseClientManager.queries w1) as [|n]; [done|].
    fold c1. by rewrite (tabsQueryCallback_usable tabs _ c1 z Hz), Hl1.
  - intros tabs' fresh'. unfold BaseClientManager.tabsQueryCallback.
    destruct (BaseClientManager.usableTabId tabs'); done.
Qed.

(** C9.  With an established channel, the disconnect event leaves the
    manager with an empty listener registry and without a channel handle,
    and logs the disconnection.  The next [sendMessage] then queues its
    message and calls [chrome.tabs.query] anew; when that resolution opens
    the new channel the registry is still empty, so no earlier
    subscription has survived. *)
Theorem C9_disconnect_clears_subscriptions
    (c : BaseClientManager.t) (p disconnected : Port) (m : BaseMessage)
    (tabs : list BaseClientManager.Tab) (fresh : nat) :
  BaseClientManager.port c = Some p ->
  let c' := fst (BaseClientManager.handlePortDisconnect disconnected c) in
  let resent := BaseClientManager.sendMessage m c' in
  ListenerManager.registry (BaseClientManager.listenerManager c') = ∅ /\
  (forall ty, ListenerManager.subscribers ty (BaseClientManager.listenerManager c') = []) /\
  BaseClientManager.port c' = None /\
  snd (BaseClientManager.handlePortDisconnect disconnected c)
    = [LoggerInfo "Port disconnected" (PortNameDetails (name disconnected))] /\
  snd resent = [TabsQuery] /\
  BaseClientManager.pendingMessages (fst resent)
    = BaseClientManager.pendingMessages c ++ [m] /\
  BaseClientManager.port (fst resent) = None /\
  ListenerManager.registry
    (BaseClientManager.listenerManager
       (fst (BaseClientManager.tabsQueryCallback tabs fresh (fst resent)))) = ∅.
Proof.
  intros _ c' resent. subst resent.
  assert (BaseClientManager.port c' = None) as Hp by done.
  rewrite (sendMessage_unconnected m c' Hp). simpl.
  assert (ListenerManager.registry (ListenerManager.clear
            (BaseClientManager.listenerManager c)) = ∅) as Hclear.
  { unfold ListenerManager.registry, ListenerManager.clear. simpl. apply fmap_empty. }
  repeat split; try done.
  unfold BaseClientManager.tabsQueryCallback.
  destruct (BaseClientManager.usableTabId tabs); done.
Qed.

(** ** BaseBackgroundManager: disconnection *)

Section HubDisconnect.
Import BaseBackgroundManager.
Implicit Types (h : t) (port : Port) (details : ConnectionOptions).

Lemma disconnectAll_listeners port handlers h :
  onMessage (fst (disconnectAll port handlers h)) = onMessage h /\
  onDisconnect (fst (disconnectAll port handlers h)) = onDisconnect h /\
  listenerManager (fst (disconnectAll port handlers h)) = listenerManager h.
Proof.
  revert h. induction handlers as [|[p d] handlers IH]; intros h; [done|].
  simpl. destruct (decide (p = port)) as [->|Hne]; [|apply IH].
  specialize (IH (fst (handlePortDisconnect d h))).
  unfold handlePortDisconnect in *. simpl in *.
  destruct (disconnectAll port handlers _) as [h2 t2]. simpl in *. done.
Qed.

(** A pair without a handle stays without one while handlers run. *)
Lemma disconnectAll_keeps_absent port handlers details h :
  ConnectionManager.getConnection details (connectionManager h) = None ->
  ConnectionManager.getConnection details
    (connectionManager (fst (disconnectAll port handlers h))) = None.
Proof.
  revert h. induction handlers as [|[p d] handlers IH]; intros h Hnone; [done|].
  simpl. destruct (decide (p = port)) as [->|Hne]; [|by apply IH].
  specialize (IH (fst (handlePortDisconnect d h))).
  unfold handlePortDisconnect in *. simpl in *.
  destruct (disconnectAll port handlers _) as [h2 t2]. simpl in *.
  apply IH. destruct (decide (d = details)) as [->|Hd].
  - apply getConnection_removeConnection_eq.
  - by rewrite getConnection_removeConnection_ne.
Qed.

(** Once the disconnect listeners of a port have run, no handle is left
    under any pair that one of them has captured. *)
Lemma disconnectAll_removes port handlers details h :
  (port, details) ∈ handlers ->
  ConnectionManager.getConnection details
    (connectionManager (fst (disconnectAll port handlers h))) = None.
Proof.
  revert h. induction handlers as [|[p d] handlers IH]; intros h Hin.
  - by apply elem_of_nil in Hin.
  - simpl. apply elem_of_cons in Hin as [Heq|Hin].
    + injection Heq as <- <-. rewrite decide_True by done.
      pose proof (disconnectAll_keeps_absent port handlers details
                    (fst (handlePortDisconnect details h))) as Hkeep.
      unfold handlePortDisconnect in *. simpl in *.
      destruct (disconnectAll port handlers _) as [h2 t2]. simpl in *.
      apply Hkeep. apply getConnection_removeConnection_eq.
    + destruct (decide (p = port)) as [->|Hne]; [|by apply IH].
      specialize (IH (fst (handlePortDisconnect d h)) Hin).
      unfold handlePortDisconnect in *. simpl in *.
      destruct (disconnectAll port handlers _) as [h2 t2]. simpl in *. done.
Qed.
End HubDisconnect.

(** C10.  Let two distinct ports connect whose names parse to the same
    (target, role).  The second registration overwrites the first, and the
    disconnect listener of the first port stays attached.  When the first
    port then disconnects, at once or in any later state in which its
    listener is attached and the second port occupies the pair, its
    listener removes the entry of the pair: [getConnection] finds no
    handle there although the second port has not disconnected and still
    has its listeners. *)
Theorem C10_stale_disconnect_evicts_live_handle
    (h : BaseBackgroundManager.t) (p1 p2 : Port) (details : ConnectionOptions) :
  BaseBackgroundManager.extractPortDetails p1 = Some details ->
  BaseBackgroundManager.extractPortDetails p2 = Some details ->
  p1 <> p2 ->
  let h1 := fst (BaseBackgroundManager.connect p1 h) in
  let h2 := fst (BaseBackgroundManager.connect p2 h1) in
  let h3 := fst (BaseBackgroundManager.disconnect p1 h2) in
  ConnectionManager.getConnection details (BaseBackgroundManager.connectionManager h1)
    = Some p1 /\
  ConnectionManager.getConnection details (BaseBackgroundManager.connectionManager h2)
    = Some p2 /\
  (p1, details) ∈ BaseBackgroundManager.onDisconnect h2 /\
  ConnectionManager.getConnection details (BaseBackgroundManager.connectionManager h3)
    = None /\
  p2 ∈ BaseBackgroundManager.onMessage h3 /\
  (p2, details) ∈ BaseBackgroundManager.onDisconnect h3 /\
  (forall h',
     (p1, details) ∈ BaseBackgroundManager.onDisconnect h' ->
     ConnectionManager.getConnection details
       (BaseBackgroundManager.connectionManager h') = Some p2 ->
     ConnectionManager.getConnection details
       (BaseBackgroundManager.connectionManager
          (fst (BaseBackgroundManager.disconnect p1 h'))) = None /\
     BaseBackgroundManager.onMessage (fst (BaseBackgroundManager.disconnect p1 h'))
       = BaseBackgroundManager.onMessage h' /\
     BaseBackgroundManager.onDisconnect (fst (BaseBackgroundManager.disconnect p1 h'))
       = BaseBackgroundManager.onDisconnect h').
Proof.
  intros He1 He2 Hne h1 h2 h3.
  assert (h1 = fst (BaseBackgroundManager.handleConnection p1 h)) as Hh1 by done.
  rewrite (handleConnection_registered p1 details h He1) in Hh1. simpl in Hh1.
  assert (h2 = fst (BaseBackgroundManager.handleConnection p2 h1)) as Hh2 by done.
  rewrite (handleConnection_registered p2 details h1 He2) in Hh2. simpl in Hh2.
  assert ((p1, details) ∈ BaseBackgroundManager.onDisconnect h2) as Hattached.
  { rewrite Hh2, Hh1. simpl. rewrite !elem_of_app, !list_elem_of_singleton. auto. }
  destruct (disconnectAll_listeners p1 (BaseBackgroundManager.onDisconnect h2) h2)
    as (Hm & Hd & _).
  repeat split.
  - rewrite Hh1. simpl. apply getConnection_addConnection_eq.
  - rewrite Hh2. simpl. apply getConnection_addConnection_eq.
  - done.
  - by apply disconnectAll_removes.
  - unfold h3, BaseBackgroundManager.disconnect. rewrite Hm, Hh2. simpl.
    rewrite elem_of_app, list_elem_of_singleton. auto.
  - unfold h3, BaseBackgroundManager.disconnect. rewrite Hd, Hh2. simpl.
    rewrite elem_of_app, list_elem_of_singleton. auto.
  - by apply disconnectAll_removes.
  - apply disconnectAll_listeners.
  - apply disconnectAll_listeners.
Qed.

(** ** The theorems at concrete inputs *)

(** C1 at a registry with two targets: the role selector [popup] addresses
    the popup of target 5 only. *)
Lemma C1_sendMessage_addressing_witness :
  wfConnections
    (ConnectionManager.addConnection {| layer := Popup; tabId := Js.ofZ 5 |}
       {| portId := 1; name := "popup:5" |}
       (ConnectionManager.addConnection {| layer := DevTools; tabId := Js.ofZ 7 |}
          {| portId := 2; name := "devtools:7" |} ConnectionManager.empty)) /\
  BaseBackgroundManager.sendMessage None (Some Popup) (mkMessage "ping" "1")
    {| BaseBackgroundManager.connectionManager :=
         ConnectionManager.addConnection {| layer := Popup; tabId := Js.ofZ 5 |}
           {| portId := 1; name := "popup:5" |}
           (ConnectionManager.addConnection {| layer := DevTools; tabId := Js.ofZ 7 |}
              {| portId := 2; name := "devtools:7" |} ConnectionManager.empty);
       BaseBackgroundManager.listenerManager := ListenerManager.new;
       BaseBackgroundManager.onMessage := [];
       BaseBackgroundManager.onDisconnect := [] |}
  ≡ₚ [PostMessage {| portId := 1; name := "popup:5" |} (mkMessage "ping" "1")].
Proof.
  assert (wfConnections
    (ConnectionManager.addConnection {| layer := Popup; tabId := Js.ofZ 5 |}
       {| portId := 1; name := "popup:5" |}
       (ConnectionManager.addConnection {| layer := DevTools; tabId := Js.ofZ 7 |}
          {| portId := 2; name := "devtools:7" |} ConnectionManager.empty))) as Hwf.
  { apply wfConnections_addConnection, wfConnections_addConnection,
      wfConnections_empty. }
  split; [exact Hwf|].
  exact (proj1 (proj2 (proj2 (C1_sendMessage_addressing
    {| BaseBackgroundManager.connectionManager :=
         ConnectionManager.addConnection {| layer := Popup; tabId := Js.ofZ 5 |}
           {| portId := 1; name := "popup:5" |}
           (ConnectionManager.addConnection {| layer := DevTools; tabId := Js.ofZ 7 |}
              {| portId := 2; name := "devtools:7" |} ConnectionManager.empty);
       BaseBackgroundManager.listenerManager := ListenerManager.new;
       BaseBackgroundManager.onMessage := [];
       BaseBackgroundManager.onDisconnect := [] |}
    (mkMessage "ping" "1") Hwf))) Popup).
Defined.

(** C2 at the name ["popup:42"]. *)
Lemma C2_registered_iff_accepted_witness :
  isWireName "popup:42" = true /\ isAcceptedName "popup:42" = true.
Proof.
  split; [reflexivity|].
  apply (proj1 (proj1 (C2_registered_iff_accepted BaseBackgroundManager.new
                         {| portId := 1; name := "popup:42" |}) eq_refl)).
Defined.


(** C7 with three messages sent before the channel exists. *)
Lemma C7_queue_flushed_once_in_order_witness :
  BaseClientManager.port (BaseClientManager.manager (BaseClientManager.start Popup))
    = None /\
  forallb beforeChannel
    [BaseClientManager.SendMessage (mkMessage "a" "1");
     BaseClientManager.SendMessage (mkMessage "b" "2");
     BaseClientManager.SendMessage (mkMessage "c" "3")] = true /\
  BaseClientManager.usableTabId [BaseClientManager.mkTab (Some (Js.ofZ 7))]
    = Some (Js.ofZ 7) /\
  posts
    (snd (BaseClientManager.tabsQueryCallback
            [BaseClientManager.mkTab (Some (Js.ofZ 7))] 0
            (BaseClientManager.manager
               (fst (BaseClientManager.run 10 (fun _ => returns)
                       [BaseClientManager.SendMessage (mkMessage "a" "1");
                        BaseClientManager.SendMessage (mkMessage "b" "2");
                        BaseClientManager.SendMessage (mkMessage "c" "3")]
                       (BaseClientManager.start Popup))))))
  = [({| portId := 0; name := "popup:7" |}, mkMessage "a" "1");
     ({| portId := 0; name := "popup:7" |}, mkMessage "b" "2");
     ({| portId := 0; name := "popup:7" |}, mkMessage "c" "3")].
Proof.
  split; [reflexivity|]. split; [reflexivity|]. split; [reflexivity|].
  exact (proj1 (proj2 (C7_queue_flushed_once_in_order 10 (fun _ => returns) returns
    (BaseClientManager.start Popup)
    [BaseClientManager.SendMessage (mkMessage "a" "1");
     BaseClientManager.SendMessage (mkMessage "b" "2");
     BaseClientManager.SendMessage (mkMessage "c" "3")]
    [BaseClientManager.mkTab (Some (Js.ofZ 7))] (Js.ofZ 7) eq_refl eq_refl eq_refl))).
Defined.

(** C8 at a new manager. *)
Lemma C8_notify_without_subscribers_witness :
  Reachable ListenerManager.new [] /\
  ListenerManager.subscribers "t" ListenerManager.new = [] /\
  ListenerManager.notify 10 returns (mkMessage "t" "d")
    (Some {| portId := 1; name := "popup:5" |}) ListenerManager.new
  = {| ListenerManager.effects :=
         [LoggerWarn "Not listened port event" (UnlistenedDetails (Some "popup:5") "t")];
       ListenerManager.final := ListenerManager.new;
       ListenerManager.returned := true |}.
Proof.
  split; [apply Reachable_new|]. split; [reflexivity|].
  exact (proj1 (C8_notify_without_subscribers 10 returns
    (mkMessage "t" "d") (Some {| portId := 1; name := "popup:5" |})
    ListenerManager.new [] Reachable_new eq_refl)).
Defined.

(** C9 at a connected manager with one subscription. *)
Lemma C9_disconnect_clears_subscriptions_witness :
  BaseClientManager.port
    {| BaseClientManager.layer := Popup;
       BaseClientManager.port := Some {| portId := 0; name := "popup:7" |};
       BaseClientManager.listenerManager :=
         fst (ListenerManager.subscribe "t" 1 ListenerManager.new);
       BaseClientManager.pendingMessages := [] |}
    = Some {| portId := 0; name := "popup:7" |} /\
  ListenerManager.registry
    (BaseClientManager.listenerManager
       (fst (BaseClientManager.handlePortDisconnect {| portId := 0; name := "popup:7" |}
               {| BaseClientManager.layer := Popup;
                  BaseClientManager.port := Some {| portId := 0; name := "popup:7" |};
                  BaseClientManager.listenerManager :=
                    fst (ListenerManager.subscribe "t" 1 ListenerManager.new);
                  BaseClientManager.pendingMessages := [] |}))) = ∅.
Proof.
  split; [reflexivity|].
  exact (proj1 (C9_disconnect_clears_subscriptions
    {| BaseClientManager.layer := Popup;
       BaseClientManager.port := Some {| portId := 0; name := "popup:7" |};
       BaseClientManager.listenerManager :=
         fst (ListenerManager.subscribe "t" 1 ListenerManager.new);
       BaseClientManager.pendingMessages := [] |}
    {| portId := 0; name := "popup:7" |} {| portId := 0; name := "popup:7" |}
    (mkMessage "t" "d") [] 1 eq_refl)).
Defined.

(** C10 with two ports named ["popup:5"]. *)
Lemma C10_stale_disconnect_evicts_live_handle_witness :
  BaseBackgroundManager.extractPortDetails {| portId := 1; name := "popup:5" |}
    = Some {| layer := Popup; tabId := Js.Finite 5 0 |} /\
  BaseBackgroundManager.extractPortDetails {| portId := 2; name := "popup:5" |}
    = Some {| layer := Popup; tabId := Js.Finite 5 0 |} /\
  {| portId := 1; name := "popup:5" |} <> {| portId := 2; name := "popup:5" |} /\
  ConnectionManager.getConnection {| layer := Popup; tabId := Js.Finite 5 0 |}
    (BaseBackgroundManager.connectionManager
       (fst (BaseBackgroundManager.disconnect {| portId := 1; name := "popup:5" |}
          (fst (BaseBackgroundManager.connect {| portId := 2; name := "popup:5" |}
             (fst (BaseBackgroundManager.connect {| portId := 1; name := "popup:5" |}
                BaseBackgroundManager.new)))))))
  = None.
Proof.
  assert ({| portId := 1; name := "popup:5" |} <> {| portId := 2; name := "popup:5" |})
    as Hne by discriminate.
  split; [reflexivity|]. split; [reflexivity|]. split; [exact Hne|].
  exact (proj1 (proj2 (proj2 (proj2 (C10_stale_disconnect_evicts_live_handle
    BaseBackgroundManager.new {| portId := 1; name := "popup:5" |}
    {| portId := 2; name := "popup:5" |} {| layer := Popup; tabId := Js.Finite 5 0 |}
    eq_refl eq_refl Hne))))).
Defined.


(** * Further properties of the managers *)

(** ** ConnectionManager *)

Section ConnectionManagerMore.
Import ConnectionManager.
Implicit Types (cs : Connections) (options : ConnectionOptions) (port : Port).

Lemma objReplace_objReplace {K V} `{EqDecision K} (k : K) (v1 v2 : V) (o : list (K * V)) :
  objReplace k v2 (objReplace k v1 o) = objReplace k v2 o.
Proof.
  induction o as [|[k0 v0] o IH]; simpl; [done|].
  destruct (decide (k = k0)) as [->|Hne]; simpl.
  - by rewrite decide_True.
  - rewrite decide_False by done. by rewrite IH.
Qed.

Lemma objReplace_objInsertIndex {K V} `{EqDecision K} (index : K -> option Z)
    (i : Z) (k : K) (v1 v2 : V) (o : list (K * V)) :
  objGet k o = None ->
  objReplace k v2 (objInsertIndex index i k v1 o) = objInsertIndex index i k v2 o.
Proof.
  induction o as [|[k0 v0] o IH]; simpl.
  - intros _. by rewrite decide_True.
  - destruct (decide (k = k0)) as [->|Hne]; [done|]. intros Hg.
    destruct (index k0) as [j|]; [destruct (j <? i)%Z|]; simpl.
    + rewrite decide_False by done. by rewrite IH.
    + by rewrite decide_True.
    + by rewrite decide_True.
Qed.

Lemma objReplace_app_new {K V} `{EqDecision K} (k : K) (v1 v2 : V) (o : list (K * V)) :
  objGet k o = None ->
  objReplace k v2 (o ++ [(k, v1)]) = o ++ [(k, v2)].
Proof.
  induction o as [|[k0 v0] o IH]; simpl.
  - intros _. by rewrite decide_True.
  - destruct (decide (k = k0)) as [->|Hne]; [done|]. intros Hg. by rewrite IH.
Qed.

(** Assigning a property twice is assigning the second value. *)
Lemma objSet_objSet {K V} `{EqDecision K} (index : K -> option Z)
    (k : K) (v1 v2 : V) (o : list (K * V)) :
  objSet index k v2 (objSet index k v1 o) = objSet index k v2 o.
Proof.
  unfold objSet at 1. rewrite objGet_objSet_eq.
  unfold objSet. destruct (objGet k o) as [v0|] eqn:Hg.
  - apply objReplace_objReplace.
  - destruct (index k) as [i|].
    + by apply objReplace_objInsertIndex.
    + by apply objReplace_app_new.
Qed.

Lemma objSet_nonempty {K V} `{EqDecision K} (index : K -> option Z)
    (k : K) (v : V) (o : list (K * V)) : objSet index k v o <> [].
Proof.
  intros Hnil. pose proof (objGet_objSet_eq index k v o) as Hg.
  by rewrite Hnil in Hg.
Qed.

(** The record found under a target after [removeConnection] is the old
    record of that target without the removed slot, and it has a key. *)
Lemma removeConnection_record options cs r' :
  objGet (tabId options) (removeConnection options cs) = Some r' ->
  exists r, objGet (tabId options) cs = Some r /\
            r' = objDelete (layer options) r /\ objKeys r' <> [].
Proof.
  unfold removeConnection.
  destruct (objGet (tabId options) cs) as [r|] eqn:Hg; [|by rewrite Hg].
  destruct (length _ =? 0)%nat eqn:Hlen.
  - by rewrite objGet_objDelete_eq.
  - rewrite objGet_objReplace_eq, Hg. simpl. intros [= <-].
    exists r. repeat split. apply Nat.eqb_neq in Hlen.
    intros Hnil. by rewrite Hnil in Hlen.
Qed.

Lemma removeConnection_keeps_absent options tid cs :
  objGet tid cs = None -> objGet tid (removeConnection options cs) = None.
Proof.
  intros Hnone. unfold removeConnection.
  destruct (objGet (tabId options) cs) as [r|] eqn:Hg; [|done].
  destruct (decide (tabId options = tid)) as [<-|Hne]; [congruence|].
  destruct (length _ =? 0)%nat.
  - by rewrite objGet_objDelete_ne.
  - by rewrite objGet_objReplace_ne.
Qed.

Lemma nonempty_records_reachable cs :
  ReachableConnections cs -> Forall (fun entry => snd entry <> []) cs.
Proof.
  induction 1 as [|options port cs _ IH|options cs _ IH].
  - apply Forall_nil_2.
  - apply Forall_forall. intros e He. unfold addConnection in He.
    apply elem_objSet in He as [->|He].
    + simpl. apply objSet_nonempty.
    + rewrite Forall_forall in IH. by apply IH.
  - apply Forall_forall. intros e He. rewrite Forall_forall in IH.
    unfold removeConnection in He.
    destruct (objGet (tabId options) cs) as [r|] eqn:Hg; [|by apply IH].
    destruct (length _ =? 0)%nat eqn:Hlen.
    + apply elem_objDelete in He. by apply IH.
    + apply elem_objReplace in He as [->|He]; [|by apply IH].
      simpl. apply Nat.eqb_neq in Hlen. intros Hnil.
      by rewrite Hnil in Hlen.
Qed.
End ConnectionManagerMore.

(** X1.  Insert and look up: after [addConnection(options, port)],
    [getConnection] finds [port] under [options] and finds under every
    other (target, role) pair what it found before. *)
Theorem X1_getConnection_after_addConnection
    (options options' : ConnectionOptions) (port : Port)
    (cs : ConnectionManager.Connections) :
  ConnectionManager.getConnection options'
    (ConnectionManager.addConnection options port cs)
  = if decide (options' = options) then Some port
    else ConnectionManager.getConnection options' cs.
Proof.
  destruct (decide (options' = options)) as [->|Hne].
  - apply getConnection_addConnection_eq.
  - apply getConnection_addConnection_ne. congruence.
Qed.

(** X2.  Last writer wins, without a trace of the first: registering two
    ports in a row under the same (target, role) pair leaves the registry
    exactly as registering the second port alone does. *)
Theorem X2_addConnection_overwrites
    (options : ConnectionOptions) (first second : Port)
    (cs : ConnectionManager.Connections) :
  ConnectionManager.addConnection options second
    (ConnectionManager.addConnection options first cs)
  = ConnectionManager.addConnection options second cs.
Proof.
  unfold ConnectionManager.addConnection at 1.
  assert (objGet (tabId options) (ConnectionManager.addConnection options first cs)
          = Some (objSet ConnectionManager.noIndex (layer options) (Some first)
                    match objGet (tabId options) cs with
                    | Some r => r
                    | None => ConnectionManager.newLayerRecord
                    end)) as ->.
  { unfold ConnectionManager.addConnection. apply objGet_objSet_eq. }
  rewrite objSet_objSet. unfold ConnectionManager.addConnection.
  apply objSet_objSet.
Qed.

(** X3.  [removeConnection(options)] removes the handle of exactly that
    pair: afterwards [getConnection] finds nothing under [options] and
    finds under every other pair, of the same target too, what it found
    before. *)
Theorem X3_getConnection_after_removeConnection
    (options options' : ConnectionOptions) (cs : ConnectionManager.Connections) :
  ConnectionManager.getConnection options'
    (ConnectionManager.removeConnection options cs)
  = if decide (options' = options) then None
    else ConnectionManager.getConnection options' cs.
Proof.
  destruct (decide (options' = options)) as [->|Hne].
  - apply getConnection_removeConnection_eq.
  - apply getConnection_removeConnection_ne. congruence.
Qed.

(** X4.  No per-target record without keys stays in the registry: in
    every registry produced by [addConnection] and [removeConnection],
    each record of [getAllConnections()] has at least one role key. *)
Theorem X4_no_empty_record
    (cs : ConnectionManager.Connections) (tid : TabId)
    (r : ConnectionManager.LayerRecord) :
  ReachableConnections cs ->
  objGet tid (ConnectionManager.getAllConnections cs) = Some r ->
  objKeys r <> [].
Proof.
  intros Hreach Hg. apply nonempty_records_reachable in Hreach.
  apply objGet_Some_In in Hg. rewrite Forall_forall in Hreach.
  specialize (Hreach _ Hg). simpl in Hreach. by destruct r.
Qed.

(** X5.  Once [removeConnection] has been called for all three roles of
    a target, in any order, the target is no longer a key of
    [getAllConnections()], whatever the registry held before. *)
Theorem X5_removing_all_roles_deletes_record
    (cs : ConnectionManager.Connections) (tid : TabId) (a b c : ClientLayer) :
  NoDup [a; b; c] ->
  tid ∉ objKeys
    (ConnectionManager.getAllConnections
       (ConnectionManager.removeConnection {| layer := a; tabId := tid |}
          (ConnectionManager.removeConnection {| layer := b; tabId := tid |}
             (ConnectionManager.removeConnection {| layer := c; tabId := tid |} cs)))).
Proof.
  intros Hnd. apply objGet_None. unfold ConnectionManager.getAllConnections.
  destruct (objGet tid (ConnectionManager.removeConnection _ _)) as [r3|] eqn:H3; [|done].
  exfalso.
  apply (removeConnection_record {| layer := a; tabId := tid |}) in H3
    as (r2 & H2 & -> & Hkeys).
  apply (removeConnection_record {| layer := b; tabId := tid |}) in H2
    as (r1 & H1 & -> & _).
  apply (removeConnection_record {| layer := c; tabId := tid |}) in H1
    as (r0 & _ & -> & _).
  simpl in *. apply Hkeys.
  destruct (objKeys (objDelete a (objDelete b (objDelete c r0)))) as [|k ks] eqn:Hk;
    [done|].
  assert (k ∈ objKeys (objDelete a (objDelete b (objDelete c r0)))) as Hin
    by (rewrite Hk; left).
  rewrite !elem_objKeys_objDelete in Hin. destruct Hin as (Ha & Hb & Hc & _).
  apply NoDup_cons in Hnd as [Hab Hnd]. apply NoDup_cons in Hnd as [Hbc _].
  rewrite !not_elem_of_cons in Hab, Hbc.
  destruct Hab as (Hab & Hac). destruct Hbc as (Hbc & _).
  rewrite list_elem_of_singleton in Hac.
  exfalso. destruct a, b, c, k; congruence.
Qed.

(** ** ListenerManager *)

Section ListenerManagerMore.
Import ListenerManager.
Implicit Types (lm : t) (u : Unsubscribe) (us : list Unsubscribe)
  (ty : string) (listener : BaseMessageListener).

Lemma setAdd_NoDup listener (s : list BaseMessageListener) :
  NoDup s -> NoDup (setAdd listener s).
Proof.
  unfold setAdd. destruct (decide (listener ∈ s)) as [|Hn]; [done|].
  intros Hnd. apply NoDup_app. split; [done|]. split; [|apply NoDup_singleton].
  intros x Hx Hx'. apply list_elem_of_singleton in Hx'. by subst.
Qed.

(** Every [Set] object is duplicate-free. *)
Lemma sets_NoDup_reachable lm us : Reachable lm us -> Forall NoDup (sets lm).
Proof.
  induction 1 as [|lm us ty listener _ IH|lm us u _ IH _|lm us _ IH].
  - apply Forall_nil_2.
  - destruct (listeners lm !! ty) as [r|] eqn:Hty.
    + rewrite (subscribe_existing ty listener lm r Hty). simpl.
      apply Forall_alter; [done|]. intros s _ Hs. by apply setAdd_NoDup.
    + rewrite (subscribe_fresh ty listener lm Hty). simpl.
      apply Forall_app. split; [done|].
      apply Forall_cons. split; [apply NoDup_singleton | apply Forall_nil_2].
  - unfold unsubscribe. destruct (length _ =? 0)%nat; simpl;
      (apply Forall_alter; [done|]); intros s _ Hs; by apply NoDup_filter.
  - done.
Qed.

Lemma registry_lookup ty lm :
  registry lm !! ty = (fun r => deref r lm) <$> listeners lm !! ty.
Proof. unfold registry. apply lookup_fmap. Qed.

(** The registry after [subscribe]. *)
Lemma registry_subscribe ty ty' listener lm us :
  listenersInvariant lm us ->
  registry (fst (subscribe ty listener lm)) !! ty'
  = if decide (ty' = ty) then Some (setAdd listener (subscribers ty lm))
    else registry lm !! ty'.
Proof.
  intros Hinv. pose proof Hinv as (Ha & _ & _ & Hd).
  rewrite !registry_lookup, subscribers_lookup.
  destruct (decide (ty' = ty)) as [->|Hne].
  - destruct (listeners lm !! ty) as [r|] eqn:Hty.
    + rewrite (subscribe_existing ty listener lm r Hty). simpl. rewrite Hty. simpl.
      destruct (Ha _ _ Hty) as (s & Hs & _). unfold deref. simpl.
      by rewrite list_lookup_alter_eq, Hs.
    + rewrite (subscribe_fresh ty listener lm Hty). simpl.
      rewrite lookup_insert_eq. simpl. unfold deref. simpl.
      rewrite lookup_app_r by done. by rewrite Nat.sub_diag.
  - destruct (listeners lm !! ty) as [r|] eqn:Hty.
    + rewrite (subscribe_existing ty listener lm r Hty). simpl.
      destruct (listeners lm !! ty') as [r'|] eqn:Hty'; [|done].
      simpl. unfold deref. simpl. rewrite list_lookup_alter_ne; [done|].
      intros <-. apply Hne. by apply (Hd ty' ty r).
    + rewrite (subscribe_fresh ty listener lm Hty). simpl.
      rewrite lookup_insert_ne by done.
      destruct (listeners lm !! ty') as [r'|] eqn:Hty'; [|done].
      destruct (Ha _ _ Hty') as (s & Hs & _). simpl. unfold deref. simpl.
      by rewrite (lookup_app_l_Some _ _ _ _ Hs), Hs.
Qed.

(** The registry after the call of a closure whose [Set] is the
    registered one. *)
Lemma registry_unsubscribe_current u ty' lm us :
  listenersInvariant lm us -> current u lm ->
  registry (unsubscribe u lm) !! ty'
  = if decide (ty' = capturedType u)
    then if decide (setDelete (capturedListener u) (subscribers (capturedType u) lm) = [])
         then None
         else Some (setDelete (capturedListener u) (subscribers (capturedType u) lm))
    else registry lm !! ty'.
Proof.
  intros (Ha & _ & _ & Hd) Hcur. unfold current in Hcur.
  destruct (Ha _ _ Hcur) as (s & Hs & Hnes).
  assert (subscribers (capturedType u) lm = s) as ->.
  { rewrite subscribers_lookup, Hcur. unfold deref. by rewrite Hs. }
  rewrite !registry_lookup. unfold unsubscribe.
  rewrite list_lookup_alter_eq, Hs. simpl.
  destruct (decide (ty' = capturedType u)) as [->|Hne].
  - destruct (decide (setDelete (capturedListener u) s = [])) as [Hdel|Hdel].
    + rewrite Hdel. simpl. by rewrite lookup_delete_eq.
    + destruct (setDelete (capturedListener u) s) as [|x s'] eqn:Hdel'; [done|].
      simpl. rewrite Hcur. simpl. unfold deref. simpl.
      by rewrite list_lookup_alter_eq, Hs, <- Hdel'.
  - assert (forall r', listeners lm !! ty' = Some r' ->
              deref r' {| sets := alter (setDelete (capturedListener u)) (capturedSet u)
                                    (sets lm);
                          listeners := listeners lm |} = deref r' lm) as Hsame.
    { intros r' Hr'. unfold deref. simpl. rewrite list_lookup_alter_ne; [done|].
      intros <-. apply Hne. by apply (Hd ty' (capturedType u) (capturedSet u)). }
    destruct (length (setDelete (capturedListener u) s) =? 0)%nat; simpl.
    + rewrite lookup_delete_ne by done.
      destruct (listeners lm !! ty') as [r'|] eqn:Hty'; [|done].
      simpl. f_equal. by apply Hsame.
    + destruct (listeners lm !! ty') as [r'|] eqn:Hty'; [|done].
      simpl. f_equal. by apply Hsame.
Qed.

Lemma subscribe_current ty listener lm :
  current (snd (subscribe ty listener lm)) (fst (subscribe ty listener lm)).
Proof.
  unfold current. destruct (listeners lm !! ty) as [r|] eqn:Hty.
  - by rewrite (subscribe_existing ty listener lm r Hty).
  - rewrite (subscribe_fresh ty listener lm Hty). simpl. apply lookup_insert_eq.
Qed.

Lemma setDelete_setAdd_new listener (s : list BaseMessageListener) :
  listener ∉ s -> setDelete listener (setAdd listener s) = s.
Proof.
  intros Hn. unfold setAdd, setDelete. rewrite decide_False by done.
  rewrite filter_app, filter_cons_False, filter_nil, app_nil_r by (intros H; by apply H).
  induction s as [|x s IH]; [done|].
  apply not_elem_of_cons in Hn as [Hne Hn].
  rewrite filter_cons_True by congruence. by rewrite IH.
Qed.

Lemma deliveries_app listener message senderPort (t1 t2 : list Effect) :
  deliveries listener message senderPort (t1 ++ t2)
  = deliveries listener message senderPort t1 + deliveries listener message senderPort t2.
Proof. unfold deliveries. by rewrite filter_app, length_app. Qed.

(** The calls of one listener in what one listener call adds to the
    trace. *)
Lemma deliveries_notified behaviour k l listener message senderPort :
  deliveries listener message senderPort (notified behaviour message senderPort k l)
  = if decide (l = listener) then 1 else 0.
Proof.
  unfold deliveries, notified.
  destruct (decide (l = listener)) as [->|Hne].
  - rewrite filter_cons_True by done.
    destruct (snd (behaviour k listener message senderPort)); [done|].
    by rewrite filter_cons_False.
  - rewrite filter_cons_False by congruence.
    destruct (snd (behaviour k l message senderPort)); [done|].
    by rewrite filter_cons_False.
Qed.

Lemma filter_eq_setDelete_other listener l (ls : list BaseMessageListener) :
  l <> listener ->
  filter (fun x => x = listener) (setDelete l ls) = filter (fun x => x = listener) ls.
Proof.
  intros Hne. unfold setDelete. induction ls as [|x ls IH]; [done|].
  rewrite (filter_cons (fun x => x ≠ l) x ls).
  destruct (decide (x ≠ l)) as [Hx|Hx].
  - rewrite !(filter_cons (fun x => x = listener)). by rewrite IH.
  - rewrite filter_cons_False by (intros ->; apply Hx; intros ->; done). exact IH.
Qed.

(** A call that does not subscribe or unsubscribe [listener] leaves its
    turns in the iteration as they are. *)
Lemma perform_count r a lm (pending : list BaseMessageListener) listener :
  ~ touches listener a ->
  filter (fun x => x = listener) (snd (perform r a (lm, pending)))
  = filter (fun x => x = listener) pending.
Proof.
  intros Ha. destruct a as [ty l|u|]; cbn [perform].
  - destruct (subscribe ty l lm) as [lm' u']. cbn [snd].
    destruct (decide (capturedSet u' = r /\ l ∉ deref r lm)); [|done].
    rewrite filter_app, filter_cons_False, filter_nil by exact Ha.
    apply app_nil_r.
  - cbn [snd]. destruct (decide (capturedSet u = r)); [|done].
    apply filter_eq_setDelete_other. exact Ha.
  - done.
Qed.

Lemma performAll_count r script lm (pending : list BaseMessageListener) listener :
  (forall a, a ∈ script -> ~ touches listener a) ->
  filter (fun x => x = listener) (snd (performAll r script (lm, pending)))
  = filter (fun x => x = listener) pending.
Proof.
  revert lm pending. induction script as [|a script IH]; intros lm pending Hs; [done|].
  cbn [performAll fold_left].
  destruct (perform r a (lm, pending)) as [lm1 pending1] eqn:Hp.
  fold (performAll r script (lm1, pending1)).
  rewrite IH by (intros a' Ha'; apply Hs; by right).
  change pending1 with (snd (lm1, pending1)). rewrite <- Hp.
  apply perform_count. apply Hs. by left.
Qed.

(** A call that does not subscribe [listener] does not give it a turn. *)
Lemma perform_absent r a lm (pending : list BaseMessageListener) listener :
  ~ subscribes listener a -> listener ∉ pending ->
  listener ∉ snd (perform r a (lm, pending)).
Proof.
  intros Ha Hn. destruct a as [ty l|u|]; cbn [perform].
  - destruct (subscribe ty l lm) as [lm' u']. cbn [snd].
    destruct (decide (capturedSet u' = r /\ l ∉ deref r lm)); [|done].
    rewrite elem_of_app, list_elem_of_singleton. intros [Hin|Heq]; [done|].
    apply Ha. simpl. congruence.
  - cbn [snd]. destruct (decide (capturedSet u = r)); [|done].
    unfold setDelete. rewrite list_elem_of_filter. tauto.
  - done.
Qed.

Lemma performAll_absent r script lm (pending : list BaseMessageListener) listener :
  (forall a, a ∈ script -> ~ subscribes listener a) -> listener ∉ pending ->
  listener ∉ snd (performAll r script (lm, pending)).
Proof.
  revert lm pending. induction script as [|a script IH]; intros lm pending Hs Hn; [done|].
  cbn [performAll fold_left].
  destruct (perform r a (lm, pending)) as [lm1 pending1] eqn:Hp.
  fold (performAll r script (lm1, pending1)).
  apply IH; [intros a' Ha'; apply Hs; by right|].
  change pending1 with (snd (lm1, pending1)). rewrite <- Hp.
  apply perform_absent; [|done]. apply Hs. by left.
Qed.

(** In a dispatch in which no listener subscribes or unsubscribes
    [listener], it is called at most as often as it has turns left, and
    exactly that often when the loop comes to its end. *)
Lemma dispatch_deliveries fuel behaviour message senderPort r k
    (pending : list BaseMessageListener) lm listener :
  untouched behaviour message senderPort listener ->
  deliveries listener message senderPort
    (effects (dispatch fuel behaviour message senderPort r k pending lm))
  <= length (filter (fun x => x = listener) pending) /\
  (returned (dispatch fuel behaviour message senderPort r k pending lm) = true ->
   deliveries listener message senderPort
     (effects (dispatch fuel behaviour message senderPort r k pending lm))
   = length (filter (fun x => x = listener) pending)).
Proof.
  intros Hun. revert k pending lm.
  induction fuel as [|fuel IH]; intros k pending lm.
  - destruct pending as [|l rest]; [done|]. cbn [dispatch effects returned].
    split; [apply Nat.le_0_l | done].
  - destruct pending as [|l rest]; [done|].
    cbn [dispatch]. rewrite called_notified.
    pose proof (performAll_count r (fst (behaviour k l message senderPort)) lm rest
                  listener (Hun k l)) as Hcount.
    destruct (performAll r (fst (behaviour k l message senderPort)) (lm, rest))
      as [lm' rest'].
    cbn [snd] in Hcount. cbn [effects returned].
    rewrite deliveries_app, deliveries_notified.
    destruct (IH (S k) rest' lm') as [Hle Heq]. rewrite Hcount in Hle, Heq.
    rewrite (filter_cons _ l rest).
    destruct (decide (l = listener)); simpl; split; try lia; intros Hr;
      rewrite (Heq Hr); lia.
Qed.

(** A listener without a turn that nobody subscribes is not called. *)
Lemma dispatch_absent fuel behaviour message senderPort r k
    (pending : list BaseMessageListener) lm listener :
  neverSubscribed behaviour message senderPort listener ->
  listener ∉ pending ->
  deliveries listener message senderPort
    (effects (dispatch fuel behaviour message senderPort r k pending lm)) = 0.
Proof.
  intros Hns. revert k pending lm.
  induction fuel as [|fuel IH]; intros k pending lm Hn.
  - by destruct pending.
  - destruct pending as [|l rest]; [done|].
    apply not_elem_of_cons in Hn as [Hne Hn].
    cbn [dispatch]. rewrite called_notified.
    pose proof (performAll_absent r (fst (behaviour k l message senderPort)) lm rest
                  listener (Hns k l) Hn) as Habs.
    destruct (performAll r (fst (behaviour k l message senderPort)) (lm, rest))
      as [lm' rest'].
    cbn [snd] in Habs. cbn [effects].
    rewrite deliveries_app, deliveries_notified, decide_False by congruence.
    by rewrite IH.
Qed.

Lemma filter_eq_NoDup listener (ls : list BaseMessageListener) :
  NoDup ls -> listener ∈ ls -> length (filter (fun x => x = listener) ls) = 1.
Proof.
  induction ls as [|x ls IH]; intros Hnd Hin; [by apply elem_of_nil in Hin|].
  apply NoDup_cons in Hnd as [Hx Hnd].
  destruct (decide (x = listener)) as [->|Hne].
  - rewrite filter_cons_True by done. simpl. f_equal.
    assert (filter (fun x => x = listener) ls = []) as ->; [|done].
    clear -Hx. induction ls as [|y ls IH]; [done|].
    apply not_elem_of_cons in Hx as [Hne Hx].
    rewrite filter_cons_False by congruence. by apply IH.
  - rewrite filter_cons_False by done. apply IH; [done|].
    apply elem_of_cons in Hin as [->|Hin]; [done|done].
Qed.

Lemma filter_eq_setDelete listener (ls : list BaseMessageListener) :
  filter (fun x => x = listener) (setDelete listener ls) = [].
Proof.
  unfold setDelete. induction ls as [|x ls IH]; [done|].
  rewrite (filter_cons _ x ls). destruct (decide (x ≠ listener)) as [Hne|Heq].
  - rewrite filter_cons_False by done. apply IH.
  - apply IH.
Qed.

(** The subscribers of a type in a reachable manager: present in the
    registry exactly when there are some, and duplicate-free. *)
Lemma subscribers_reachable ty lm us :
  Reachable lm us ->
  NoDup (subscribers ty lm) /\
  registry lm !! ty
  = if decide (subscribers ty lm = []) then None else Some (subscribers ty lm).
Proof.
  intros Hreach. pose proof (sets_NoDup_reachable lm us Hreach) as Hnd.
  apply Reachable_invariant in Hreach as (Ha & _).
  rewrite subscribers_lookup, registry_lookup.
  destruct (listeners lm !! ty) as [r|] eqn:Hty; simpl.
  - destruct (Ha _ _ Hty) as (s & Hs & Hne). unfold deref. rewrite Hs. simpl.
    split; [by apply (Forall_lookup_1 _ _ _ _ Hnd Hs)|].
    by rewrite decide_False.
  - split; [apply NoDup_nil_2 | done].
Qed.
End ListenerManagerMore.

(** X6.  In every manager that [subscribe], the returned closures and
    [clear] can produce, a type that has an entry in the registry has at
    least one subscriber, and no subscriber is listed twice under a type
    (so no notification is delivered twice). *)
Theorem X6_registry_entries_nonempty_duplicate_free
    (lm : ListenerManager.t) (us : list ListenerManager.Unsubscribe)
    (ty : string) (s : list ListenerManager.BaseMessageListener) :
  Reachable lm us ->
  ListenerManager.registry lm !! ty = Some s ->
  s <> [] /\ NoDup s.
Proof.
  intros Hreach Hs.
  destruct (subscribers_reachable ty lm us Hreach) as [Hnd Hreg].
  rewrite Hs in Hreg.
  destruct (decide (ListenerManager.subscribers ty lm = [])) as [|Hne]; [done|].
  injection Hreg as ->. done.
Qed.

(** X7.  [subscribe(type, listener)] puts a new listener at the end of
    the subscribers of [type], leaves a listener that is subscribed to
    [type] already where it is (no second registration), and changes the
    subscribers of no other type. *)
Theorem X7_subscribe_appends
    (lm : ListenerManager.t) (us : list ListenerManager.Unsubscribe)
    (ty : string) (listener : ListenerManager.BaseMessageListener) :
  Reachable lm us ->
  ListenerManager.subscribers ty (fst (ListenerManager.subscribe ty listener lm))
    = (if decide (listener ∈ ListenerManager.subscribers ty lm)
       then ListenerManager.subscribers ty lm
       else ListenerManager.subscribers ty lm ++ [listener]) /\
  forall ty', ty' <> ty ->
    ListenerManager.subscribers ty' (fst (ListenerManager.subscribe ty listener lm))
    = ListenerManager.subscribers ty' lm.
Proof.
  intros Hreach. apply Reachable_invariant in Hreach. split.
  - by rewrite (subscribers_subscribe ty listener lm us Hreach).
  - intros ty' Hne. apply (subscribers_subscribe_other ty ty' listener lm us Hreach).
    congruence.
Qed.

(** X8.  Subscribe and unsubscribe undo each other: calling the closure
    that [subscribe(type, listener)] has just returned, for a listener
    that was not subscribed to [type] before, gives back the registry as
    it was before the subscription. *)
Theorem X8_unsubscribe_undoes_subscribe
    (lm : ListenerManager.t) (us : list ListenerManager.Unsubscribe)
    (ty : string) (listener : ListenerManager.BaseMessageListener) :
  Reachable lm us ->
  listener ∉ ListenerManager.subscribers ty lm ->
  ListenerManager.registry
    (ListenerManager.unsubscribe (snd (ListenerManager.subscribe ty listener lm))
       (fst (ListenerManager.subscribe ty listener lm)))
  = ListenerManager.registry lm.
Proof.
  intros Hreach Hnew.
  pose proof (Reachable_invariant lm us Hreach) as Hinv.
  pose proof (invariant_subscribe ty listener lm us Hinv) as Hinv'.
  destruct (subscribers_reachable ty lm us Hreach) as [_ Hreg].
  apply map_eq. intros ty'.
  rewrite (registry_unsubscribe_current _ ty' _ _ Hinv' (subscribe_current ty listener lm)).
  assert (ListenerManager.capturedType (snd (ListenerManager.subscribe ty listener lm)) = ty)
    as Hty by (unfold ListenerManager.subscribe;
               by destruct (ListenerManager.listeners lm !! ty)).
  assert (ListenerManager.capturedListener (snd (ListenerManager.subscribe ty listener lm))
          = listener)
    as Hl by (unfold ListenerManager.subscribe;
              by destruct (ListenerManager.listeners lm !! ty)).
  rewrite Hty, Hl.
  destruct (decide (ty' = ty)) as [->|Hne].
  - rewrite (subscribers_subscribe ty listener lm us Hinv).
    rewrite setDelete_setAdd_new by done. by rewrite Hreg.
  - rewrite (registry_subscribe ty ty' listener lm us Hinv).
    by rewrite decide_False.
Qed.

(** X9.  A closure returned by [subscribe], current or stale, never
    changes the subscribers of a type other than the one it was created
    for, and never adds a subscriber to any type. *)
Theorem X9_unsubscribe_confined_to_its_type
    (lm : ListenerManager.t) (us : list ListenerManager.Unsubscribe)
    (u : ListenerManager.Unsubscribe) :
  Reachable lm us -> u ∈ us ->
  (forall ty, ty <> ListenerManager.capturedType u ->
     ListenerManager.subscribers ty (ListenerManager.unsubscribe u lm)
     = ListenerManager.subscribers ty lm) /\
  (forall ty listener,
     listener ∈ ListenerManager.subscribers ty (ListenerManager.unsubscribe u lm) ->
     listener ∈ ListenerManager.subscribers ty lm).
Proof.
  intros Hreach Hu. apply Reachable_invariant in Hreach as (Ha & _ & Hc & _).
  split.
  - intros ty Hne. rewrite !subscribers_lookup. unfold ListenerManager.unsubscribe.
    assert (forall r, ListenerManager.listeners lm !! ty = Some r ->
              r <> ListenerManager.capturedSet u) as Hother.
    { intros r Hr ->. apply Hne. by apply Hc. }
    destruct (length _ =? 0)%nat; simpl.
    + rewrite lookup_delete_ne by done.
      destruct (ListenerManager.listeners lm !! ty) as [r|] eqn:Hty; [|done].
      unfold ListenerManager.deref. simpl.
      rewrite list_lookup_alter_ne; [done|]. intros Heq. by apply (Hother r).
    + destruct (ListenerManager.listeners lm !! ty) as [r|] eqn:Hty; [|done].
      unfold ListenerManager.deref. simpl.
      rewrite list_lookup_alter_ne; [done|]. intros Heq. by apply (Hother r).
  - intros ty listener. rewrite !subscribers_lookup.
    unfold ListenerManager.unsubscribe.
    assert (forall r,
      listener ∈ default [] (alter (ListenerManager.setDelete
                                      (ListenerManager.capturedListener u))
                               (ListenerManager.capturedSet u)
                               (ListenerManager.sets lm) !! r) ->
      listener ∈ default [] (ListenerManager.sets lm !! r)) as Hsub.
    { intros r. destruct (decide (ListenerManager.capturedSet u = r)) as [<-|Hr].
      - rewrite list_lookup_alter_eq.
        destruct (ListenerManager.sets lm !! ListenerManager.capturedSet u); simpl;
          [|done].
        unfold ListenerManager.setDelete. rewrite list_elem_of_filter. tauto.
      - by rewrite list_lookup_alter_ne. }
    destruct (length _ =? 0)%nat; simpl.
    + destruct (decide (ty = ListenerManager.capturedType u)) as [->|Hne].
      * rewrite lookup_delete_eq. intros Hin. by apply elem_of_nil in Hin.
      * rewrite lookup_delete_ne by done.
        destruct (ListenerManager.listeners lm !! ty) as [r|]; [|done].
        apply Hsub.
    + destruct (ListenerManager.listeners lm !! ty) as [r|]; [|done].
      apply Hsub.
Qed.

(** X10.  Once subscribed, delivered once: after
    [subscribe(type, listener)], in a [notify] of a message of that type
    during which no listener subscribes or unsubscribes [listener], the
    listener is called with that message and sender at most once, and
    exactly once when [notify] returns, whether the listener was
    subscribed before or not.  [notify] returns when the subscribers of
    the type do not call back into the manager while they are notified. *)
Theorem X10_subscribed_listener_notified_once
    (fuel : nat) (behaviour : ListenerManager.Behaviour)
    (lm : ListenerManager.t) (us : list ListenerManager.Unsubscribe)
    (listener : ListenerManager.BaseMessageListener)
    (message : BaseMessage) (senderPort : option Port) :
  Reachable lm us ->
  untouched behaviour message senderPort listener ->
  let lm' := fst (ListenerManager.subscribe (type message) listener lm) in
  let outcome := ListenerManager.notify fuel behaviour message senderPort lm' in
  deliveries listener message senderPort (ListenerManager.effects outcome) <= 1 /\
  (ListenerManager.returned outcome = true ->
   deliveries listener message senderPort (ListenerManager.effects outcome) = 1) /\
  (quiet behaviour message senderPort (ListenerManager.subscribers (type message) lm') ->
   length (ListenerManager.subscribers (type message) lm') <= fuel ->
   ListenerManager.returned outcome = true).
Proof.
  intros Hreach Hun lm' outcome.
  pose proof (Reachable_subscribe lm us (type message) listener Hreach) as Hreach'.
  destruct (subscribers_reachable (type message) _ _ Hreach') as [Hnd _].
  fold lm' in Hnd.
  assert (listener ∈ ListenerManager.subscribers (type message) lm') as Hin.
  { unfold lm'.
    rewrite (subscribers_subscribe _ listener lm us (Reachable_invariant _ _ Hreach)).
    unfold ListenerManager.setAdd.
    destruct (decide (listener ∈ ListenerManager.subscribers (type message) lm));
      [done|].
    apply elem_of_app. right. by apply list_elem_of_singleton. }
  pose proof (filter_eq_NoDup listener _ Hnd Hin) as Hone.
  assert (ListenerManager.subscribers (type message) lm' <> []) as Hne
    by (intros Hnil; rewrite Hnil in Hin; by apply elem_of_nil in Hin).
  split; [|split].
  - unfold outcome, ListenerManager.notify. rewrite subscribers_lookup in Hone.
    destruct (ListenerManager.listeners lm' !! type message) as [r|]; [|done].
    rewrite <- Hone. by apply dispatch_deliveries.
  - unfold outcome, ListenerManager.notify. rewrite subscribers_lookup in Hone.
    destruct (ListenerManager.listeners lm' !! type message) as [r|]; [|done].
    rewrite <- Hone. by apply dispatch_deliveries.
  - intros Hq Hlen. unfold outcome.
    by rewrite (notify_quiet fuel behaviour message senderPort lm' Hne Hq Hlen).
Qed.

(** X11.  A closure whose [Set] is still the one registered under its
    type removes exactly its listener: the other subscribers of the type
    keep their order, and a later [notify] of that type during which no
    listener subscribes the removed listener again does not call it. *)
Theorem X11_current_unsubscribe_removes_its_listener
    (fuel : nat) (behaviour : ListenerManager.Behaviour)
    (lm : ListenerManager.t) (us : list ListenerManager.Unsubscribe)
    (u : ListenerManager.Unsubscribe)
    (message : BaseMessage) (senderPort : option Port) :
  Reachable lm us -> current u lm ->
  type message = ListenerManager.capturedType u ->
  neverSubscribed behaviour message senderPort (ListenerManager.capturedListener u) ->
  ListenerManager.subscribers (ListenerManager.capturedType u)
    (ListenerManager.unsubscribe u lm)
  = filter (fun x => x ≠ ListenerManager.capturedListener u)
      (ListenerManager.subscribers (ListenerManager.capturedType u) lm) /\
  deliveries (ListenerManager.capturedListener u) message senderPort
    (ListenerManager.effects
       (ListenerManager.notify fuel behaviour message senderPort
          (ListenerManager.unsubscribe u lm)))
  = 0.
Proof.
  intros Hreach Hcur Hty Hns.
  pose proof (Reachable_invariant lm us Hreach) as Hinv.
  assert (ListenerManager.subscribers (ListenerManager.capturedType u)
            (ListenerManager.unsubscribe u lm)
          = ListenerManager.setDelete (ListenerManager.capturedListener u)
              (ListenerManager.subscribers (ListenerManager.capturedType u) lm)) as Hsubs.
  { unfold ListenerManager.subscribers at 1.
    rewrite (registry_unsubscribe_current u _ lm us Hinv Hcur).
    rewrite decide_True by done.
    by destruct (decide (ListenerManager.setDelete _ _ = [])) as [->|]. }
  split; [exact Hsubs|].
  rewrite <- Hty in Hsubs. rewrite subscribers_lookup in Hsubs.
  unfold ListenerManager.notify.
  destruct (ListenerManager.listeners (ListenerManager.unsubscribe u lm) !! type message)
    as [r|]; [|done].
  apply dispatch_absent; [done|]. rewrite Hsubs.
  unfold ListenerManager.setDelete. rewrite list_elem_of_filter. tauto.
Qed.

(** ** BaseClientManager in its host *)

Section ClientMore.
Import BaseClientManager.
Implicit Types (c : t) (w : World) (m : BaseMessage) (ev : Event).

Lemma posts_app (t1 t2 : list Effect) : posts (t1 ++ t2) = posts t1 ++ posts t2.
Proof. apply omap_app. Qed.

Lemma posts_dispatch fuel behaviour m senderPort r k
    (pending : list ListenerManager.BaseMessageListener) lm :
  posts (ListenerManager.effects
           (ListenerManager.dispatch fuel behaviour m senderPort r k pending lm)) = [].
Proof.
  revert k pending lm. induction fuel as [|fuel IH]; intros k pending lm.
  - by destruct pending.
  - destruct pending as [|l rest]; [done|].
    cbn [ListenerManager.dispatch]. rewrite called_notified.
    destruct (ListenerManager.performAll r _ (lm, rest)) as [lm' rest'].
    cbn [ListenerManager.effects]. rewrite posts_app, IH. unfold notified.
    by destruct (snd (behaviour k l m senderPort)).
Qed.

(** A dispatch to listeners posts nothing. *)
Lemma posts_notify fuel behaviour m senderPort lm :
  posts (ListenerManager.effects
           (ListenerManager.notify fuel behaviour m senderPort lm)) = [].
Proof.
  unfold ListenerManager.notify.
  destruct (ListenerManager.listeners lm !! type m) as [r|]; [|done].
  apply posts_dispatch.
Qed.

Lemma connectedPorts_PostMessage p (ms : list BaseMessage) :
  connectedPorts (map (PostMessage p) ms) = [].
Proof. unfold connectedPorts. induction ms as [|m ms IH]; csimpl; done. Qed.

Lemma map_snd_pair (p : Port) (ms : list BaseMessage) : map snd (map (pair p) ms) = ms.
Proof. induction ms as [|m ms IH]; simpl; [done|]. by rewrite IH. Qed.

(** What one event does to the queue, the handle and the posts. *)
Lemma step_client fuel behaviour ev w :
  clientInvariant w ->
  clientInvariant (fst (step fuel behaviour ev w)) /\
  map snd (posts (snd (step fuel behaviour ev w)))
    ++ pendingMessages (manager (fst (step fuel behaviour ev w)))
  = pendingMessages (manager w) ++ sent [ev] /\
  (forall p m, (p, m) ∈ posts (snd (step fuel behaviour ev w)) ->
     port (manager (fst (step fuel behaviour ev w))) = Some p).
Proof.
  intros Hinv. pose proof Hinv as [Hq Hlive].
  assert (forall (p : Port) m, (p, m) ∈ @nil (Port * BaseMessage) ->
            port (manager (fst (step fuel behaviour ev w))) = Some p) as Hnone
    by (intros p m Hin; by apply elem_of_nil in Hin).
  destruct ev as [m|ty listener|u|tabs|p m|p].
  - clear Hnone. simpl. destruct (port (manager w)) as [p|] eqn:Hp.
    + rewrite (sendMessage_connected m _ p Hp). simpl.
      destruct Hq as [Hq|Hq]; [done|]. rewrite Hq.
      split; [|split].
      * split; [by right|]. intros p' Hp'. simpl in Hp'. apply Hlive. congruence.
      * done.
      * intros p' m' Hin. apply list_elem_of_singleton in Hin. congruence.
    + rewrite (sendMessage_unconnected m _ Hp). simpl.
      split; [|split].
      * split; [by left | done].
      * done.
      * intros p' m' Hin. by apply elem_of_nil in Hin.
  - simpl in *. unfold subscribe in *.
    destruct (ListenerManager.subscribe ty listener (listenerManager (manager w))).
    simpl in *. rewrite app_nil_r. split; [|split]; [by split | done | exact Hnone].
  - simpl in *. rewrite app_nil_r. split; [|split]; [by split | done | exact Hnone].
  - simpl in *. destruct (queries w) as [|n].
    + simpl in *. rewrite app_nil_r. split; [|split]; [by split | done | exact Hnone].
    + clear Hnone. destruct (usableTabId tabs) as [z|] eqn:Hz.
      * rewrite (tabsQueryCallback_usable tabs _ _ z Hz). cbn zeta. cbn [fst snd].
        set (p := {| portId := nextPort w; name := channelName (layer (manager w)) z |}).
        assert (posts ([RuntimeConnect p;
                        LoggerInfo ("Manager for " +:+ layerValue (layer (manager w))
                                    +:+ " initialized") (TabIdDetails z)]
                       ++ map (PostMessage p) (pendingMessages (manager w)))
                = map (pair p) (pendingMessages (manager w))) as ->.
        { rewrite posts_app. by rewrite posts_map_PostMessage. }
        assert (connectedPorts ([RuntimeConnect p;
                        LoggerInfo ("Manager for " +:+ layerValue (layer (manager w))
                                    +:+ " initialized") (TabIdDetails z)]
                       ++ map (PostMessage p) (pendingMessages (manager w)))
                = [p]) as ->.
        { unfold connectedPorts. rewrite omap_app.
          fold (connectedPorts (map (PostMessage p) (pendingMessages (manager w)))).
          by rewrite connectedPorts_PostMessage. }
        rewrite map_snd_pair. split; [|split].
        -- split; [by right|]. simpl. intros p' [= <-].
           apply elem_of_app. right. by left.
        -- simpl. by rewrite !app_nil_r.
        -- intros p' m' Hin. apply list_elem_of_fmap in Hin as (m0 & [= -> ->] & _).
           done.
      * rewrite (tabsQueryCallback_unusable tabs _ _ Hz). simpl.
        rewrite !app_nil_r. split; [|split].
        -- split; [done|]. simpl. exact Hlive.
        -- done.
        -- intros p' m' Hin. by apply elem_of_nil in Hin.
  - clear Hnone. cbn [step].
    destruct (decide (p ∈ channels w)) as [Hin|Hnin].
    + unfold handleIncomingMessage.
      destruct (port (manager w)) as [q|] eqn:Hp; cbn [fst snd manager].
      * cbn [port pendingMessages channels]. rewrite posts_notify.
        cbn [map app]. rewrite app_nil_r. split; [|split].
        -- split; [done|]. intros p' Hp'. simpl in Hp'. by apply Hlive.
        -- done.
        -- intros p' m' Hin'. by apply elem_of_nil in Hin'.
      * rewrite app_nil_r. split; [|split].
        -- split; [left; exact Hp|]. intros p' Hp'. simpl in Hp'. congruence.
        -- done.
        -- intros p' m' Hin'. by apply elem_of_nil in Hin'.
    + cbn [fst snd]. rewrite app_nil_r. split; [|split]; [done | done |].
      intros p' m' Hin'. by apply elem_of_nil in Hin'.
  - simpl in *. destruct (decide (p ∈ channels w)) as [Hin|Hnin]; simpl in *.
    + rewrite app_nil_r. split; [|split]; [|done|exact Hnone].
      split; [by left | done].
    + rewrite app_nil_r. split; [|split]; [done | done | exact Hnone].
Qed.

Lemma clientInvariant_start ly : clientInvariant (start ly).
Proof. split; [by left | done]. Qed.

Lemma run_cons fuel behaviour ev evs w :
  run fuel behaviour (ev :: evs) w
  = (fst (run fuel (fun i => behaviour (S i)) evs (fst (step fuel (behaviour 0) ev w))),
     snd (step fuel (behaviour 0) ev w)
       ++ snd (run fuel (fun i => behaviour (S i)) evs
                 (fst (step fuel (behaviour 0) ev w)))).
Proof.
  cbn [run]. destruct (step fuel (behaviour 0) ev w) as [w1 t1]. cbn [fst snd].
  by destruct (run fuel (fun i => behaviour (S i)) evs w1) as [w2 t2].
Qed.

(** Over a run: the invariant is kept, and the messages posted followed
    by the messages still queued are the messages queued at the start
    followed by the messages sent. *)
Lemma run_client fuel behaviour evs w :
  clientInvariant w ->
  clientInvariant (fst (run fuel behaviour evs w)) /\
  map snd (posts (snd (run fuel behaviour evs w)))
    ++ pendingMessages (manager (fst (run fuel behaviour evs w)))
  = pendingMessages (manager w) ++ sent evs.
Proof.
  revert behaviour w. induction evs as [|ev evs IH]; intros behaviour w Hinv.
  - simpl. by rewrite app_nil_r.
  - rewrite run_cons. cbn [fst snd].
    destruct (step_client fuel (behaviour 0) ev w Hinv) as (Hinv1 & Hq1 & _).
    destruct (IH (fun i => behaviour (S i)) _ Hinv1) as (Hinv2 & Hq2).
    split; [done|].
    rewrite posts_app, map_app, <- app_assoc, Hq2, app_assoc, Hq1, <- app_assoc.
    f_equal. by destruct ev.
Qed.

(** The resolutions that make the callback give up. *)
Lemma usableTabId_None tabs :
  usableTabId tabs = None <->
  tabs = [] \/
  exists tab rest, tabs = tab :: rest /\
    (id tab = None \/ exists x, id tab = Some x /\ Js.isFalsy x = true).
Proof.
  unfold usableTabId. destruct tabs as [|tab rest].
  - split; [by left | done].
  - destruct (id tab) as [x|] eqn:Hid.
    + destruct (Js.isFalsy x) eqn:Hx.
      * split; [|done]. intros _. right. exists tab, rest. rewrite Hid. eauto.
      * split; [done|].
        intros [|(tab' & rest' & [= <- <-] & [Hn|(x' & Hx' & Hf)])]; [done| |];
          congruence.
    + split; [|done]. intros _. right. exists tab, rest. rewrite Hid. auto.
Qed.

(** Among the integers from 0 to [2^53 - 1] only 0 is falsy. *)
Lemma isFalsy_ofZ z : (0 <= z < 2 ^ 53)%Z -> Js.isFalsy (Js.ofZ z) = true <-> z = 0%Z.
Proof.
  intros Hz. pose proof (integerValue_ofZ z Hz) as Hv. split.
  - destruct (Js.ofZ z) as [|negative|m e]; [done..|].
    simpl. intros Hm. apply Z.eqb_eq in Hm. subst m. simpl in Hv.
    destruct (0 <=? e)%Z; [|done]. injection Hv as <-. lia.
  - intros ->. reflexivity.
Qed.
End ClientMore.

(** X12.  After every sequence of events on a client that starts without
    a channel: while the manager holds a channel handle its queue of
    pending messages is empty, and the handle it holds is a channel that
    has connected and has not disconnected. *)
Theorem X12_queue_empty_while_connected
    (fuel : nat) (behaviour : nat -> ListenerManager.Behaviour) (ly : ClientLayer)
    (evs : list BaseClientManager.Event) (p : Port) :
  let w := fst (BaseClientManager.run fuel behaviour evs (BaseClientManager.start ly)) in
  BaseClientManager.port (BaseClientManager.manager w) = Some p ->
  BaseClientManager.pendingMessages (BaseClientManager.manager w) = [] /\
  p ∈ BaseClientManager.channels w.
Proof.
  intros w Hp.
  destruct (run_client fuel behaviour evs _ (clientInvariant_start ly)) as [[Hq Hlive] _].
  fold w in Hq, Hlive. split; [|by apply Hlive].
  destruct Hq as [Hq|Hq]; [congruence | done].
Qed.

(** X13.  No message is lost, duplicated or reordered: after every
    sequence of events on a client that starts without a channel (sends,
    subscriptions, resolutions that succeed or fail, incoming messages,
    disconnections, in any interleaving), the messages posted so far
    followed by the messages still queued are exactly the messages passed
    to [sendMessage], in the order of the calls.  (Subscribers may
    subscribe and unsubscribe while they are notified; they are taken not
    to call [sendMessage] then.) *)
Theorem X13_every_sent_message_posted_or_queued
    (fuel : nat) (behaviour : nat -> ListenerManager.Behaviour) (ly : ClientLayer)
    (evs : list BaseClientManager.Event) :
  map snd (posts (snd (BaseClientManager.run fuel behaviour evs (BaseClientManager.start ly))))
  ++ BaseClientManager.pendingMessages
       (BaseClientManager.manager
          (fst (BaseClientManager.run fuel behaviour evs (BaseClientManager.start ly))))
  = sent evs.
Proof.
  destruct (run_client fuel behaviour evs _ (clientInvariant_start ly)) as [_ Hq].
  exact Hq.
Qed.

(** X14.  The client never posts on a channel that has disconnected or
    that it does not hold: whatever happened before, every post made
    during an event is made on the handle that the manager holds after
    the event, and that handle is a live channel. *)
Theorem X14_posts_only_on_live_handle
    (fuel : nat) (behaviour : nat -> ListenerManager.Behaviour)
    (next : ListenerManager.Behaviour) (ly : ClientLayer)
    (evs : list BaseClientManager.Event) (ev : BaseClientManager.Event)
    (p : Port) (m : BaseMessage) :
  let w := fst (BaseClientManager.run fuel behaviour evs (BaseClientManager.start ly)) in
  (p, m) ∈ posts (snd (BaseClientManager.step fuel next ev w)) ->
  BaseClientManager.port
    (BaseClientManager.manager (fst (BaseClientManager.step fuel next ev w))) = Some p /\
  p ∈ BaseClientManager.channels (fst (BaseClientManager.step fuel next ev w)).
Proof.
  intros w Hin.
  destruct (run_client fuel behaviour evs _ (clientInvariant_start ly)) as [Hinv _].
  fold w in Hinv.
  destruct (step_client fuel next ev w Hinv) as ([_ Hlive] & _ & Hposts).
  specialize (Hposts p m Hin). split; [done | by apply Hlive].
Qed.

(** X15.  The callback of [chrome.tabs.query] opens a channel exactly
    when the first tab of the result has an identifier that is not falsy,
    that is, neither 0 nor [NaN] (among the integers from 0 to [2^53 - 1]:
    other than 0).  On an empty result, a first tab without identifier or
    with a falsy identifier it logs one error, calls neither
    [chrome.runtime.connect] nor [postMessage], and leaves the manager,
    its queue included, as it was. *)
Theorem X15_callback_connects_iff_usable_tab
    (tabs : list BaseClientManager.Tab) (fresh : nat) (c : BaseClientManager.t) :
  (BaseClientManager.connectedPorts
     (snd (BaseClientManager.tabsQueryCallback tabs fresh c)) <> [] <->
   exists tab rest x,
     tabs = tab :: rest /\ BaseClientManager.id tab = Some x /\ Js.isFalsy x = false) /\
  (tabs = [] \/
   (exists tab rest, tabs = tab :: rest /\
      (BaseClientManager.id tab = None \/
       exists x, BaseClientManager.id tab = Some x /\ Js.isFalsy x = true)) ->
   BaseClientManager.tabsQueryCallback tabs fresh c
   = (c, [LoggerError ("No tabs found for " +:+ layerValue (BaseClientManager.layer c)
                       +:+ " manager") NoDetails])) /\
  (forall z, (0 <= z < 2 ^ 53)%Z -> Js.isFalsy (Js.ofZ z) = true <-> z = 0%Z).
Proof.
  split; [|split].
  - destruct (BaseClientManager.usableTabId tabs) as [z|] eqn:Hz.
    + rewrite (tabsQueryCallback_usable tabs fresh c z Hz). cbn zeta. cbn [snd].
      split.
      * intros _. unfold BaseClientManager.usableTabId in Hz.
        destruct tabs as [|tab rest]; [done|].
        destruct (BaseClientManager.id tab) as [x|] eqn:Hid; [|done].
        destruct (Js.isFalsy x) eqn:Hx; [done|].
        exists tab, rest, x. by rewrite Hid.
      * intros _. unfold BaseClientManager.connectedPorts. by csimpl.
    + rewrite (tabsQueryCallback_unusable tabs fresh c Hz). cbn [snd].
      split; [done|]. intros (tab & rest & x & -> & Hid & Hx).
      unfold BaseClientManager.usableTabId in Hz. rewrite Hid, Hx in Hz. done.
  - intros Hnone. apply usableTabId_None in Hnone.
    by apply tabsQueryCallback_unusable.
  - apply isFalsy_ofZ.
Qed.

(** ** BaseBackgroundManager in its host *)

Section HubMore.
Import BaseBackgroundManager.
Implicit Types (h : t) (port : Port) (details options : ConnectionOptions).

(** Disconnect listeners only remove: a handle found afterwards was
    there before. *)
Lemma disconnectAll_subset port handlers options p h :
  ConnectionManager.getConnection options
    (connectionManager (fst (disconnectAll port handlers h))) = Some p ->
  ConnectionManager.getConnection options (connectionManager h) = Some p.
Proof.
  revert h. induction handlers as [|[p0 d] handlers IH]; intros h; [done|].
  simpl. destruct (decide (p0 = port)) as [->|Hne]; [|apply IH].
  specialize (IH (fst (handlePortDisconnect d h))).
  unfold handlePortDisconnect in *. simpl in *.
  destruct (disconnectAll port handlers _) as [h2 t2]. simpl in *.
  intros Hg. apply IH in Hg.
  destruct (decide (d = options)) as [->|Hd].
  - by rewrite getConnection_removeConnection_eq in Hg.
  - by rewrite getConnection_removeConnection_ne in Hg.
Qed.

Lemma disconnectAll_app port (l1 l2 : list (Port * ConnectionOptions)) h :
  disconnectAll port (l1 ++ l2) h
  = (fst (disconnectAll port l2 (fst (disconnectAll port l1 h))),
     snd (disconnectAll port l1 h)
       ++ snd (disconnectAll port l2 (fst (disconnectAll port l1 h)))).
Proof.
  revert h. induction l1 as [|[p d] l1 IH]; intros h.
  - simpl. by destruct (disconnectAll port l2 h).
  - simpl. destruct (decide (p = port)) as [->|Hne]; [|apply IH].
    unfold handlePortDisconnect. rewrite IH.
    destruct (disconnectAll port l1 _) as [h1 t1]. simpl.
    destruct (disconnectAll port l2 h1) as [h2 t2]. done.
Qed.

Lemma disconnectAll_unattached port (handlers : list (Port * ConnectionOptions)) h :
  (forall d, (port, d) ∉ handlers) -> disconnectAll port handlers h = (h, []).
Proof.
  induction handlers as [|[p d] handlers IH]; intros Hno; [done|].
  simpl. destruct (decide (p = port)) as [->|Hne].
  - exfalso. apply (Hno d). by left.
  - apply IH. intros d' Hin. apply (Hno d'). by right.
Qed.

Lemma hubInvariant_new : hubInvariant new.
Proof. split; [apply wfConnections_empty | done]. Qed.

Lemma hubInvariant_connect port h :
  hubInvariant h -> hubInvariant (fst (connect port h)).
Proof.
  intros [Hwf Hreg]. unfold connect.
  destruct (extractPortDetails port) as [d|] eqn:Hd.
  - rewrite (handleConnection_registered port d h Hd). split.
    + simpl. by apply wfConnections_addConnection.
    + simpl. intros options p Hg.
      destruct (decide (d = options)) as [->|Hne].
      * rewrite getConnection_addConnection_eq in Hg. injection Hg as <-.
        split; [done|]. split; apply elem_of_app; right; by left.
      * rewrite getConnection_addConnection_ne in Hg by done.
        destruct (Hreg _ _ Hg) as (He & Hm & Hdis).
        split; [done|]. split; apply elem_of_app; by left.
  - by rewrite (handleConnection_rejected port h Hd).
Qed.

Lemma hubInvariant_disconnect port h :
  hubInvariant h -> hubInvariant (fst (disconnect port h)).
Proof.
  intros [Hwf Hreg]. unfold disconnect.
  destruct (disconnectAll_listeners port (onDisconnect h) h) as (Hm & Hd & _).
  split.
  - by apply wfConnections_disconnectAll.
  - intros options p Hg. rewrite Hm, Hd.
    apply Hreg. by apply (disconnectAll_subset port (onDisconnect h)).
Qed.

(** The message listeners of a port only write the listener registry,
    and what they do depends on nothing else. *)
Lemma messageAll_frame fuel behaviour port (msg : BaseMessage) (attached : list Port)
    h1 h2 :
  listenerManager h1 = listenerManager h2 ->
  snd (messageAll fuel behaviour port msg attached h1)
  = snd (messageAll fuel behaviour port msg attached h2) /\
  listenerManager (fst (messageAll fuel behaviour port msg attached h1))
  = listenerManager (fst (messageAll fuel behaviour port msg attached h2)) /\
  connectionManager (fst (messageAll fuel behaviour port msg attached h1))
  = connectionManager h1 /\
  onMessage (fst (messageAll fuel behaviour port msg attached h1)) = onMessage h1 /\
  onDisconnect (fst (messageAll fuel behaviour port msg attached h1)) = onDisconnect h1.
Proof.
  revert h1 h2. induction attached as [|p l IH]; intros h1 h2 Hlm; [done|].
  cbn [messageAll]. destruct (decide (p = port)) as [->|Hne]; [|by apply IH].
  unfold onMessageListener. rewrite Hlm.
  set (n := ListenerManager.notify fuel behaviour msg (Some port) (listenerManager h2)).
  set (h1' := {| connectionManager := connectionManager h1;
                 listenerManager := ListenerManager.final n;
                 onMessage := onMessage h1; onDisconnect := onDisconnect h1 |}).
  set (h2' := {| connectionManager := connectionManager h2;
                 listenerManager := ListenerManager.final n;
                 onMessage := onMessage h2; onDisconnect := onDisconnect h2 |}).
  destruct (IH h1' h2' eq_refl) as (Ht & Hl & Hc & Hm & Hd).
  destruct (messageAll fuel behaviour port msg l h1') as [h1'' t1].
  destruct (messageAll fuel behaviour port msg l h2') as [h2'' t2].
  simpl in *. by subst.
Qed.

Lemma hubInvariant_message fuel behaviour port msg h :
  hubInvariant h -> hubInvariant (fst (message fuel behaviour port msg h)).
Proof.
  intros [Hwf Hreg]. unfold message.
  destruct (messageAll_frame fuel behaviour port msg (onMessage h) h h eq_refl)
    as (_ & _ & Hc & Hm & Hd).
  split.
  - by rewrite Hc.
  - intros options p. rewrite Hc, Hm, Hd. apply Hreg.
Qed.

Lemma HubReachable_invariant h : HubReachable h -> hubInvariant h.
Proof.
  induction 1 as [|ty listener h _ IH|u h _ IH|port h _ IH|port h _ IH
                  |fuel behaviour port msg h _ IH].
  - apply hubInvariant_new.
  - unfold subscribe. by destruct (ListenerManager.subscribe _ _ _).
  - done.
  - by apply hubInvariant_connect.
  - by apply hubInvariant_disconnect.
  - by apply hubInvariant_message.
Qed.

(** [sendMessage] with both parts of the selector. *)
Lemma sendMessage_exact h (t : TabId) (ly : ClientLayer) (msg : BaseMessage) :
  sendMessage (Some t) (Some ly) msg h
  = match ConnectionManager.getConnection {| layer := ly; tabId := t |}
            (connectionManager h) with
    | Some p => [PostMessage p msg]
    | None => []
    end.
Proof.
  unfold sendMessage, ConnectionManager.getAllConnections,
    ConnectionManager.getConnection, sendToLayers.
  simpl. destruct (objGet t _) as [r|]; [|done]. simpl.
  by destruct (objGet ly r) as [[p|]|].
Qed.

Lemma messageAll_app fuel behaviour port (msg : BaseMessage) (l1 l2 : list Port) h :
  messageAll fuel behaviour port msg (l1 ++ l2) h
  = (fst (messageAll fuel behaviour port msg l2
            (fst (messageAll fuel behaviour port msg l1 h))),
     snd (messageAll fuel behaviour port msg l1 h)
       ++ snd (messageAll fuel behaviour port msg l2
                 (fst (messageAll fuel behaviour port msg l1 h)))).
Proof.
  revert h. induction l1 as [|p l1 IH]; intros h.
  - simpl. by destruct (messageAll fuel behaviour port msg l2 h).
  - cbn [app messageAll]. destruct (decide (p = port)) as [->|Hne]; [|apply IH].
    destruct (onMessageListener fuel behaviour port msg h) as [h1 t1].
    rewrite IH. destruct (messageAll fuel behaviour port msg l1 h1) as [h2 t2].
    cbn [fst snd].
    destruct (messageAll fuel behaviour port msg l2 h2) as [h3 t3].
    cbn [fst snd]. by rewrite app_assoc.
Qed.

(** The message listeners of a hub after one more connection. *)
Lemma message_after_connect fuel behaviour port q (msg : BaseMessage) details h :
  extractPortDetails port = Some details ->
  message fuel behaviour q msg (fst (connect port h))
  = (fst (messageAll fuel behaviour q msg [port]
            (fst (messageAll fuel behaviour q msg (onMessage h) (fst (connect port h))))),
     snd (messageAll fuel behaviour q msg (onMessage h) (fst (connect port h)))
       ++ snd (messageAll fuel behaviour q msg [port]
                 (fst (messageAll fuel behaviour q msg (onMessage h)
                         (fst (connect port h)))))).
Proof.
  intros Hd. unfold message at 1.
  assert (onMessage (fst (connect port h)) = onMessage h ++ [port]) as ->
    by (unfold connect; by rewrite (handleConnection_registered port details h Hd)).
  apply messageAll_app.
Qed.

(** Two integers below 2^53 that are the same number are the same. *)
Lemma ofZ_inj (z1 z2 : Z) :
  (0 <= z1 < 2 ^ 53)%Z -> (0 <= z2 < 2 ^ 53)%Z -> Js.ofZ z1 = Js.ofZ z2 -> z1 = z2.
Proof.
  intros H1 H2 Heq.
  pose proof (integerValue_ofZ z1 H1) as E1.
  pose proof (integerValue_ofZ z2 H2) as E2.
  rewrite Heq in E1. congruence.
Qed.
End HubMore.

(** X16.  In every hub that connections, disconnections and
    subscriptions can produce, a port found in the registry under a
    (target, role) pair has a name that [extractPortDetails] parses to
    exactly that pair (so it is an accepted name), and the hub listens to
    its messages and to its disconnection. *)
Theorem X16_registered_port_denotes_its_pair
    (h : BaseBackgroundManager.t) (options : ConnectionOptions) (port : Port) :
  HubReachable h ->
  ConnectionManager.getConnection options (BaseBackgroundManager.connectionManager h)
  = Some port ->
  BaseBackgroundManager.extractPortDetails port = Some options /\
  isAcceptedName (name port) = true /\
  port ∈ BaseBackgroundManager.onMessage h /\
  (port, options) ∈ BaseBackgroundManager.onDisconnect h.
Proof.
  intros Hreach Hg. apply HubReachable_invariant in Hreach as [_ Hreg].
  destruct (Hreg _ _ Hg) as (He & Hm & Hd).
  split; [done|]. split; [|done].
  apply extractPortDetails_accepted. by rewrite He.
Qed.

(** X17.  No handle outlives the disconnection of its port: in every
    reachable hub, after the disconnect event of [port] the registry
    holds [port] under no (target, role) pair, and a handle it still
    holds under a pair was held under that pair before. *)
Theorem X17_disconnect_leaves_no_handle_of_port
    (h : BaseBackgroundManager.t) (port : Port) (options : ConnectionOptions) :
  HubReachable h ->
  let h' := fst (BaseBackgroundManager.disconnect port h) in
  ConnectionManager.getConnection options (BaseBackgroundManager.connectionManager h')
  <> Some port /\
  forall p,
    ConnectionManager.getConnection options (BaseBackgroundManager.connectionManager h')
    = Some p ->
    ConnectionManager.getConnection options (BaseBackgroundManager.connectionManager h)
    = Some p.
Proof.
  intros Hreach h'. apply HubReachable_invariant in Hreach as [_ Hreg].
  assert (forall p,
    ConnectionManager.getConnection options (BaseBackgroundManager.connectionManager h')
    = Some p ->
    ConnectionManager.getConnection options (BaseBackgroundManager.connectionManager h)
    = Some p) as Hsub.
  { intros p. apply disconnectAll_subset. }
  split; [|exact Hsub].
  intros Hg. pose proof (Hsub _ Hg) as Hbefore.
  destruct (Hreg _ _ Hbefore) as (_ & _ & Hd).
  unfold h', BaseBackgroundManager.disconnect in Hg.
  by rewrite (disconnectAll_removes port _ options h Hd) in Hg.
Qed.

(** X18.  [sendMessage] of a reachable hub does nothing but post the
    given message, and only on registered ports that the selector
    addresses: every effect of the call is a post of [message] on a port
    that the registry holds under a pair (target, role) matching the
    selector, and whose name denotes that pair. *)
Theorem X18_sendMessage_posts_only_to_addressed_ports
    (h : BaseBackgroundManager.t) (target : option TabId) (role : option ClientLayer)
    (message : BaseMessage) (e : Effect) :
  HubReachable h ->
  e ∈ BaseBackgroundManager.sendMessage target role message h ->
  exists options port,
    e = PostMessage port message /\
    ConnectionManager.getConnection options (BaseBackgroundManager.connectionManager h)
      = Some port /\
    (target = None \/ target = Some (tabId options)) /\
    (role = None \/ role = Some (layer options)) /\
    BaseBackgroundManager.extractPortDetails port = Some options.
Proof.
  intros Hreach Hin. apply HubReachable_invariant in Hreach as [Hwf Hreg].
  rewrite (sendMessage_addressed h target role message Hwf) in Hin.
  apply list_elem_of_fmap in Hin as (port & -> & Hin).
  unfold addressed in Hin.
  apply list_elem_of_omap in Hin as ([tid ly] & _ & Hsel).
  simpl in Hsel. destruct (selects target role tid ly) eqn:Hs; [|done].
  unfold selects in Hs. apply andb_true_iff in Hs as [Ht Hl].
  apply bool_decide_eq_true in Ht, Hl.
  exists {| layer := ly; tabId := tid |}, port.
  destruct (Hreg _ _ Hsel) as (He & _). done.
Qed.

(** X19.  After a port with an accepted name has connected, a message
    arriving on it is passed to [notify] with that port as sender (once
    more than before the connection, so exactly once for a port that was
    not connected before): the hub does what [notify] does and its
    listener registry becomes the one that [notify] leaves.  The messages
    arriving on other ports are handled as before. *)
Theorem X19_connected_port_is_listened_to
    (fuel : nat) (behaviour : ListenerManager.Behaviour) (h : BaseBackgroundManager.t)
    (port : Port) (msg : BaseMessage) :
  isAcceptedName (name port) = true ->
  port ∉ BaseBackgroundManager.onMessage h ->
  let h' := fst (BaseBackgroundManager.connect port h) in
  let notified :=
    ListenerManager.notify fuel behaviour msg (Some port)
      (BaseBackgroundManager.listenerManager h) in
  BaseBackgroundManager.message fuel behaviour port msg h'
    = ({| BaseBackgroundManager.connectionManager :=
            BaseBackgroundManager.connectionManager h';
          BaseBackgroundManager.listenerManager := ListenerManager.final notified;
          BaseBackgroundManager.onMessage := BaseBackgroundManager.onMessage h';
          BaseBackgroundManager.onDisconnect := BaseBackgroundManager.onDisconnect h' |},
       ListenerManager.effects notified) /\
  forall q, q <> port ->
    snd (BaseBackgroundManager.message fuel behaviour q msg h')
    = snd (BaseBackgroundManager.message fuel behaviour q msg h) /\
    BaseBackgroundManager.listenerManager
      (fst (BaseBackgroundManager.message fuel behaviour q msg h'))
    = BaseBackgroundManager.listenerManager
        (fst (BaseBackgroundManager.message fuel behaviour q msg h)).
Proof.
  intros Hacc Hnew h' notified. apply extractPortDetails_accepted in Hacc as [d Hd].
  assert (BaseBackgroundManager.listenerManager h'
          = BaseBackgroundManager.listenerManager h) as Hlm
    by (unfold h', BaseBackgroundManager.connect;
        by rewrite (handleConnection_registered port d h Hd)).
  split.
  - unfold h'. rewrite (message_after_connect fuel behaviour port port msg d h Hd).
    fold h'.
    assert (BaseBackgroundManager.messageAll fuel behaviour port msg
              (BaseBackgroundManager.onMessage h) h' = (h', [])) as ->.
    { pose proof (message_unattached fuel behaviour port msg
                    {| BaseBackgroundManager.connectionManager :=
                         BaseBackgroundManager.connectionManager h';
                       BaseBackgroundManager.listenerManager :=
                         BaseBackgroundManager.listenerManager h';
                       BaseBackgroundManager.onMessage := BaseBackgroundManager.onMessage h;
                       BaseBackgroundManager.onDisconnect :=
                         BaseBackgroundManager.onDisconnect h' |} Hnew) as Hun.
      unfold BaseBackgroundManager.message in Hun. cbn in Hun.
      destruct (messageAll_frame fuel behaviour port msg
                  (BaseBackgroundManager.onMessage h) h'
                  {| BaseBackgroundManager.connectionManager :=
                       BaseBackgroundManager.connectionManager h';
                     BaseBackgroundManager.listenerManager :=
                       BaseBackgroundManager.listenerManager h';
                     BaseBackgroundManager.onMessage := BaseBackgroundManager.onMessage h;
                     BaseBackgroundManager.onDisconnect :=
                       BaseBackgroundManager.onDisconnect h' |} eq_refl)
        as (Ht & Hl & Hc & Hm & Hdis).
      rewrite Hun in Ht, Hl. cbn [fst snd] in Ht, Hl.
      destruct (BaseBackgroundManager.messageAll fuel behaviour port msg
                  (BaseBackgroundManager.onMessage h) h') as [[cm lm om od] t].
      destruct h' as [cm' lm' om' od']. simpl in *. by subst. }
    cbn [fst snd BaseBackgroundManager.messageAll]. rewrite decide_True by done.
    unfold BaseBackgroundManager.onMessageListener. fold h'. rewrite Hlm.
    fold notified. cbn [fst snd]. by rewrite app_nil_r.
  - intros q Hne. unfold h'.
    rewrite !(message_after_connect fuel behaviour port q msg d h Hd). fold h'.
    cbn [fst snd BaseBackgroundManager.messageAll].
    rewrite decide_False by congruence. cbn [fst snd]. rewrite app_nil_r.
    unfold BaseBackgroundManager.message.
    destruct (messageAll_frame fuel behaviour q msg
                (BaseBackgroundManager.onMessage h) h' h Hlm) as (Ht & Hl & _).
    by split.
Qed.

(** X20.  Connect and disconnect undo each other for the lookups: when a
    port that carries no disconnect listener yet connects with an
    accepted name and then disconnects, [getConnection] finds nothing
    under the pair of the port and finds under every other pair what it
    found before the connection; the two events log the connection and
    the disconnection of that pair. *)
Theorem X20_connect_then_disconnect
    (h : BaseBackgroundManager.t) (port : Port) (details : ConnectionOptions) :
  BaseBackgroundManager.extractPortDetails port = Some details ->
  (forall d, (port, d) ∉ BaseBackgroundManager.onDisconnect h) ->
  let connected := BaseBackgroundManager.connect port h in
  let disconnected := BaseBackgroundManager.disconnect port (fst connected) in
  snd connected = [LoggerInfo "Port connected" (ConnectionDetails details)] /\
  snd disconnected = [LoggerInfo "Port disconnected" (ConnectionDetails details)] /\
  forall options,
    ConnectionManager.getConnection options
      (BaseBackgroundManager.connectionManager (fst disconnected))
    = if decide (options = details) then None
      else ConnectionManager.getConnection options
             (BaseBackgroundManager.connectionManager h).
Proof.
  intros Hd Hfresh connected disconnected.
  unfold disconnected, connected, BaseBackgroundManager.connect,
    BaseBackgroundManager.disconnect.
  rewrite (handleConnection_registered port details h Hd). cbn [fst snd].
  cbn [BaseBackgroundManager.onDisconnect].
  rewrite disconnectAll_app, (disconnectAll_unattached port _ _ Hfresh).
  cbn [fst snd BaseBackgroundManager.disconnectAll].
  rewrite decide_True by done.
  unfold BaseBackgroundManager.handlePortDisconnect. cbn.
  split; [done|]. split; [done|]. intros options.
  destruct (decide (options = details)) as [->|Hne].
  - apply getConnection_removeConnection_eq.
  - rewrite getConnection_removeConnection_ne by congruence.
    apply getConnection_addConnection_ne. congruence.
Qed.

(** X21.  The two sides agree on the channel name: the channel that the
    client callback opens for a tab identifier [z] between 1 and
    [2^53 - 1] is parsed by the hub to the layer of the client and the
    number [z]; once that port has connected, the hub finds it under that
    pair, and a [sendMessage] to that pair posts the message on that port
    and nowhere else. *)
Theorem X21_client_channel_registered_under_its_tab
    (c : BaseClientManager.t) (tabs : list BaseClientManager.Tab) (fresh : nat)
    (z : Z) (h : BaseBackgroundManager.t) (m : BaseMessage) :
  BaseClientManager.usableTabId tabs = Some (Js.ofZ z) -> (0 < z < 2 ^ 53)%Z ->
  let p := {| portId := fresh;
              name := BaseClientManager.channelName (BaseClientManager.layer c)
                        (Js.ofZ z) |} in
  let details := {| layer := BaseClientManager.layer c; tabId := Js.ofZ z |} in
  let h' := fst (BaseBackgroundManager.connect p h) in
  BaseClientManager.connectedPorts
    (snd (BaseClientManager.tabsQueryCallback tabs fresh c)) = [p] /\
  name p = layerValue (BaseClientManager.layer c) +:+ ":" +:+ Js.integerToString z /\
  BaseBackgroundManager.extractPortDetails p = Some details /\
  Js.integerValue (tabId details) = Some z /\
  ConnectionManager.getConnection details (BaseBackgroundManager.connectionManager h')
    = Some p /\
  BaseBackgroundManager.sendMessage (Some (Js.ofZ z))
    (Some (BaseClientManager.layer c)) m h' = [PostMessage p m].
Proof.
  intros Hz Hpos p details h'.
  pose proof (extractPortDetails_channelName fresh (BaseClientManager.layer c) z Hpos)
    as Hd.
  fold p details in Hd.
  assert (ConnectionManager.getConnection details
            (BaseBackgroundManager.connectionManager h') = Some p) as Hg.
  { unfold h', BaseBackgroundManager.connect.
    rewrite (handleConnection_registered p details h Hd). simpl.
    apply getConnection_addConnection_eq. }
  split; [|split; [|split; [done|split; [|split; [done|]]]]].
  - rewrite (tabsQueryCallback_usable tabs fresh c _ Hz). cbn zeta. cbn [snd].
    fold p. unfold BaseClientManager.connectedPorts. rewrite omap_app.
    fold (BaseClientManager.connectedPorts
            (map (PostMessage p) (BaseClientManager.pendingMessages c))).
    by rewrite connectedPorts_PostMessage.
  - unfold p, BaseClientManager.channelName. cbn [name].
    by rewrite numberToString_ofZ by lia.
  - apply integerValue_ofZ. lia.
  - rewrite sendMessage_exact. fold details. by rewrite Hg.
Qed.

(** X22.  Clients of different tabs or layers do not take each other's
    place: when the channels of two clients whose (layer, tab identifier)
    differ, with tab identifiers between 1 and 2^53 - 1, connect one
    after the other, the hub afterwards finds each port under its own
    pair. *)
Theorem X22_distinct_clients_do_not_collide
    (h : BaseBackgroundManager.t) (ly1 ly2 : ClientLayer) (z1 z2 : Z) (i1 i2 : nat) :
  (0 < z1 < 2 ^ 53)%Z -> (0 < z2 < 2 ^ 53)%Z -> (ly1, z1) <> (ly2, z2) ->
  let p1 := {| portId := i1; name := BaseClientManager.channelName ly1 (Js.ofZ z1) |} in
  let p2 := {| portId := i2; name := BaseClientManager.channelName ly2 (Js.ofZ z2) |} in
  let h' := fst (BaseBackgroundManager.connect p2
                   (fst (BaseBackgroundManager.connect p1 h))) in
  ConnectionManager.getConnection {| layer := ly1; tabId := Js.ofZ z1 |}
    (BaseBackgroundManager.connectionManager h') = Some p1 /\
  ConnectionManager.getConnection {| layer := ly2; tabId := Js.ofZ z2 |}
    (BaseBackgroundManager.connectionManager h') = Some p2.
Proof.
  intros H1 H2 Hne p1 p2 h'.
  pose proof (extractPortDetails_channelName i1 ly1 z1 H1) as Hd1.
  pose proof (extractPortDetails_channelName i2 ly2 z2 H2) as Hd2.
  fold p1 in Hd1. fold p2 in Hd2.
  unfold h', BaseBackgroundManager.connect.
  rewrite (handleConnection_registered p1 _ h Hd1). cbn [fst].
  rewrite (handleConnection_registered p2 _ _ Hd2). cbn [fst].
  cbn [BaseBackgroundManager.connectionManager]. split.
  - rewrite getConnection_addConnection_ne.
    + apply getConnection_addConnection_eq.
    + intros [= Hl Ht]. apply Hne. f_equal; [done|].
      symmetry. apply ofZ_inj; [lia | lia | done].
  - apply getConnection_addConnection_eq.
Qed.

(** ** The further properties at concrete inputs *)

(** X4 at the registry that holds one port under (5, popup). *)
Lemma X4_no_empty_record_witness :
  ReachableConnections
    (ConnectionManager.addConnection {| layer := Popup; tabId := Js.ofZ 5 |}
       {| portId := 1; name := "popup:5" |} ConnectionManager.empty) /\
  objKeys [(DevTools, None); (Popup, Some {| portId := 1; name := "popup:5" |});
           (Options, None)] <> [].
Proof.
  split; [apply ReachableConnections_add, ReachableConnections_empty|].
  exact (X4_no_empty_record
    (ConnectionManager.addConnection {| layer := Popup; tabId := Js.ofZ 5 |}
       {| portId := 1; name := "popup:5" |} ConnectionManager.empty)
    (Js.ofZ 5)
    [(DevTools, None); (Popup, Some {| portId := 1; name := "popup:5" |});
     (Options, None)]
    (ReachableConnections_add _ _ _ ReachableConnections_empty) eq_refl).
Defined.

(** X5 at the registry of (5, popup) and (5, devtools): removing the
    three roles of target 5 removes the record. *)
Lemma X5_removing_all_roles_deletes_record_witness :
  NoDup [Popup; DevTools; Options] /\
  Js.ofZ 5 ∉ objKeys
    (ConnectionManager.getAllConnections
       (ConnectionManager.removeConnection {| layer := Popup; tabId := Js.ofZ 5 |}
          (ConnectionManager.removeConnection {| layer := DevTools; tabId := Js.ofZ 5 |}
             (ConnectionManager.removeConnection {| layer := Options; tabId := Js.ofZ 5 |}
                (ConnectionManager.addConnection
                   {| layer := DevTools; tabId := Js.ofZ 5 |}
                   {| portId := 2; name := "devtools:5" |}
                   (ConnectionManager.addConnection
                      {| layer := Popup; tabId := Js.ofZ 5 |}
                      {| portId := 1; name := "popup:5" |}
                      ConnectionManager.empty)))))).
Proof.
  assert (NoDup [Popup; DevTools; Options]) as Hnd
    by (apply (bool_decide_unpack _); vm_compute; exact I).
  split; [exact Hnd|].
  apply (X5_removing_all_roles_deletes_record _ (Js.ofZ 5) Popup DevTools Options Hnd).
Defined.

(** X6 at a manager with one subscriber of ["t"]. *)
Lemma X6_registry_entries_nonempty_duplicate_free_witness :
  ListenerManager.registry (fst (ListenerManager.subscribe "t" 1 ListenerManager.new))
    !! "t" = Some [1] /\
  [1] <> [] /\ NoDup [1].
Proof.
  split; [vm_compute; reflexivity|].
  apply (X6_registry_entries_nonempty_duplicate_free
           (fst (ListenerManager.subscribe "t" 1 ListenerManager.new))
           [snd (ListenerManager.subscribe "t" 1 ListenerManager.new)] "t" [1]).
  - apply Reachable_subscribe, Reachable_new.
  - vm_compute. reflexivity.
Defined.

(** X7 at a manager with one subscriber of ["t"]: a second one goes to
    the end. *)
Lemma X7_subscribe_appends_witness :
  ListenerManager.subscribers "t"
    (fst (ListenerManager.subscribe "t" 2
            (fst (ListenerManager.subscribe "t" 1 ListenerManager.new))))
  = [1; 2].
Proof.
  pose proof (proj1 (X7_subscribe_appends
    (fst (ListenerManager.subscribe "t" 1 ListenerManager.new))
    [snd (ListenerManager.subscribe "t" 1 ListenerManager.new)] "t" 2
    (Reachable_subscribe _ _ "t" 1 Reachable_new))) as H.
  rewrite H. vm_compute. reflexivity.
Defined.

(** X8 at a manager with one subscriber of ["t"]: subscribing listener 2
    and calling the returned closure gives the registry back. *)
Lemma X8_unsubscribe_undoes_subscribe_witness :
  (2 ∉ ListenerManager.subscribers "t"
         (fst (ListenerManager.subscribe "t" 1 ListenerManager.new))) /\
  ListenerManager.registry
    (ListenerManager.unsubscribe
       (snd (ListenerManager.subscribe "t" 2
               (fst (ListenerManager.subscribe "t" 1 ListenerManager.new))))
       (fst (ListenerManager.subscribe "t" 2
               (fst (ListenerManager.subscribe "t" 1 ListenerManager.new)))))
  = ListenerManager.registry (fst (ListenerManager.subscribe "t" 1 ListenerManager.new)).
Proof.
  assert (2 ∉ ListenerManager.subscribers "t"
                (fst (ListenerManager.subscribe "t" 1 ListenerManager.new))) as Hnew
    by (apply (bool_decide_unpack _); vm_compute; exact I).
  split; [exact Hnew|].
  exact (X8_unsubscribe_undoes_subscribe
    (fst (ListenerManager.subscribe "t" 1 ListenerManager.new))
    [snd (ListenerManager.subscribe "t" 1 ListenerManager.new)] "t" 2
    (Reachable_subscribe _ _ "t" 1 Reachable_new) Hnew).
Defined.

(** X9 at the stale closure of C3: it empties ["t"] and leaves ["u"]. *)
Lemma X9_unsubscribe_confined_to_its_type_witness :
  let first := ListenerManager.subscribe "t" 1 ListenerManager.new in
  let other := ListenerManager.subscribe "u" 3
                 (ListenerManager.unsubscribe (snd first) (fst first)) in
  let second := ListenerManager.subscribe "t" 2 (fst other) in
  ListenerManager.subscribers "u" (ListenerManager.unsubscribe (snd first) (fst second))
  = ListenerManager.subscribers "u" (fst second).
Proof.
  intros first other second.
  assert (Reachable (fst second) [snd second; snd other; snd first]) as Hreach.
  { apply Reachable_subscribe, Reachable_subscribe.
    apply Reachable_unsubscribe; [|left].
    apply Reachable_subscribe, Reachable_new. }
  assert (snd first ∈ [snd second; snd other; snd first]) as Hin
    by (right; right; left).
  apply (proj1 (X9_unsubscribe_confined_to_its_type _ _ _ Hreach Hin)).
  vm_compute. discriminate.
Defined.

(** X10 for listener 1, subscribed after listener 2, which subscribes
    listener 3 when it is notified: the calls are those of 2, 1 and 3. *)
Lemma X10_subscribed_listener_notified_once_witness :
  let lm := fst (ListenerManager.subscribe "t" 2 ListenerManager.new) in
  let behaviour : ListenerManager.Behaviour :=
    fun _ listener _ _ =>
      if decide (listener = 2)
      then ([ListenerManager.CallSubscribe "t" 3], Normal tt)
      else ([], Normal tt) in
  let outcome :=
    ListenerManager.notify 10 behaviour (mkMessage "t" "d") None
      (fst (ListenerManager.subscribe "t" 1 lm)) in
  untouched behaviour (mkMessage "t" "d") None 1 /\
  ListenerManager.returned outcome = true /\
  deliveries 1 (mkMessage "t" "d") None (ListenerManager.effects outcome) = 1.
Proof.
  intros lm behaviour outcome.
  assert (untouched behaviour (mkMessage "t" "d") None 1) as Hun.
  { intros k l a Ha. unfold behaviour in Ha.
    destruct (decide (l = 2)); simpl in Ha.
    - apply list_elem_of_singleton in Ha. subst a. simpl. discriminate.
    - by apply elem_of_nil in Ha. }
  assert (ListenerManager.returned outcome = true) as Hret
    by (vm_compute; reflexivity).
  split; [exact Hun|]. split; [exact Hret|].
  exact (proj1 (proj2 (X10_subscribed_listener_notified_once 10 behaviour lm
    [snd (ListenerManager.subscribe "t" 2 ListenerManager.new)] 1 (mkMessage "t" "d")
    None (Reachable_subscribe _ _ "t" 2 Reachable_new) Hun)) Hret).
Defined.

(** X11 at a manager with subscribers 1 and 2 of ["t"], for the closure
    of subscriber 1, when subscriber 2 subscribes listener 3 while it is
    notified. *)
Lemma X11_current_unsubscribe_removes_its_listener_witness :
  let first := ListenerManager.subscribe "t" 1 ListenerManager.new in
  let second := ListenerManager.subscribe "t" 2 (fst first) in
  let behaviour : ListenerManager.Behaviour :=
    fun _ listener _ _ =>
      if decide (listener = 2)
      then ([ListenerManager.CallSubscribe "t" 3], Normal tt)
      else ([], Normal tt) in
  current (snd first) (fst second) /\
  neverSubscribed behaviour (mkMessage "t" "d") None 1 /\
  ListenerManager.subscribers "t" (ListenerManager.unsubscribe (snd first) (fst second))
  = [2] /\
  deliveries 1 (mkMessage "t" "d") None
    (ListenerManager.effects
       (ListenerManager.notify 10 behaviour (mkMessage "t" "d") None
          (ListenerManager.unsubscribe (snd first) (fst second))))
  = 0.
Proof.
  intros first second behaviour.
  assert (current (snd first) (fst second)) as Hcur by (vm_compute; reflexivity).
  assert (neverSubscribed behaviour (mkMessage "t" "d") None 1) as Hns.
  { intros k l a Ha. unfold behaviour in Ha.
    destruct (decide (l = 2)); simpl in Ha.
    - apply list_elem_of_singleton in Ha. subst a. simpl. discriminate.
    - by apply elem_of_nil in Ha. }
  split; [exact Hcur|]. split; [exact Hns|].
  pose proof (X11_current_unsubscribe_removes_its_listener 10 behaviour
    (fst second) [snd second; snd first] (snd first) (mkMessage "t" "d") None
    (Reachable_subscribe _ _ "t" 2 (Reachable_subscribe _ _ "t" 1 Reachable_new))
    Hcur eq_refl Hns) as [Hs Hd].
  split; [|exact Hd].
  vm_compute. reflexivity.
Defined.

(** X12 after one send and a successful resolution. *)
Lemma X12_queue_empty_while_connected_witness :
  let w := fst (BaseClientManager.run 10 (fun _ => returns)
                  [BaseClientManager.SendMessage (mkMessage "t" "d");
                   BaseClientManager.TabsResult [BaseClientManager.mkTab (Some (Js.ofZ 7))]]
                  (BaseClientManager.start Popup)) in
  BaseClientManager.port (BaseClientManager.manager w)
    = Some {| portId := 0; name := "popup:7" |} /\
  BaseClientManager.pendingMessages (BaseClientManager.manager w) = [] /\
  {| portId := 0; name := "popup:7" |} ∈ BaseClientManager.channels w.
Proof.
  intros w.
  assert (BaseClientManager.port (BaseClientManager.manager w)
          = Some {| portId := 0; name := "popup:7" |}) as Hp
    by (vm_compute; reflexivity).
  split; [exact Hp|].
  exact (X12_queue_empty_while_connected 10 (fun _ => returns) Popup
    [BaseClientManager.SendMessage (mkMessage "t" "d");
     BaseClientManager.TabsResult [BaseClientManager.mkTab (Some (Js.ofZ 7))]]
    {| portId := 0; name := "popup:7" |} Hp).
Defined.

(** X14 for a send on an open channel. *)
Lemma X14_posts_only_on_live_handle_witness :
  let w := fst (BaseClientManager.run 10 (fun _ => returns)
                  [BaseClientManager.SendMessage (mkMessage "t" "d");
                   BaseClientManager.TabsResult [BaseClientManager.mkTab (Some (Js.ofZ 7))]]
                  (BaseClientManager.start Popup)) in
  let sent := BaseClientManager.step 10 returns
                (BaseClientManager.SendMessage (mkMessage "u" "e")) w in
  ({| portId := 0; name := "popup:7" |}, mkMessage "u" "e") ∈ posts (snd sent) /\
  BaseClientManager.port (BaseClientManager.manager (fst sent))
    = Some {| portId := 0; name := "popup:7" |} /\
  {| portId := 0; name := "popup:7" |} ∈ BaseClientManager.channels (fst sent).
Proof.
  intros w sent.
  assert (({| portId := 0; name := "popup:7" |}, mkMessage "u" "e") ∈ posts (snd sent))
    as Hin by (vm_compute; left).
  split; [exact Hin|].
  exact (X14_posts_only_on_live_handle 10 (fun _ => returns) returns Popup
    [BaseClientManager.SendMessage (mkMessage "t" "d");
     BaseClientManager.TabsResult [BaseClientManager.mkTab (Some (Js.ofZ 7))]]
    (BaseClientManager.SendMessage (mkMessage "u" "e"))
    {| portId := 0; name := "popup:7" |} (mkMessage "u" "e") Hin).
Defined.

(** X16 at the hub to which a port named ["popup:5"] has connected. *)
Lemma X16_registered_port_denotes_its_pair_witness :
  let p := {| portId := 1; name := "popup:5" |} in
  let h := fst (BaseBackgroundManager.connect p BaseBackgroundManager.new) in
  ConnectionManager.getConnection {| layer := Popup; tabId := Js.ofZ 5 |}
    (BaseBackgroundManager.connectionManager h) = Some p /\
  BaseBackgroundManager.extractPortDetails p
    = Some {| layer := Popup; tabId := Js.ofZ 5 |} /\
  isAcceptedName (name p) = true /\
  p ∈ BaseBackgroundManager.onMessage h /\
  (p, {| layer := Popup; tabId := Js.ofZ 5 |}) ∈ BaseBackgroundManager.onDisconnect h.
Proof.
  intros p h.
  assert (ConnectionManager.getConnection {| layer := Popup; tabId := Js.ofZ 5 |}
            (BaseBackgroundManager.connectionManager h) = Some p) as Hg
    by (vm_compute; reflexivity).
  split; [exact Hg|].
  exact (X16_registered_port_denotes_its_pair h
    {| layer := Popup; tabId := Js.ofZ 5 |} p
    (HubReachable_connect p _ HubReachable_new) Hg).
Defined.

(** X17 at the same hub: after the disconnection of the port the pair
    (5, popup) does not hold it. *)
Lemma X17_disconnect_leaves_no_handle_of_port_witness :
  let p := {| portId := 1; name := "popup:5" |} in
  let h := fst (BaseBackgroundManager.connect p BaseBackgroundManager.new) in
  ConnectionManager.getConnection {| layer := Popup; tabId := Js.ofZ 5 |}
    (BaseBackgroundManager.connectionManager
       (fst (BaseBackgroundManager.disconnect p h))) <> Some p.
Proof.
  intros p h.
  exact (proj1 (X17_disconnect_leaves_no_handle_of_port h p
    {| layer := Popup; tabId := Js.ofZ 5 |}
    (HubReachable_connect p _ HubReachable_new))).
Defined.

(** X18 at the same hub, for the broadcast. *)
Lemma X18_sendMessage_posts_only_to_addressed_ports_witness :
  let p := {| portId := 1; name := "popup:5" |} in
  let h := fst (BaseBackgroundManager.connect p BaseBackgroundManager.new) in
  PostMessage p (mkMessage "t" "d")
    ∈ BaseBackgroundManager.sendMessage None None (mkMessage "t" "d") h /\
  exists options port,
    PostMessage p (mkMessage "t" "d") = PostMessage port (mkMessage "t" "d") /\
    ConnectionManager.getConnection options (BaseBackgroundManager.connectionManager h)
      = Some port /\
    (@None TabId = None \/ None = Some (tabId options)) /\
    (@None ClientLayer = None \/ None = Some (layer options)) /\
    BaseBackgroundManager.extractPortDetails port = Some options.
Proof.
  intros p h.
  assert (PostMessage p (mkMessage "t" "d")
            ∈ BaseBackgroundManager.sendMessage None None (mkMessage "t" "d") h) as Hin
    by (vm_compute; left).
  split; [exact Hin|].
  exact (X18_sendMessage_posts_only_to_addressed_ports h None None (mkMessage "t" "d")
    (PostMessage p (mkMessage "t" "d"))
    (HubReachable_connect p _ HubReachable_new) Hin).
Defined.

(** X19 for the first connection to a new hub. *)
Lemma X19_connected_port_is_listened_to_witness :
  let p := {| portId := 1; name := "popup:5" |} in
  isAcceptedName (name p) = true /\
  snd (BaseBackgroundManager.message 10 returns p (mkMessage "t" "d")
         (fst (BaseBackgroundManager.connect p BaseBackgroundManager.new)))
  = [LoggerWarn "Not listened port event" (UnlistenedDetails (Some "popup:5") "t")].
Proof.
  intros p.
  assert (isAcceptedName (name p) = true) as Hacc by (vm_compute; reflexivity).
  split; [exact Hacc|].
  pose proof (proj1 (X19_connected_port_is_listened_to 10 returns
                       BaseBackgroundManager.new p (mkMessage "t" "d") Hacc
                       (not_elem_of_nil p))) as H.
  rewrite H. reflexivity.
Defined.

(** X20 for a port named ["popup:5"] and a new hub. *)
Lemma X20_connect_then_disconnect_witness :
  let p := {| portId := 1; name := "popup:5" |} in
  let details := {| layer := Popup; tabId := Js.ofZ 5 |} in
  BaseBackgroundManager.extractPortDetails p = Some details /\
  snd (BaseBackgroundManager.disconnect p
         (fst (BaseBackgroundManager.connect p BaseBackgroundManager.new)))
  = [LoggerInfo "Port disconnected" (ConnectionDetails details)].
Proof.
  intros p details.
  assert (BaseBackgroundManager.extractPortDetails p = Some details) as Hd
    by (vm_compute; reflexivity).
  split; [exact Hd|].
  exact (proj1 (proj2 (X20_connect_then_disconnect BaseBackgroundManager.new p details
    Hd (fun d => not_elem_of_nil (p, d))))).
Defined.

(** X21 for a popup client in tab 7. *)
Lemma X21_client_channel_registered_under_its_tab_witness :
  let p := {| portId := 0; name := "popup:7" |} in
  BaseClientManager.usableTabId [BaseClientManager.mkTab (Some (Js.ofZ 7))]
    = Some (Js.ofZ 7) /\
  BaseClientManager.connectedPorts
    (snd (BaseClientManager.tabsQueryCallback
            [BaseClientManager.mkTab (Some (Js.ofZ 7))] 0 (BaseClientManager.new Popup)))
  = [p] /\
  BaseBackgroundManager.sendMessage (Some (Js.ofZ 7)) (Some Popup) (mkMessage "t" "d")
    (fst (BaseBackgroundManager.connect p BaseBackgroundManager.new))
  = [PostMessage p (mkMessage "t" "d")].
Proof.
  intros p. split; [reflexivity|].
  assert ((0 < 7 < 2 ^ 53)%Z) as Hz by lia.
  pose proof (X21_client_channel_registered_under_its_tab
    (BaseClientManager.new Popup) [BaseClientManager.mkTab (Some (Js.ofZ 7))] 0 7%Z
    BaseBackgroundManager.new (mkMessage "t" "d") eq_refl Hz)
    as (Hc & _ & _ & _ & _ & Hs).
  split; [exact Hc | exact Hs].
Defined.

(** X22 for the popup and the devtools client of tab 7. *)
Lemma X22_distinct_clients_do_not_collide_witness :
  let p1 := {| portId := 0; name := "popup:7" |} in
  let p2 := {| portId := 1; name := "devtools:7" |} in
  let h := fst (BaseBackgroundManager.connect p2
                  (fst (BaseBackgroundManager.connect p1 BaseBackgroundManager.new))) in
  ConnectionManager.getConnection {| layer := Popup; tabId := Js.ofZ 7 |}
    (BaseBackgroundManager.connectionManager h) = Some p1 /\
  ConnectionManager.getConnection {| layer := DevTools; tabId := Js.ofZ 7 |}
    (BaseBackgroundManager.connectionManager h) = Some p2.
Proof.
  intros p1 p2 h.
  apply (X22_distinct_clients_do_not_collide BaseBackgroundManager.new
           Popup DevTools 7%Z 7%Z 0 1).
  - lia.
  - lia.
  - discriminate.
Defined.
